(** * Game of Life Studio: the board engine of [App.tsx], embedded and verified

    The development follows the source file top-down: typed arrays
    ([Uint8Array]) and the JavaScript values the code manipulates, the board
    helpers ([createEmptyBoard], [randomBoard], [deserializeCells]), the
    persisted record ([loadSavedState]), the pattern catalog
    ([rowsToOffsets], [PATTERNS]), the rule engine ([computeNext]) and the
    event handlers of the [App] component, modelled as transformers of the
    component state. *)

From Stdlib Require Import ZArith QArith Qround Qpower Lia Lqa Ascii String.
From stdpp Require Import base decidable option list list_numbers strings sets pretty.

Local Open Scope Z_scope.

(** ** Typed arrays

    A [Uint8Array] is a fixed-length array of bytes, modelled as [list Z].
    Indices are JavaScript numbers holding integers, modelled as [Z]:
    reading outside the array gives [undefined] ([None]), writing outside
    the array is ignored, and a stored value is reduced to a byte. *)

Module U8.

Definition ToUint8 (v : Z) : Z := v mod 256.

(** [new Uint8Array(n)]: a [RangeError] ([None]) for a negative length. *)
Definition make (n : Z) : option (list Z) :=
  if n <? 0 then None else Some (replicate (Z.to_nat n) 0).

(** [arr[i]] *)
Definition get (arr : list Z) (i : Z) : option Z :=
  if i <? 0 then None else arr !! Z.to_nat i.

(** [arr[i] = v] *)
Definition set (arr : list Z) (i v : Z) : list Z :=
  if i <? 0 then arr else <[Z.to_nat i := ToUint8 v]> arr.

(** [arr.length] *)
Definition len (arr : list Z) : Z := Z.of_nat (length arr).

End U8.

(** A value read from an array and used as a number: [undefined] becomes
    [NaN].  Integer-valued numbers that may be [NaN] are [option Z]. *)
Definition js_add (a b : option Z) : option Z :=
  match a, b with
  | Some m, Some n => Some (m + n)
  | _, _ => None
  end.

(** [n === k] for an integer literal [k]; [NaN] equals nothing. *)
Definition js_eqb (n : option Z) (k : Z) : bool :=
  match n with
  | Some m => m =? k
  | None => false
  end.

(** Truthiness of an array element: [undefined] and [0] are falsy. *)
Definition truthy (v : option Z) : bool :=
  match v with
  | Some m => negb (m =? 0)
  | None => false
  end.

(** ** The rule engine *)

(** The body of the innermost loop of [computeNext]: the contribution of
    the neighbour at offset [(dx, dy)] of cell [(x, y)]. *)
Definition neighborStep (board : list Z) (width height : Z) (wrap : bool)
    (x y dy : Z) (neighbors : option Z) (dx : Z) : option Z :=
  if (dx =? 0) && (dy =? 0) then neighbors
  else
    let nx := x + dx in
    let ny := y + dy in
    if wrap then
      let nx := if nx <? 0 then width - 1 else nx in
      let nx := if nx >=? width then 0 else nx in
      let ny := if ny <? 0 then height - 1 else ny in
      let ny := if ny >=? height then 0 else ny in
      js_add neighbors (U8.get board (ny * width + nx))
    else if (nx <? 0) || (nx >=? width) || (ny <? 0) || (ny >=? height)
    then neighbors
    else js_add neighbors (U8.get board (ny * width + nx)).

(** The [dy] and [dx] loops: the live-neighbour count of cell [(x, y)]. *)
Definition countNeighbors (board : list Z) (width height : Z) (wrap : bool)
    (x y : Z) : option Z :=
  foldl (fun neighbors dy =>
           foldl (neighborStep board width height wrap x y dy)
             neighbors (seqZ (-1) 3))
    (Some 0) (seqZ (-1) 3).

(** The body of the [x] loop: the next state of one cell. *)
Definition nextCell (board : list Z) (width height : Z) (wrap : bool)
    (x y : Z) : Z :=
  let neighbors := countNeighbors board width height wrap x y in
  if truthy (U8.get board (y * width + x))
  then (if js_eqb neighbors 2 || js_eqb neighbors 3 then 1 else 0)
  else (if js_eqb neighbors 3 then 1 else 0).

Definition computeNext (board : list Z) (width height : Z) (wrap : bool)
    : list Z :=
  foldl (fun next y =>
    foldl (fun next x =>
      U8.set next (y * width + x) (nextCell board width height wrap x y))
      next (seqZ 0 width))
    (replicate (length board) 0) (seqZ 0 height).

(** ** JavaScript numbers

    Sizes, speeds, densities, random samples and timestamps are JavaScript
    numbers, that is doubles.  A finite number is modelled by the rational it
    denotes.  Comparison, minimum, maximum, rounding to an integer and
    truncation are exact on doubles.  A difference and a quotient are
    rounded to the nearest double ([round64] below), as the loop that paces
    the simulation computes them.  The product [width * height] is left
    exact, as it is for the sizes the component holds, and the sign of zero
    is not modelled. *)

Inductive number : Type :=
  | NaN
  | NegInf
  | Fin (q : Q)
  | PosInf.

Definition Int (z : Z) : number := Fin (inject_Z z).

Definition Qltb (p q : Q) : bool := negb (Qle_bool q p).

(** [a < b] *)
Definition Nlt (a b : number) : bool :=
  match a, b with
  | NaN, _ | _, NaN => false
  | _, NegInf => false
  | NegInf, _ => true
  | PosInf, _ => false
  | Fin _, PosInf => true
  | Fin p, Fin q => Qltb p q
  end.

(** [a >= b] *)
Definition Nge (a b : number) : bool :=
  match a, b with
  | NaN, _ | _, NaN => false
  | _, NegInf => true
  | NegInf, _ => false
  | PosInf, _ => true
  | Fin _, PosInf => false
  | Fin p, Fin q => Qle_bool q p
  end.

Definition Math_min (a b : number) : number :=
  match a, b with
  | NaN, _ | _, NaN => NaN
  | NegInf, _ | _, NegInf => NegInf
  | PosInf, c | c, PosInf => c
  | Fin p, Fin q => if Qle_bool p q then Fin p else Fin q
  end.

Definition Math_max (a b : number) : number :=
  match a, b with
  | NaN, _ | _, NaN => NaN
  | PosInf, _ | _, PosInf => PosInf
  | NegInf, c | c, NegInf => c
  | Fin p, Fin q => if Qle_bool p q then Fin q else Fin p
  end.

(** [Math.round]: the nearest integer, a tie going up. *)
Definition Math_round (a : number) : number :=
  match a with
  | Fin q => Int (Qfloor (q + (1 # 2)))
  | _ => a
  end.

Definition Qsign (q : Q) : Z := Z.sgn (Qnum q).

(** [a * b] *)
Definition Nmul (a b : number) : number :=
  match a, b with
  | NaN, _ | _, NaN => NaN
  | Fin p, Fin q => Fin (p * q)
  | Fin p, PosInf | PosInf, Fin p =>
      match Qsign p with 0 => NaN | Zpos _ => PosInf | Zneg _ => NegInf end
  | Fin p, NegInf | NegInf, Fin p =>
      match Qsign p with 0 => NaN | Zpos _ => NegInf | Zneg _ => PosInf end
  | PosInf, PosInf | NegInf, NegInf => PosInf
  | PosInf, NegInf | NegInf, PosInf => NegInf
  end.

(** *** Rounding to a double

    The result of an arithmetic operation is the double nearest to the
    exact result, a tie going to the double whose last bit is 0; a result
    of magnitude 2^1024 or more after rounding is an infinity. *)

(** The integer nearest to [q], a tie going to the even one. *)
Definition rne (q : Q) : Z :=
  let f := Qfloor q in
  match (q - inject_Z f ?= 1 # 2)%Q with
  | Lt => f
  | Eq => if Z.even f then f else f + 1
  | Gt => f + 1
  end.

(** For [0 < q], the exponent [e] with [2^(e+52) <= q < 2^(e+53)]: the
    doubles of that size are the multiples of [2^e]. *)
Definition binade (q : Q) : Z :=
  let k := Z.log2 (Qnum q) - Z.log2 (Zpos (Qden q)) in
  if Qle_bool (2 ^ k) q then k - 52 else k - 53.

(** Below [2^-1022] the doubles are the multiples of [2^-1074]. *)
Definition nearest_pos (q : Q) : Q :=
  let e := Z.max (binade q) (-1074) in
  (inject_Z (rne (q / 2 ^ e)) * 2 ^ e)%Q.

Definition nearest (q : Q) : Q :=
  match Qnum q with
  | Z0 => 0%Q
  | Zpos _ => nearest_pos q
  | Zneg _ => (- nearest_pos (- q))%Q
  end.

Definition round64 (q : Q) : number :=
  let r := nearest q in
  if Qle_bool (2 ^ 1024) r then PosInf
  else if Qle_bool r (- 2 ^ 1024) then NegInf
  else Fin r.

(** [Number.EPSILON], 2^-52. *)
Definition EPSILON : Q := 1 # 4503599627370496.

(** [a - b] *)
Definition Nsub (a b : number) : number :=
  match a, b with
  | NaN, _ | _, NaN => NaN
  | Fin p, Fin q => round64 (p - q)
  | PosInf, PosInf | NegInf, NegInf => NaN
  | PosInf, _ | _, NegInf => PosInf
  | NegInf, _ | _, PosInf => NegInf
  end.

(** [a / b] *)
Definition Ndiv (a b : number) : number :=
  match a, b with
  | NaN, _ | _, NaN => NaN
  | Fin p, Fin q =>
      if Qeq_bool q 0
      then match Qsign p with 0 => NaN | Zpos _ => PosInf | Zneg _ => NegInf end
      else round64 (p / q)
  | Fin _, _ => Int 0
  | PosInf, Fin q => if Qsign q <? 0 then NegInf else PosInf
  | NegInf, Fin q => if Qsign q <? 0 then PosInf else NegInf
  | _, _ => NaN
  end.

(** The integer a number holds, when it holds one. *)
Definition int_value (a : number) : option Z :=
  match a with
  | Fin q => if Qeq_bool q (inject_Z (Qfloor q)) then Some (Qfloor q) else None
  | _ => None
  end.

(** [ToIndex], the length conversion of [new Uint8Array(n)]: [NaN] counts
    as 0, a fraction is dropped, and a negative or infinite length is a
    [RangeError].  The engine's upper limit on lengths is not modelled. *)
Definition ToIndex (a : number) : option Z :=
  match a with
  | NaN => Some 0
  | Fin q =>
      let t := Z.quot (Qnum q) (Zpos (Qden q)) in
      if t <? 0 then None else Some t
  | NegInf | PosInf => None
  end.

(** [new Uint8Array(n)] for a number [n]. *)
Definition new_Uint8Array (n : number) : option (list Z) :=
  t ← ToIndex n; U8.make t.

(** ** Constants and board helpers *)

Definition MIN_SIZE : Z := 10.
Definition MAX_SIZE : Z := 150.
Definition DEFAULT_WIDTH : Z := 42.
Definition DEFAULT_HEIGHT : Z := 28.

Definition clampSize (value : number) : number :=
  Math_max (Int MIN_SIZE) (Math_min (Int MAX_SIZE) (Math_round value)).

Definition createEmptyBoard (width height : number) : option (list Z) :=
  new_Uint8Array (Nmul width height).

(** [Math.random] is a source of samples; [rand i] is the sample drawn by
    the [i]-th call made during one run of [randomBoard]. *)
Definition randomBoard (rand : nat → Q) (width height : number)
    (density : number) : option (list Z) :=
  next ← new_Uint8Array (Nmul width height);
  Some (foldl (fun next i =>
                 U8.set next i
                   (if Nlt (Fin (rand (Z.to_nat i))) density then 1 else 0))
              next (seqZ 0 (U8.len next))).

(** A [for] loop whose guard is re-evaluated before every iteration; the
    loop ends at the first index that fails it.  [fuel] bounds the number
    of iterations. *)
Fixpoint for_while {S : Type} (guard : Z → bool) (body : S → Z → S)
    (fuel : nat) (i : Z) (s : S) : S :=
  match fuel with
  | O => s
  | Datatypes.S fuel' =>
      if guard i then for_while guard body fuel' (i + 1) (body s i) else s
  end.

Definition is_bit (c : ascii) : bool :=
  bool_decide (c = "0"%char) || bool_decide (c = "1"%char).

(** [raw.replace(/[^01]/g, '')] *)
Definition normalize (raw : string) : list ascii :=
  List.filter is_bit (list_ascii_of_string raw).

(** The guard [i < normalized.length] lets the loop run at most
    [normalized.length] times, which is the fuel given to it. *)
Definition deserializeCells (raw : string) (width height : number)
    : option (list Z) :=
  let total := Nmul width height in
  let normalized := normalize raw in
  arr ← new_Uint8Array total;
  Some (for_while
          (fun i => Nlt (Int i) total && (i <? Z.of_nat (length normalized)))
          (fun arr i =>
             U8.set arr i
               (if bool_decide (normalized !! Z.to_nat i = Some "1"%char)
                then 1 else 0))
          (length normalized) 0 arr).

(** ** Themes *)

(** The own keys of the [THEMES] table. *)
Definition THEMES : list string := ["light"; "dark"; "neon"; "dawn"]%string.

(** [THEMES] is an object literal, so the properties of [Object.prototype]
    (the standard ones and those of Annex B) are also found [in] it. *)
Definition Object_prototype : list string :=
  ["constructor"; "hasOwnProperty"; "isPrototypeOf"; "propertyIsEnumerable";
   "toLocaleString"; "toString"; "valueOf"; "__proto__";
   "__defineGetter__"; "__defineSetter__";
   "__lookupGetter__"; "__lookupSetter__"]%string.

(** [value in THEMES] *)
Definition isThemeId (value : string) : bool :=
  bool_decide (value ∈ THEMES) || bool_decide (value ∈ Object_prototype).

(** ** The persisted record *)

(** A value produced by [JSON.parse].  [JObj] lists the own properties of
    an object. *)
#[local] Unset Elimination Schemes.
Inductive json : Type :=
  | JNull
  | JBool (b : bool)
  | JNum (n : number)
  | JStr (s : string)
  | JArr (items : list json)
  | JObj (fields : list (string * json)).
#[local] Set Elimination Schemes.

(** What [loadSavedState] finds in [localStorage]. *)
Inductive storage_read : Type :=
  | NoStorage                (* no [window], or [getItem] throws *)
  | NoItem                   (* [getItem] gives [null] or the empty string *)
  | BadJson                  (* [JSON.parse] throws *)
  | Parsed (parsed : json).

Record SavedState := {
  saved_width : number;
  saved_height : number;
  saved_speed : number;
  saved_wrap : bool;
  saved_theme : string;
  saved_cells : option string
}.

(** [parsed.key] for the six keys read below, none of which is inherited
    from a prototype: [None] is the [TypeError] of reading a property of
    [null], [Some None] is [undefined]. *)
Definition get_prop (parsed : json) (key : string) : option (option json) :=
  match parsed with
  | JNull => None
  | JObj fields =>
      Some (snd <$> List.find (fun kv => String.eqb (fst kv) key) fields)
  | _ => Some None
  end.

(** [v ?? d] *)
Definition nullish_or (v : option json) (d : json) : json :=
  match v with
  | None | Some JNull => d
  | Some w => w
  end.

(** [Boolean(v)] *)
Definition Boolean (v : json) : bool :=
  match v with
  | JNull => false
  | JBool b => b
  | JNum NaN => false
  | JNum (Fin q) => negb (Qeq_bool q 0)
  | JNum _ => true
  | JStr s => negb (String.eqb s "")
  | JArr _ | JObj _ => true
  end.

Section Persistence.

(** The host's conversion of a string, an array or an object to a number
    ([ToPrimitive], then [StringToNumber]); [None] when it throws. *)
Variable host_ToNumber : json → option number.

Definition ToNumber (v : json) : option number :=
  match v with
  | JNull => Some (Int 0)
  | JBool b => Some (Int (if b then 1 else 0))
  | JNum n => Some n
  | JStr _ | JArr _ | JObj _ => host_ToNumber v
  end.

(** An exception anywhere in the [try] block makes the function return
    [null], like its explicit [return null]: both are [None]. *)
Definition loadSavedState (stored : storage_read) : option SavedState :=
  match stored with
  | NoStorage | NoItem | BadJson => None
  | Parsed parsed =>
      w ← get_prop parsed "width";
      width ← clampSize <$> ToNumber (nullish_or w (JNum (Int DEFAULT_WIDTH)));
      h ← get_prop parsed "height";
      height ← clampSize <$> ToNumber (nullish_or h (JNum (Int DEFAULT_HEIGHT)));
      theme ← get_prop parsed "theme";
      let themeValue :=
        match theme with
        | Some (JStr t) => if isThemeId t then t else "neon"%string
        | _ => "neon"%string
        end in
      speed ← get_prop parsed "speed";
      wrap ← get_prop parsed "wrap";
      cells ← get_prop parsed "cells";
      Some {|
        saved_width := width;
        saved_height := height;
        saved_speed :=
          match speed with
          | Some (JNum n) => Math_min (Int 30) (Math_max (Int 1) n)
          | _ => Int 8
          end;
        saved_wrap :=
          match wrap with
          | Some v => Boolean v
          | None => true
          end;
        saved_theme := themeValue;
        saved_cells :=
          match cells with
          | Some (JStr c) => Some c
          | _ => None
          end
      |}
  end.

End Persistence.

(** The initial [config] state of [App]. *)
Record InitialConfig := {
  init_width : number;
  init_height : number;
  init_speed : number;
  init_wrap : bool;
  init_theme : string
}.

(** [saved?.field ?? fallback]: a field of a record is never [null] or
    [undefined], so the fallback is used exactly when [saved] is [null]. *)
Definition App_config (saved : option SavedState) : InitialConfig :=
  {| init_width := from_option saved_width (Int DEFAULT_WIDTH) saved;
     init_height := from_option saved_height (Int DEFAULT_HEIGHT) saved;
     init_speed := from_option saved_speed (Int 10) saved;
     init_wrap := from_option saved_wrap true saved;
     init_theme := from_option saved_theme "neon"%string saved |}.

(** The initial [cells] state of [App]; [saved?.cells] is falsy when
    [saved] is [null], when the field is [null] and when it is the empty
    string. *)
Definition App_cells (saved : option SavedState) : option (list Z) :=
  match saved with
  | Some s =>
      match saved_cells s with
      | Some c =>
          if negb (String.eqb c "")
          then deserializeCells c (saved_width s) (saved_height s)
          else createEmptyBoard (saved_width s) (saved_height s)
      | None => createEmptyBoard (saved_width s) (saved_height s)
      end
  | None => createEmptyBoard (Int DEFAULT_WIDTH) (Int DEFAULT_HEIGHT)
  end.

(** ** The pattern catalog *)

Record Pattern := {
  pat_id : string;
  pat_label : string;
  pat_description : string;
  minWidth : Z;
  minHeight : Z;
  rows : list string;
  offsets : list (Z * Z)
}.

(** [l.forEach((item, index) => ...)] visits the items with their index. *)
Definition indexed {A : Type} (l : list A) : list (Z * A) :=
  imap (fun i a => (Z.of_nat i, a)) l.

Definition is_live_glyph (char : ascii) : bool :=
  bool_decide (char = "O"%char) || bool_decide (char = "X"%char)
  || bool_decide (char = "1"%char).

Definition rowsToOffsets (rows : list string) : list (Z * Z) :=
  let height := Z.of_nat (length rows) in
  let width :=
    match rows with
    | row :: _ => Z.of_nat (String.length row)
    | [] => 0
    end in
  let cx := width / 2 in
  let cy := height / 2 in
  foldl (fun offsets '(y, row) =>
    foldl (fun offsets '(x, char) =>
      if is_live_glyph char then offsets ++ [(x - cx, y - cy)] else offsets)
      offsets (indexed (list_ascii_of_string row)))
    [] (indexed rows).

Definition PATTERNS_literal : list Pattern :=
  [ {| pat_id := "glider"; pat_label := "Glider";
       pat_description := "Diagonal traveler that never stops.";
       minWidth := 8; minHeight := 8;
       rows := [".O."; "..O"; "OOO"];
       offsets := [] |};
    {| pat_id := "small-exploder"; pat_label := "Small Exploder";
       pat_description := "Quick symmetric burst.";
       minWidth := 10; minHeight := 10;
       rows := [".O."; "OOO"; "O.O"; ".O."];
       offsets := [] |};
    {| pat_id := "pulsar"; pat_label := "Pulsar";
       pat_description := "Period-3 oscillator with 48 cells.";
       minWidth := 18; minHeight := 18;
       rows := [ "..OOO...OOO..";
                 ".............";
                 "O....O.O....O";
                 "O....O.O....O";
                 "O....O.O....O";
                 "..OOO...OOO..";
                 ".............";
                 "..OOO...OOO..";
                 "O....O.O....O";
                 "O....O.O....O";
                 "O....O.O....O";
                 ".............";
                 "..OOO...OOO.." ];
       offsets := [] |};
    {| pat_id := "gosper"; pat_label := "Gosper Glider Gun";
       pat_description := "Fires an endless stream of gliders.";
       minWidth := 45; minHeight := 25;
       rows := [ "........................O...........";
                 "......................O.O...........";
                 "............OO......OO............OO";
                 "...........O...O....OO............OO";
                 "OO........O.....O...OO..............";
                 "OO........O...O.OO....O.O...........";
                 "..........O.....O.......O...........";
                 "...........O...O....................";
                 "............OO......................" ];
       offsets := [] |} ]%string.

(** [PATTERNS.forEach((pattern) => { pattern.offsets = rowsToOffsets(pattern.rows) })] *)
Definition PATTERNS : list Pattern :=
  (fun pattern =>
     {| pat_id := pat_id pattern; pat_label := pat_label pattern;
        pat_description := pat_description pattern;
        minWidth := minWidth pattern; minHeight := minHeight pattern;
        rows := rows pattern;
        offsets := rowsToOffsets (rows pattern) |}) <$> PATTERNS_literal.

(** The state updater of [applyPattern]: a copy of [prev] with the in-bounds
    targets set. *)
Definition placeOffsets (offsets : list (Z * Z)) (cx cy width height : Z)
    (prev : list Z) : list Z :=
  foldl (fun next '(dx, dy) =>
    let x := cx + dx in
    let y := cy + dy in
    if (x >=? 0) && (x <? width) && (y >=? 0) && (y <? height)
    then U8.set next (y * width + x) 1
    else next)
    prev offsets.

(** The state updater of [applySize]: the overlap of the old board copied
    into a fresh board.  An [undefined] read is stored as 0. *)
Definition resizeCells (prev : list Z) (oldWidth oldHeight width height : Z)
    : option (list Z) :=
  next ← createEmptyBoard (Int width) (Int height);
  let copyWidth := Z.min oldWidth width in
  let copyHeight := Z.min oldHeight height in
  Some (foldl (fun next y =>
    foldl (fun next x =>
      U8.set next (y * width + x)
        (default 0 (U8.get prev (y * oldWidth + x))))
      next (seqZ 0 copyWidth))
    next (seqZ 0 copyHeight)).

(** The state updater of [toggleCellAt]. *)
Definition paintCell (prev : list Z) (width x y : Z) (forceValue : option Z)
    : list Z :=
  let idx := y * width + x in
  let target :=
    match forceValue with
    | Some v => v
    | None => if truthy (U8.get prev idx) then 0 else 1
    end in
  if bool_decide (U8.get prev idx = Some target) then prev
  else U8.set prev idx target.

(** ** The state of the [App] component

    While the component runs, the board sizes are integers, and the speed,
    the density, the draft sizes typed into the size inputs and the frame
    timestamps are finite numbers.  The generation counter is an integer
    (the loss of exactness of doubles above 2^53 is not modelled), and an
    updater function passed to a state setter is applied once, to the
    latest state. *)

Record Config := {
  cfg_width : Z;
  cfg_height : Z;
  cfg_speed : Q;
  cfg_wrap : bool;
  cfg_theme : string
}.

(** The two messages [applyPattern] shows. *)
Inductive Toast : Type :=
  | BoardTooSmall (pattern : Pattern)
  | PlacedAtCenter (pattern : Pattern).

Record State := {
  config : Config;
  cells : list Z;
  generation : Z;
  running : bool;
  density : Q;
  toast : option Toast;
  draftSize : Q * Q;
  lastFrame : Q;       (* [lastFrameRef.current] *)
  paintValue : Z;      (* [paintValueRef.current] *)
  isPainting : bool
}.

Definition setConfig (f : Config → Config) (s : State) : State :=
  {| config := f (config s); cells := cells s; generation := generation s;
     running := running s; density := density s; toast := toast s;
     draftSize := draftSize s; lastFrame := lastFrame s;
     paintValue := paintValue s; isPainting := isPainting s |}.

Definition setCells (f : list Z → list Z) (s : State) : State :=
  {| config := config s; cells := f (cells s); generation := generation s;
     running := running s; density := density s; toast := toast s;
     draftSize := draftSize s; lastFrame := lastFrame s;
     paintValue := paintValue s; isPainting := isPainting s |}.

Definition setGeneration (f : Z → Z) (s : State) : State :=
  {| config := config s; cells := cells s; generation := f (generation s);
     running := running s; density := density s; toast := toast s;
     draftSize := draftSize s; lastFrame := lastFrame s;
     paintValue := paintValue s; isPainting := isPainting s |}.

Definition setRunning (f : bool → bool) (s : State) : State :=
  {| config := config s; cells := cells s; generation := generation s;
     running := f (running s); density := density s; toast := toast s;
     draftSize := draftSize s; lastFrame := lastFrame s;
     paintValue := paintValue s; isPainting := isPainting s |}.

Definition setDensity (d : Q) (s : State) : State :=
  {| config := config s; cells := cells s; generation := generation s;
     running := running s; density := d; toast := toast s;
     draftSize := draftSize s; lastFrame := lastFrame s;
     paintValue := paintValue s; isPainting := isPainting s |}.

Definition setToast (t : option Toast) (s : State) : State :=
  {| config := config s; cells := cells s; generation := generation s;
     running := running s; density := density s; toast := t;
     draftSize := draftSize s; lastFrame := lastFrame s;
     paintValue := paintValue s; isPainting := isPainting s |}.

Definition setDraftSize (f : Q * Q → Q * Q) (s : State) : State :=
  {| config := config s; cells := cells s; generation := generation s;
     running := running s; density := density s; toast := toast s;
     draftSize := f (draftSize s); lastFrame := lastFrame s;
     paintValue := paintValue s; isPainting := isPainting s |}.

Definition setLastFrame (t : Q) (s : State) : State :=
  {| config := config s; cells := cells s; generation := generation s;
     running := running s; density := density s; toast := toast s;
     draftSize := draftSize s; lastFrame := t;
     paintValue := paintValue s; isPainting := isPainting s |}.

Definition setPaintValue (v : Z) (s : State) : State :=
  {| config := config s; cells := cells s; generation := generation s;
     running := running s; density := density s; toast := toast s;
     draftSize := draftSize s; lastFrame := lastFrame s;
     paintValue := v; isPainting := isPainting s |}.

Definition setIsPainting (b : bool) (s : State) : State :=
  {| config := config s; cells := cells s; generation := generation s;
     running := running s; density := density s; toast := toast s;
     draftSize := draftSize s; lastFrame := lastFrame s;
     paintValue := paintValue s; isPainting := b |}.

Definition with_size (width height : Z) (c : Config) : Config :=
  {| cfg_width := width; cfg_height := height; cfg_speed := cfg_speed c;
     cfg_wrap := cfg_wrap c; cfg_theme := cfg_theme c |}.

Definition with_speed (speed : Q) (c : Config) : Config :=
  {| cfg_width := cfg_width c; cfg_height := cfg_height c; cfg_speed := speed;
     cfg_wrap := cfg_wrap c; cfg_theme := cfg_theme c |}.

Definition with_wrap (wrap : bool) (c : Config) : Config :=
  {| cfg_width := cfg_width c; cfg_height := cfg_height c;
     cfg_speed := cfg_speed c; cfg_wrap := wrap; cfg_theme := cfg_theme c |}.

Definition with_theme (theme : string) (c : Config) : Config :=
  {| cfg_width := cfg_width c; cfg_height := cfg_height c;
     cfg_speed := cfg_speed c; cfg_wrap := cfg_wrap c; cfg_theme := theme |}.

(** ** The simulation loop *)

(** [1000 / config.speed], a double.  A division by zero gives an
    infinity; the speed slider and [loadSavedState] keep the speed within
    1..30, so the sign of a zero speed never matters. *)
Definition stepInterval (speed : Q) : number :=
  Ndiv (Int 1000) (Fin speed).

(** Whether an advance is due at the frame callback of time [now]:
    [now - lastFrameRef.current >= stepInterval], on doubles. *)
Definition frame_due (now : Q) (s : State) : bool :=
  Nge (Nsub (Fin now) (Fin (lastFrame s)))
    (stepInterval (cfg_speed (config s))).

(** The [requestAnimationFrame] callback of the running effect. *)
Definition tick (now : Q) (s : State) : State :=
  if frame_due now s then
    setLastFrame now
      (setGeneration (fun g => g + 1)
         (setCells (fun prev =>
            computeNext prev (cfg_width (config s)) (cfg_height (config s))
              (cfg_wrap (config s))) s))
  else s.

(** ** Event handlers *)

Definition stepOnce (s : State) : State :=
  setGeneration (fun g => g + 1)
    (setCells (fun prev =>
       computeNext prev (cfg_width (config s)) (cfg_height (config s))
         (cfg_wrap (config s))) s).

(** An exception thrown by a handler ([None]) leaves no new state. *)
Definition clearBoard (s : State) : option State :=
  next ← createEmptyBoard (Int (cfg_width (config s))) (Int (cfg_height (config s)));
  Some (setGeneration (fun _ => 0) (setCells (fun _ => next) s)).

Definition randomizeBoard (rand : nat → Q) (s : State) : option State :=
  next ← randomBoard rand (Int (cfg_width (config s)))
           (Int (cfg_height (config s))) (Fin (density s));
  Some (setGeneration (fun _ => 0) (setCells (fun _ => next) s)).

Definition applyPattern (patternId : string) (s : State) : State :=
  match List.find (fun p => String.eqb (pat_id p) patternId) PATTERNS with
  | None => s
  | Some pattern =>
      let width := cfg_width (config s) in
      let height := cfg_height (config s) in
      if (width <? minWidth pattern) || (height <? minHeight pattern)
      then setToast (Some (BoardTooSmall pattern)) s
      else
        let cx := width / 2 in
        let cy := height / 2 in
        setToast (Some (PlacedAtCenter pattern))
          (setGeneration (fun _ => 0)
             (setCells (placeOffsets (offsets pattern) cx cy width height) s))
  end.

(** [clampSize] of a finite number holds an integer, so [int_value] never
    fails here. *)
Definition applySize (s : State) : option State :=
  width ← int_value (clampSize (Fin (fst (draftSize s))));
  height ← int_value (clampSize (Fin (snd (draftSize s))));
  if (width =? cfg_width (config s)) && (height =? cfg_height (config s))
  then Some s
  else
    next ← resizeCells (cells s) (cfg_width (config s))
             (cfg_height (config s)) width height;
    Some (setConfig (with_size width height)
            (setGeneration (fun _ => 0) (setCells (fun _ => next) s))).

(** Pointer handlers receive the cell [(x, y)] under the pointer, that is
    [Math.floor] of the pointer position scaled to the board. *)
Definition toggleCellAt (x y : Z) (forceValue : option Z) (s : State) : State :=
  let width := cfg_width (config s) in
  let height := cfg_height (config s) in
  if (x <? 0) || (y <? 0) || (x >=? width) || (y >=? height) then s
  else setCells (fun prev => paintCell prev width x y forceValue) s.

Definition handlePointerDown (x y : Z) (s : State) : State :=
  let idx := y * cfg_width (config s) + x in
  let initialValue := if truthy (U8.get (cells s) idx) then 0 else 1 in
  setIsPainting true
    (toggleCellAt x y (Some initialValue) (setPaintValue initialValue s)).

Definition handlePointerMove (x y : Z) (s : State) : State :=
  if negb (isPainting s) then s
  else toggleCellAt x y (Some (paintValue s)) s.

Definition handlePointerUp (s : State) : State := setIsPainting false s.

Definition toggleWrap (s : State) : State :=
  setConfig (fun c => with_wrap (negb (cfg_wrap c)) c) s.

Definition setTheme (nextTheme : string) (s : State) : State :=
  setConfig (with_theme nextTheme) s.

Inductive event : Type :=
  | Frame (now : Q)               (* an animation frame *)
  | PlayPause
  | Stop
  | Step
  | Random (rand : nat → Q)
  | Clear
  | SpeedInput (value : Q)
  | DensityInput (value : Q)
  | DraftWidthInput (value : Q)
  | DraftHeightInput (value : Q)
  | ResizeGrid
  | EdgeBehavior
  | Theme (id : string)
  | PatternButton (patternId : string)
  | PointerDown (x y : Z)
  | PointerMove (x y : Z)
  | PointerUp
  | ToastTimeout.

(** The frame callback is scheduled only by the effect that runs while
    [running] holds. *)
Definition handle (e : event) (s : State) : option State :=
  match e with
  | Frame now => Some (if running s then tick now s else s)
  | PlayPause => Some (setRunning negb s)
  | Stop => Some (setRunning (fun _ => false) s)
  | Step => Some (stepOnce s)
  | Random rand => randomizeBoard rand s
  | Clear => clearBoard s
  | SpeedInput value => Some (setConfig (with_speed value) s)
  | DensityInput value => Some (setDensity (nearest (value / 100)) s)
  | DraftWidthInput value =>
      Some (setDraftSize (fun d => (value, snd d)) s)
  | DraftHeightInput value =>
      Some (setDraftSize (fun d => (fst d, value)) s)
  | ResizeGrid => applySize s
  | EdgeBehavior => Some (toggleWrap s)
  | Theme id => Some (setTheme id s)
  | PatternButton patternId => Some (applyPattern patternId s)
  | PointerDown x y => Some (handlePointerDown x y s)
  | PointerMove x y => Some (handlePointerMove x y s)
  | PointerUp => Some (handlePointerUp s)
  | ToastTimeout => Some (setToast None s)
  end.

(** A run of the component: the events handled one after the other. *)
Fixpoint run (es : list event) (s : State) : option State :=
  match es with
  | [] => Some s
  | e :: es' => s' ← handle e s; run es' s'
  end.

(** ** Mounting the component *)

Definition finite_value (a : number) : option Q :=
  match a with
  | Fin q => Some q
  | _ => None
  end.

(** [useState(0.32)]: the double nearest to 0.32. *)
Definition INITIAL_DENSITY : Q := nearest (32 # 100).

(** The effect that applies the theme.  [THEMES[config.theme]] is a theme
    for an own key of [THEMES]; for a name that [THEMES] only inherits it is
    a value without [properties], and [Object.entries(undefined)] throws. *)
Definition theme_effect (theme : string) : option unit :=
  if bool_decide (theme ∈ THEMES) then Some () else None.

(** What mounting the component gives.  [Mounted]: the component holds a
    state with integer sizes and a finite speed.  [MountedOutside]: it is
    mounted with a size or a speed that is not such a number ([NaN]), which
    [State] cannot hold; it then holds the configuration [c] and the board
    [board].  [MountThrows]: the first render or an effect throws, and the
    component is unmounted. *)
Inductive Mount : Type :=
  | Mounted (s : State)
  | MountedOutside (c : InitialConfig) (board : list Z)
  | MountThrows.

(** The first render computes the initial values of the state hooks from
    what [loadSavedState] returns; then the effects run.  Of these, the one
    that applies the theme can throw.  The effects that draw the canvas and
    write the record to [localStorage] leave the state alone; they are not
    modelled, nor is a failure of [localStorage.setItem]. *)
Definition App_mount (host_ToNumber : json → option number)
    (stored : storage_read) : Mount :=
  let saved := loadSavedState host_ToNumber stored in
  let c := App_config saved in
  match App_cells saved with
  | None => MountThrows
  | Some board =>
      match theme_effect (init_theme c) with
      | None => MountThrows
      | Some _ =>
          match int_value (init_width c), int_value (init_height c),
                finite_value (init_speed c) with
          | Some width, Some height, Some speed =>
              Mounted
                {| config := {| cfg_width := width; cfg_height := height;
                                cfg_speed := speed; cfg_wrap := init_wrap c;
                                cfg_theme := init_theme c |};
                   cells := board;
                   generation := 0;
                   running := false;
                   density := INITIAL_DENSITY;
                   toast := None;
                   draftSize := (inject_Z width, inject_Z height);
                   lastFrame := 0%Q;
                   paintValue := 1;
                   isPainting := false |}
          | _, _, _ => MountedOutside c board
          end
      end
  end.

(** ** Vocabulary of the specification *)

(** A cell value is 0 (dead) or 1 (live). *)
Definition is_cell (v : Z) : Prop := v = 0 ∨ v = 1.

(** The board invariant: [width * height] cells, each 0 or 1. *)
Definition board_ok (board : list Z) (width height : Z) : Prop :=
  U8.len board = width * height ∧ Forall is_cell board.

(** The cell at [(x, y)] of a row-major board. *)
Definition cell (board : list Z) (width x y : Z) : Z :=
  default 0 (U8.get board (y * width + x)).

Definition in_bounds (width height : Z) (p : Z * Z) : bool :=
  (0 <=? fst p) && (fst p <? width) && (0 <=? snd p) && (snd p <? height).

(** The offsets of the Moore neighbourhood: the 8 surrounding cells. *)
Definition moore : list (Z * Z) :=
  [(-1, -1); (0, -1); (1, -1); (-1, 0); (1, 0); (-1, 1); (0, 1); (1, 1)].

Definition sumZ (l : list Z) : Z := foldr Z.add 0 l.

(** The neighbour count as the specification words it.  Wrapped: every
    neighbour coordinate is taken modulo the dimension.  Bounded: a
    neighbour coordinate outside the board is left out of the count. *)
Definition spec_neighbors (board : list Z) (width height : Z) (wrap : bool)
    (x y : Z) : Z :=
  if wrap then
    sumZ ((fun d => cell board width ((x + fst d) mod width)
                      ((y + snd d) mod height)) <$> moore)
  else
    sumZ ((fun p => cell board width (fst p) (snd p)) <$>
          List.filter (in_bounds width height)
            ((fun d => (x + fst d, y + snd d)) <$> moore)).

(** Conway's rule B3/S23 as the specification words it: a live cell
    survives on 2 or 3 neighbours, a dead cell is born on exactly 3. *)
Definition spec_B3S23 (current neighbors : Z) : Z :=
  if current =? 1 then (if (neighbors =? 2) || (neighbors =? 3) then 1 else 0)
  else (if neighbors =? 3 then 1 else 0).

(** What the neighbour at offset [(dx, dy)] adds to the count of [(x, y)]. *)
Definition contribution (board : list Z) (width height : Z) (wrap : bool)
    (x y dx dy : Z) : Z :=
  if wrap then cell board width ((x + dx) mod width) ((y + dy) mod height)
  else if in_bounds width height (x + dx, y + dy)
       then cell board width (x + dx) (y + dy) else 0.

(** A loop that writes one array cell per iteration. *)
Definition write_all {K : Type} (idx val : K → Z) (init : list Z)
    (ks : list K) : list Z :=
  foldl (fun a k => U8.set a (idx k) (val k)) init ks.

(** The loop nest shared by [computeNext] and [resizeCells]: rows
    [0 .. ch) and columns [0 .. cw) of a board of row length [w]. *)
Definition grid_loop (f : Z → Z → Z) (w cw ch : Z) (init : list Z) : list Z :=
  foldl (fun next y =>
           foldl (fun next x => U8.set next (y * w + x) (f x y))
             next (seqZ 0 cw))
    init (seqZ 0 ch).

(** The invariant of the component state. *)
Definition state_ok (s : State) : Prop :=
  board_ok (cells s) (cfg_width (config s)) (cfg_height (config s))
  ∧ is_cell (paintValue s)
  ∧ 0 ≤ generation s.


(** Whether a pattern offset [d], placed at origin [(cx, cy)], lands on
    cell [(x, y)]. *)
Definition lands_on (cx cy x y : Z) (d : Z * Z) : Prop :=
  x = cx + fst d ∧ y = cy + snd d.

#[global] Instance lands_on_dec cx cy x y d : Decision (lands_on cx cy x y d).
Proof. unfold lands_on. apply _. Defined.

(** ** Sample data *)

(** A blinker on a 5x5 board, row-major. *)
Definition blinker : list Z :=
  [0;0;0;0;0;
   0;0;1;0;0;
   0;0;1;0;0;
   0;0;1;0;0;
   0;0;0;0;0].

(** A 10x10 board whose only live cell is [(1, 1)], and a running state
    that holds it. *)
Definition sample_board : list Z := <[11%nat := 1]> (replicate 100 0).

Definition sample_state : State :=
  {| config := {| cfg_width := 10; cfg_height := 10; cfg_speed := 8;
                  cfg_wrap := true; cfg_theme := "neon" |};
     cells := sample_board;
     generation := 3;
     running := true;
     density := INITIAL_DENSITY;
     toast := None;
     draftSize := (20%Q, 10%Q);
     lastFrame := 0%Q;
     paintValue := 1;
     isPainting := false |}.

(** The first entry of [PATTERNS]. *)
Definition glider : Pattern :=
  {| pat_id := "glider"; pat_label := "Glider";
     pat_description := "Diagonal traveler that never stops.";
     minWidth := 8; minHeight := 8;
     rows := [".O."; "..O"; "OOO"];
     offsets := [(0, -1); (1, 0); (-1, 1); (0, 1); (1, 1)] |}.

(** A running state at speed 3, and the double nearest to 1000/3, which
    is [1000 / 3] as the loop computes it. *)
Definition speed3_state : State := setConfig (with_speed 3) sample_state.

Definition third_of_second : Q := 5864062014805333 # 17592186044416.

(** Whether event [e], handled in state [s], is an automatic advance: a
    frame of the running effect at which an advance is due. *)
Definition advances (e : event) (s : State) : bool :=
  match e with
  | Frame now => running s && frame_due now s
  | _ => false
  end.

(** A run in which no event is an automatic advance. *)
Fixpoint quiet (es : list event) (s : State) : Prop :=
  match es with
  | [] => True
  | e :: es' =>
      advances e s = false ∧ ∀ s', handle e s = Some s' → quiet es' s'
  end.

(** A persisted record that carries sizes and a speed but no cells, what
    [loadSavedState] makes of it, and a host whose conversions throw. *)
Definition sample_record : json :=
  JObj [("width", JNum (Int 20)); ("height", JNum (Fin (7 # 2)));
        ("speed", JNum (Int 99)); ("theme", JStr "dark")]%string.


Definition strict_host : json → option number := fun _ => None.

(** ** Persisting and the live count *)

(** [Array.from(cells).join('')]: the decimal numerals of the cells, one
    after the other. *)
Definition serializeCells (cells : list Z) : string :=
  foldr (fun cell rest => pretty cell +:+ rest) ""%string cells.

(** The object [saveState] hands to [JSON.stringify] for the board
    [nextCells]; [JSON.parse] of the stored text gives this value back. *)
Definition saveState_payload (s : State) (nextCells : list Z) : json :=
  JObj [("width", JNum (Int (cfg_width (config s))));
        ("height", JNum (Int (cfg_height (config s))));
        ("speed", JNum (Fin (cfg_speed (config s))));
        ("wrap", JBool (cfg_wrap (config s)));
        ("theme", JStr (cfg_theme (config s)));
        ("cells", JStr (serializeCells nextCells))]%string.

(** [cells.reduce((sum, cell) => sum + cell, 0)] *)
Definition liveCount (cells : list Z) : Z :=
  foldl (fun sum cell => sum + cell) 0 cells.

(** A paint gesture: the pointer goes down on one cell and moves over the
    cells of [path]. *)
Definition drag (x y : Z) (path : list (Z * Z)) : list event :=
  PointerDown x y :: ((fun p => PointerMove (fst p) (snd p)) <$> path).

(** The offsets one template row contributes. *)
Definition row_offsets (cx cy : Z) (item : Z * string) : list (Z * Z) :=
  indexed (list_ascii_of_string (snd item)) ≫= fun xc =>
    if is_live_glyph (snd xc) then [(fst xc - cx, fst item - cy)] else [].

(** Whether every offset of a pattern stays within half its minimum size
    of the centre. *)
Definition within_min_size (pattern : Pattern) : bool :=
  forallb (fun d =>
             (- (minWidth pattern / 2) <=? fst d)
             && (fst d <? minWidth pattern / 2)
             && (- (minHeight pattern / 2) <=? snd d)
             && (snd d <? minHeight pattern / 2))
          (offsets pattern).

(** * Verification *)

(** ** Typed-array reads and writes *)

Section U8_facts.
Implicit Types (arr : list Z) (i j v : Z).

Lemma length_set arr i v : length (U8.set arr i v) = length arr.
Proof.
  unfold U8.set. destruct (i <? 0); [done|]. apply length_insert.
Qed.

Lemma get_set_eq arr i v :
  U8.get (U8.set arr i v) i = (fun _ => U8.ToUint8 v) <$> U8.get arr i.
Proof.
  unfold U8.get, U8.set. destruct (i <? 0); [done|].
  destruct (decide (Z.to_nat i < length arr)%nat) as [Hlt|Hge].
  - rewrite list_lookup_insert_eq by done.
    destruct (lookup_lt_is_Some_2 arr _ Hlt) as [w ->]. done.
  - rewrite list_insert_ge by lia.
    rewrite (lookup_ge_None_2 arr) by lia. done.
Qed.

Lemma get_set_ne arr i j v :
  i ≠ j → U8.get (U8.set arr i v) j = U8.get arr j.
Proof.
  intros Hne. unfold U8.get, U8.set.
  destruct (Z.ltb_spec j 0); [done|].
  destruct (Z.ltb_spec i 0); [done|].
  apply list_lookup_insert_ne. lia.
Qed.

Lemma get_Some_range arr i v :
  U8.get arr i = Some v → 0 ≤ i < U8.len arr.
Proof.
  unfold U8.get, U8.len. destruct (Z.ltb_spec i 0); [done|].
  intros Hv%lookup_lt_Some. lia.
Qed.

Lemma get_in_range arr i :
  0 ≤ i < U8.len arr → is_Some (U8.get arr i).
Proof.
  unfold U8.get, U8.len. intros [H0 Hlt].
  destruct (Z.ltb_spec i 0); [lia|].
  apply lookup_lt_is_Some_2. lia.
Qed.

Lemma get_out_of_range arr i :
  ¬ (0 ≤ i < U8.len arr) → U8.get arr i = None.
Proof.
  unfold U8.get, U8.len. intros Hout.
  destruct (Z.ltb_spec i 0); [done|].
  apply lookup_ge_None_2. lia.
Qed.

Lemma get_replicate n v i :
  0 ≤ i < Z.of_nat n → U8.get (replicate n v) i = Some v.
Proof.
  intros [H0 Hlt]. unfold U8.get.
  destruct (Z.ltb_spec i 0); [lia|].
  apply lookup_replicate_2. lia.
Qed.

Lemma get_elem_of arr i v : U8.get arr i = Some v → v ∈ arr.
Proof.
  unfold U8.get. destruct (i <? 0); [done|].
  intros H. by eapply list_elem_of_lookup_2.
Qed.

Lemma Forall_set (P : Z → Prop) arr i v :
  Forall P arr → P (U8.ToUint8 v) → Forall P (U8.set arr i v).
Proof.
  intros Harr Hv. unfold U8.set. destruct (i <? 0); [done|].
  by apply Forall_insert.
Qed.

Lemma ToUint8_cell v : is_cell v → U8.ToUint8 v = v.
Proof. by intros [-> | ->]. Qed.

Lemma is_cell_bit (b : bool) : is_cell (if b then 1 else 0).
Proof. destruct b; [by right | by left]. Qed.

End U8_facts.

(** ** Loops that write one array cell per iteration *)

Section write_loops.
Context {K : Type} (idx val : K → Z).

Abbreviation write_all := (write_all idx val).

Lemma length_write_all init ks :
  length (write_all init ks) = length init.
Proof.
  revert init. induction ks as [|k ks IH]; intros init; [done|].
  cbn. unfold write_all in IH. rewrite IH. apply length_set.
Qed.

(** An index no iteration writes to keeps its initial value. *)
Lemma get_write_all_other init ks i :
  (∀ k, k ∈ ks → idx k ≠ i) →
  U8.get (write_all init ks) i = U8.get init i.
Proof.
  revert init. induction ks as [|k ks IH]; intros init Hks; [done|].
  cbn. unfold write_all in IH. rewrite IH.
  - apply get_set_ne. apply Hks. left.
  - intros k' Hk'. apply Hks. by right.
Qed.

Lemma get_write_all_is_Some init ks i :
  is_Some (U8.get (write_all init ks) i) ↔ is_Some (U8.get init i).
Proof.
  assert (Hlen := length_write_all init ks).
  split; intros [v Hv%get_Some_range]; apply get_in_range;
    unfold U8.len in *; lia.
Qed.

(** When the iterations that write to one index agree on the value, the
    index holds that value after the loop. *)
Lemma get_write_all_agree init ks k :
  k ∈ ks →
  (∀ k', k' ∈ ks → idx k' = idx k → val k' = val k) →
  U8.get (write_all init ks) (idx k)
  = (fun _ => U8.ToUint8 (val k)) <$> U8.get init (idx k).
Proof.
  induction ks as [|k0 ks IH] using rev_ind; intros Hin Hagree.
  - by apply elem_of_nil in Hin.
  - unfold write_all in *. rewrite foldl_app. cbn.
    destruct (decide (idx k0 = idx k)) as [Heq|Hne].
    + rewrite <- Heq, get_set_eq.
      rewrite (Hagree k0); [|apply elem_of_app; right; apply list_elem_of_singleton; done|done].
      pose proof (get_write_all_is_Some init ks (idx k0)) as Hsome.
      unfold write_all in Hsome.
      destruct (U8.get (foldl _ init ks) (idx k0)) as [u|] eqn:E1,
               (U8.get init (idx k0)) as [u'|] eqn:E2; try done.
      * destruct Hsome as [[? ?] _]; [by eexists|done].
      * destruct Hsome as [_ [? ?]]; [by eexists|done].
    + rewrite get_set_ne by done. apply IH.
      * apply elem_of_app in Hin as [Hin|Hin]; [done|].
        apply list_elem_of_singleton in Hin. congruence.
      * intros k' Hk'. apply Hagree. apply elem_of_app. by left.
Qed.

End write_loops.

(** Two nested loops visit the pairs of the product of their ranges. *)
Lemma foldl_nested {A X Y : Type} (g : A → X → Y → A) (xs : list X)
    (ys : list Y) (init : A) :
  foldl (fun a y => foldl (fun a x => g a x y) a xs) init ys
  = foldl (fun a p => g a (fst p) (snd p)) init
      (ys ≫= fun y => (fun x => (x, y)) <$> xs).
Proof.
  revert init. induction ys as [|y ys IH]; intros init; [done|].
  cbn. rewrite foldl_app, <- IH. f_equal.
  clear IH. revert init. induction xs as [|x xs IHx]; intros a; [done|].
  cbn. apply IHx.
Qed.

Lemma elem_of_pairs (xs ys : list Z) (x y : Z) :
  (x, y) ∈ (ys ≫= fun y => (fun x => (x, y)) <$> xs) ↔ x ∈ xs ∧ y ∈ ys.
Proof.
  rewrite list_elem_of_bind. split.
  - intros (y' & Hin & Hy'). apply list_elem_of_fmap in Hin as (x' & Heq & Hx').
    by simplify_eq.
  - intros [Hx Hy]. exists y. split; [|done].
    apply list_elem_of_fmap. by exists x.
Qed.

Lemma Forall_write_all {K : Type} (idx val : K → Z) (P : Z → Prop)
    (init : list Z) (ks : list K) :
  Forall P init → (∀ k, k ∈ ks → P (U8.ToUint8 (val k))) →
  Forall P (write_all idx val init ks).
Proof.
  revert init. induction ks as [|k ks IH]; intros init Hinit Hval; [done|].
  cbn. apply IH.
  - apply Forall_set; [done|]. apply Hval. left.
  - intros k' Hk'. apply Hval. by right.
Qed.

(** Row-major addressing is injective on columns inside a row. *)
Lemma row_major_inj (w x y x' y' : Z) :
  0 ≤ x < w → 0 ≤ x' < w → y * w + x = y' * w + x' → x = x' ∧ y = y'.
Proof. intros Hx Hx' Heq. assert (y = y') by nia. subst. lia. Qed.

Lemma row_major_range (w h x y : Z) :
  0 ≤ x < w → 0 ≤ y < h → 0 ≤ y * w + x < w * h.
Proof. intros Hx Hy. nia. Qed.

Section grid_loop.
Variables (f : Z → Z → Z) (w cw ch : Z) (init : list Z).

Abbreviation grid_loop := (grid_loop f w cw ch init).

Lemma grid_loop_flat :
  grid_loop
  = write_all (fun p => snd p * w + fst p) (fun p => f (fst p) (snd p))
      init ((seqZ 0 ch) ≫= fun y => (fun x => (x, y)) <$> seqZ 0 cw).
Proof.
  unfold grid_loop, write_all.
  apply (foldl_nested (fun a x y => U8.set a (y * w + x) (f x y))).
Qed.

Lemma length_grid_loop : length grid_loop = length init.
Proof. rewrite grid_loop_flat. apply length_write_all. Qed.

Lemma Forall_grid_loop (P : Z → Prop) :
  Forall P init → (∀ x y, P (U8.ToUint8 (f x y))) → Forall P grid_loop.
Proof.
  intros Hinit Hf. rewrite grid_loop_flat.
  apply Forall_write_all; [done|]. intros [x y] _. apply Hf.
Qed.

Lemma get_grid_loop (x y : Z) :
  cw ≤ w → 0 ≤ x < w →
  U8.get grid_loop (y * w + x)
  = if (x <? cw) && (0 <=? y) && (y <? ch)
    then (fun _ => U8.ToUint8 (f x y)) <$> U8.get init (y * w + x)
    else U8.get init (y * w + x).
Proof.
  intros Hcw Hx. rewrite grid_loop_flat.
  destruct ((x <? cw) && (0 <=? y) && (y <? ch)) eqn:Hin.
  - apply andb_prop in Hin as [Hin Hy2%Z.ltb_lt].
    apply andb_prop in Hin as [Hx2%Z.ltb_lt Hy1%Z.leb_le].
    apply (get_write_all_agree (fun p => snd p * w + fst p)
             (fun p => f (fst p) (snd p)) init _ (x, y)).
    + apply elem_of_pairs. rewrite !elem_of_seqZ. lia.
    + intros [x' y'] [Hx'%elem_of_seqZ Hy'%elem_of_seqZ]%elem_of_pairs Heq.
      cbn in *. apply row_major_inj in Heq as [-> ->]; [done|lia|lia].
  - apply get_write_all_other.
    intros [x' y'] [Hx'%elem_of_seqZ Hy'%elem_of_seqZ]%elem_of_pairs Heq.
    cbn in Heq. apply row_major_inj in Heq as [-> ->]; [|lia|lia].
    apply andb_false_iff in Hin as [Hin|Hin%Z.ltb_ge]; [|lia].
    apply andb_false_iff in Hin as [Hin%Z.ltb_ge|Hin%Z.leb_gt]; lia.
Qed.

End grid_loop.

(** ** The neighbour count *)

Lemma sumZ_filter {A : Type} (P : A → bool) (f : A → Z) (l : list A) :
  sumZ (f <$> List.filter P l) = sumZ ((fun a => if P a then f a else 0) <$> l).
Proof.
  unfold sumZ. induction l as [|a l IH]; [done|].
  cbn [List.filter]. rewrite fmap_cons. cbn [foldr].
  destruct (P a); [rewrite fmap_cons; cbn [foldr]|]; rewrite IH; done.
Qed.

Section neighbours.
Variables (board : list Z) (width height : Z).
Hypothesis Hlen : U8.len board = width * height.

Lemma get_cell (x y : Z) :
  0 ≤ x < width → 0 ≤ y < height →
  U8.get board (y * width + x) = Some (cell board width x y).
Proof.
  intros Hx Hy. unfold cell.
  destruct (get_in_range board (y * width + x)) as [v ->]; [|done].
  rewrite Hlen. by apply row_major_range.
Qed.

(** The two [if]s applied to a neighbour coordinate compute it modulo
    the dimension. *)
Lemma wrap_is_mod (size n d : Z) :
  0 ≤ n < size → -1 ≤ d ≤ 1 →
  (if (if n + d <? 0 then size - 1 else n + d) >=? size then 0
   else if n + d <? 0 then size - 1 else n + d)
  = (n + d) mod size.
Proof.
  intros Hn Hd.
  destruct (Z.ltb_spec (n + d) 0) as [Hneg|Hpos].
  - rewrite Z.geb_leb, (proj2 (Z.leb_gt _ _)) by lia.
    apply (Z.mod_unique _ _ (-1)); lia.
  - destruct (Z.leb_spec size (n + d)) as [Hbig|Hsmall].
    + rewrite Z.geb_leb, (proj2 (Z.leb_le _ _)) by done.
      apply (Z.mod_unique _ _ 1); lia.
    + rewrite Z.geb_leb, (proj2 (Z.leb_gt _ _)) by done.
      symmetry. apply Z.mod_small. lia.
Qed.

Abbreviation contribution := (contribution board width height).

Lemma neighborStep_self wrap x y acc :
  neighborStep board width height wrap x y 0 acc 0 = acc.
Proof. done. Qed.

Lemma neighborStep_other wrap x y dx dy acc :
  0 ≤ x < width → 0 ≤ y < height → -1 ≤ dx ≤ 1 → -1 ≤ dy ≤ 1 →
  (dx ≠ 0 ∨ dy ≠ 0) →
  neighborStep board width height wrap x y dy (Some acc) dx
  = Some (acc + contribution wrap x y dx dy).
Proof.
  intros Hx Hy Hdx Hdy Hne. unfold neighborStep, contribution.
  assert ((dx =? 0) && (dy =? 0) = false) as ->.
  { apply andb_false_iff. rewrite !Z.eqb_neq. done. }
  cbv zeta. destruct wrap.
  - rewrite !wrap_is_mod by done.
    rewrite get_cell; [done| |]; apply Z.mod_pos_bound; lia.
  - unfold in_bounds. cbn [fst snd]. rewrite !Z.geb_leb.
    destruct (Z.ltb_spec (x + dx) 0), (Z.leb_spec width (x + dx)),
      (Z.ltb_spec (y + dy) 0), (Z.leb_spec height (y + dy));
      cbn; rewrite ?Z.add_0_r;
      repeat match goal with
      | |- context [?a <=? ?b] => destruct (Z.leb_spec a b); try lia
      | |- context [?a <? ?b] => destruct (Z.ltb_spec a b); try lia
      end; cbn; rewrite ?Z.add_0_r; try done.
    rewrite get_cell by lia. done.
Qed.

(** The count in the order the loops visit the neighbours. *)
Lemma countNeighbors_sum wrap x y :
  0 ≤ x < width → 0 ≤ y < height →
  countNeighbors board width height wrap x y
  = Some (contribution wrap x y (-1) (-1) + contribution wrap x y 0 (-1)
          + contribution wrap x y 1 (-1) + contribution wrap x y (-1) 0
          + contribution wrap x y 1 0 + contribution wrap x y (-1) 1
          + contribution wrap x y 0 1 + contribution wrap x y 1 1).
Proof.
  intros Hx Hy. unfold countNeighbors.
  change (seqZ (-1) 3) with [-1; 0; 1]. cbn [foldl].
  rewrite neighborStep_self.
  rewrite !neighborStep_other by (done || lia).
  reflexivity.
Qed.

(** The loops compute the count the specification describes. *)
Lemma countNeighbors_spec wrap x y :
  0 ≤ x < width → 0 ≤ y < height →
  countNeighbors board width height wrap x y
  = Some (spec_neighbors board width height wrap x y).
Proof.
  intros Hx Hy. rewrite countNeighbors_sum by done. f_equal.
  unfold spec_neighbors, contribution. destruct wrap.
  - cbn. lia.
  - rewrite sumZ_filter. cbn. lia.
Qed.

Lemma cell_range x y :
  Forall is_cell board → 0 ≤ cell board width x y ≤ 1.
Proof.
  intros Hcells. unfold cell.
  destruct (U8.get board (y * width + x)) as [v|] eqn:Hv; cbn; [|lia].
  apply get_elem_of in Hv.
  rewrite Forall_forall in Hcells. destruct (Hcells v Hv); lia.
Qed.

Lemma contribution_range wrap x y dx dy :
  Forall is_cell board → 0 ≤ contribution wrap x y dx dy ≤ 1.
Proof.
  intros Hcells. unfold contribution.
  destruct wrap; [by apply cell_range|].
  destruct (in_bounds _ _ _); [by apply cell_range|lia].
Qed.

End neighbours.

(** ** The rule engine *)

Lemma computeNext_grid board width height wrap :
  computeNext board width height wrap
  = grid_loop (nextCell board width height wrap) width width height
      (replicate (length board) 0).
Proof. reflexivity. Qed.

Lemma nextCell_is_cell board width height wrap x y :
  is_cell (nextCell board width height wrap x y).
Proof. unfold nextCell. destruct (truthy _); apply is_cell_bit. Qed.

Lemma length_computeNext board width height wrap :
  length (computeNext board width height wrap) = length board.
Proof.
  rewrite computeNext_grid, length_grid_loop. apply length_replicate.
Qed.

Lemma Forall_computeNext board width height wrap :
  Forall is_cell (computeNext board width height wrap).
Proof.
  rewrite computeNext_grid. apply Forall_grid_loop.
  - apply Forall_replicate. by left.
  - intros x y. rewrite ToUint8_cell; apply nextCell_is_cell.
Qed.

Lemma board_ok_computeNext board width height wrap :
  board_ok board width height →
  board_ok (computeNext board width height wrap) width height.
Proof.
  intros [Hlen _]. split; [|apply Forall_computeNext].
  unfold U8.len in *. by rewrite length_computeNext.
Qed.

Lemma get_computeNext board width height wrap x y :
  U8.len board = width * height → 0 ≤ x < width → 0 ≤ y < height →
  U8.get (computeNext board width height wrap) (y * width + x)
  = Some (nextCell board width height wrap x y).
Proof.
  intros Hlen Hx Hy. rewrite computeNext_grid.
  rewrite get_grid_loop by lia.
  rewrite (proj2 (Z.ltb_lt x width)), (proj2 (Z.leb_le 0 y)),
    (proj2 (Z.ltb_lt y height)) by lia.
  cbn [andb]. rewrite get_replicate.
  - cbn. by rewrite ToUint8_cell by apply nextCell_is_cell.
  - pose proof (row_major_range width height x y Hx Hy).
    unfold U8.len in Hlen. lia.
Qed.

Lemma nextCell_spec board width height wrap x y :
  board_ok board width height → 0 ≤ x < width → 0 ≤ y < height →
  nextCell board width height wrap x y
  = spec_B3S23 (cell board width x y)
      (spec_neighbors board width height wrap x y).
Proof.
  intros [Hlen Hcells] Hx Hy. unfold nextCell, spec_B3S23.
  rewrite countNeighbors_spec, (get_cell board width height) by done.
  pose proof (cell_range board width x y Hcells) as Hc.
  cbn [truthy js_eqb].
  destruct (Z.eqb_spec (cell board width x y) 0) as [->|Hne]; [done|].
  rewrite (proj2 (Z.eqb_eq _ 1)) by lia. done.
Qed.

Lemma spec_B3S23_cases (current n : Z) :
  is_cell current →
  is_cell (spec_B3S23 current n)
  ∧ (current = 1 → (spec_B3S23 current n = 1 ↔ n = 2 ∨ n = 3))
  ∧ (current = 0 → (spec_B3S23 current n = 1 ↔ n = 3))
  ∧ (n = 3 → spec_B3S23 current n = 1).
Proof.
  intros Hc. unfold spec_B3S23, is_cell.
  destruct Hc as [-> | ->]; cbn;
    destruct (Z.eqb_spec n 2), (Z.eqb_spec n 3); cbn; lia.
Qed.

(** C1.  On a board of 0/1 cells, in either boundary mode, [computeNext]
    applies Conway's B3/S23 rule to every cell: the new value of cell
    [(x, y)] is 0 or 1; a live cell is live in the next generation exactly
    when its live-neighbour count is 2 or 3, a dead cell exactly when the
    count is 3, and a cell with exactly 3 live neighbours is live next
    whatever its current state. *)
Theorem computeNext_B3S23 (board : list Z) (width height : Z) (wrap : bool)
    (x y : Z) :
  board_ok board width height → 0 ≤ x < width → 0 ≤ y < height →
  ∃ next,
    U8.get (computeNext board width height wrap) (y * width + x) = Some next
    ∧ is_cell next
    ∧ countNeighbors board width height wrap x y
      = Some (spec_neighbors board width height wrap x y)
    ∧ next = spec_B3S23 (cell board width x y)
               (spec_neighbors board width height wrap x y)
    ∧ (cell board width x y = 1 →
       (next = 1 ↔ spec_neighbors board width height wrap x y = 2
                   ∨ spec_neighbors board width height wrap x y = 3))
    ∧ (cell board width x y = 0 →
       (next = 1 ↔ spec_neighbors board width height wrap x y = 3))
    ∧ (spec_neighbors board width height wrap x y = 3 → next = 1).
Proof.
  intros Hok Hx Hy. pose proof Hok as [Hlen Hcells].
  exists (nextCell board width height wrap x y).
  rewrite get_computeNext, countNeighbors_spec by done.
  rewrite nextCell_spec by done.
  pose proof (cell_range board width x y Hcells) as Hc.
  destruct (spec_B3S23_cases (cell board width x y)
              (spec_neighbors board width height wrap x y))
    as (H1 & H2 & H3 & H4); [unfold is_cell; lia|].
  done.
Qed.

Lemma blinker_ok : board_ok blinker 5 5.
Proof.
  split; [reflexivity|].
  unfold blinker. repeat constructor; (by left) || (by right).
Qed.

Lemma computeNext_B3S23_witness :
  board_ok blinker 5 5 ∧ 0 ≤ 1 < 5 ∧ 0 ≤ 2 < 5
  ∧ ∃ next,
      U8.get (computeNext blinker 5 5 true) (2 * 5 + 1) = Some next
      ∧ is_cell next
      ∧ countNeighbors blinker 5 5 true 1 2
        = Some (spec_neighbors blinker 5 5 true 1 2)
      ∧ next = spec_B3S23 (cell blinker 5 1 2)
                 (spec_neighbors blinker 5 5 true 1 2)
      ∧ (cell blinker 5 1 2 = 1 →
         (next = 1 ↔ spec_neighbors blinker 5 5 true 1 2 = 2
                     ∨ spec_neighbors blinker 5 5 true 1 2 = 3))
      ∧ (cell blinker 5 1 2 = 0 →
         (next = 1 ↔ spec_neighbors blinker 5 5 true 1 2 = 3))
      ∧ (spec_neighbors blinker 5 5 true 1 2 = 3 → next = 1).
Proof.
  split; [apply blinker_ok|]. split; [lia|]. split; [lia|].
  apply (computeNext_B3S23 blinker 5 5 true 1 2); [apply blinker_ok|lia|lia].
Defined.

(** A glider dropped at [(10, 10)] on a bounded 20x20 board is the same
    glider at [(11, 11)] four generations later. *)
Example glider_travels :
  let start := placeOffsets (offsets glider) 10 10 20 20 (replicate 400 0) in
  let advance := fun board => computeNext board 20 20 false in
  advance (advance (advance (advance start)))
  = placeOffsets (offsets glider) 11 11 20 20 (replicate 400 0).
Proof. vm_compute. reflexivity. Qed.

(** The empty board is a fixed point in both boundary modes. *)
Example empty_board_stays_empty :
  computeNext (replicate 30 0) 6 5 true = replicate 30 0
  ∧ computeNext (replicate 30 0) 6 5 false = replicate 30 0.
Proof. split; vm_compute; reflexivity. Qed.

Example blinker_flips :
  computeNext blinker 5 5 false
  = [0;0;0;0;0;
     0;0;0;0;0;
     0;1;1;1;0;
     0;0;0;0;0;
     0;0;0;0;0].
Proof. vm_compute. reflexivity. Qed.

(** C2.  [computeNext] counts the live cells of the 8-cell Moore
    neighbourhood.  With [wrap] every neighbour coordinate is taken modulo
    the dimension: column [-1] is column [width - 1], column [width] is
    column 0, and the cell at [(width - 1, height - 1)] is counted for
    [(0, 0)].  Without [wrap] a neighbour outside the board is left out, so
    the corner [(0, 0)] counts at most 3 neighbours. *)
Theorem countNeighbors_addressing (board : list Z) (width height : Z)
    (x y : Z) :
  board_ok board width height → 0 ≤ x < width → 0 ≤ y < height →
  (∀ wrap,
     countNeighbors board width height wrap x y
     = Some (spec_neighbors board width height wrap x y)
     ∧ U8.get (computeNext board width height wrap) (y * width + x)
       = Some (spec_B3S23 (cell board width x y)
                 (spec_neighbors board width height wrap x y)))
  ∧ neighborStep board width height true 0 y 0 (Some 0) (-1)
    = Some (cell board width (width - 1) y)
  ∧ neighborStep board width height true (width - 1) y 0 (Some 0) 1
    = Some (cell board width 0 y)
  ∧ (∃ rest, 0 ≤ rest
       ∧ countNeighbors board width height true 0 0
         = Some (cell board width (width - 1) (height - 1) + rest))
  ∧ (∃ n, countNeighbors board width height false 0 0 = Some n ∧ 0 ≤ n ≤ 3).
Proof.
  intros Hok Hx Hy. pose proof Hok as [Hlen Hcells].
  assert (Hm1 : ∀ size, 0 < size → (0 + -1) mod size = size - 1).
  { intros size Hsize. symmetry. apply (Z.mod_unique _ _ (-1)); lia. }
  split; [|split; [|split; [|split]]].
  - intros wrap. split; [by apply countNeighbors_spec|].
    rewrite get_computeNext by done. f_equal. by apply nextCell_spec.
  - rewrite (neighborStep_other board width height Hlen) by lia.
    unfold contribution. rewrite Hm1 by lia.
    rewrite Z.add_0_r, (Z.mod_small y) by lia. done.
  - rewrite (neighborStep_other board width height Hlen) by lia.
    unfold contribution.
    replace (width - 1 + 1) with width by lia.
    rewrite Z.mod_same, Z.add_0_r, (Z.mod_small y) by lia. done.
  - rewrite (countNeighbors_sum board width height Hlen) by lia.
    pose proof (contribution_range board width height true 0 0) as Hr.
    pose proof (Hr 0 (-1) Hcells). pose proof (Hr 1 (-1) Hcells).
    pose proof (Hr (-1) 0 Hcells). pose proof (Hr 1 0 Hcells).
    pose proof (Hr (-1) 1 Hcells). pose proof (Hr 0 1 Hcells).
    pose proof (Hr 1 1 Hcells).
    exists (contribution board width height true 0 0 0 (-1)
            + contribution board width height true 0 0 1 (-1)
            + contribution board width height true 0 0 (-1) 0
            + contribution board width height true 0 0 1 0
            + contribution board width height true 0 0 (-1) 1
            + contribution board width height true 0 0 0 1
            + contribution board width height true 0 0 1 1).
    split; [lia|]. f_equal.
    assert (contribution board width height true 0 0 (-1) (-1)
            = cell board width (width - 1) (height - 1)) as ->.
    { unfold contribution. by rewrite !Hm1 by lia. }
    lia.
  - rewrite (countNeighbors_sum board width height Hlen) by lia.
    eexists. split; [reflexivity|].
    pose proof (contribution_range board width height false 0 0) as Hr.
    pose proof (Hr 1 0 Hcells). pose proof (Hr 0 1 Hcells).
    pose proof (Hr 1 1 Hcells).
    assert (∀ dy, contribution board width height false 0 0 (-1) dy = 0)
      as Hleft by done.
    assert (∀ dx, contribution board width height false 0 0 dx (-1) = 0)
      as Hup.
    { intros dx. unfold contribution, in_bounds. cbn [fst snd].
      by rewrite andb_false_r. }
    rewrite !Hleft, !Hup. lia.
Qed.

Lemma countNeighbors_addressing_witness :
  board_ok blinker 5 5 ∧ 0 ≤ 3 < 5 ∧ 0 ≤ 4 < 5
  ∧ (∀ wrap,
       countNeighbors blinker 5 5 wrap 3 4
       = Some (spec_neighbors blinker 5 5 wrap 3 4)
       ∧ U8.get (computeNext blinker 5 5 wrap) (4 * 5 + 3)
         = Some (spec_B3S23 (cell blinker 5 3 4)
                   (spec_neighbors blinker 5 5 wrap 3 4)))
  ∧ neighborStep blinker 5 5 true 0 4 0 (Some 0) (-1)
    = Some (cell blinker 5 (5 - 1) 4)
  ∧ neighborStep blinker 5 5 true (5 - 1) 4 0 (Some 0) 1
    = Some (cell blinker 5 0 4)
  ∧ (∃ rest, 0 ≤ rest
       ∧ countNeighbors blinker 5 5 true 0 0
         = Some (cell blinker 5 (5 - 1) (5 - 1) + rest))
  ∧ (∃ n, countNeighbors blinker 5 5 false 0 0 = Some n ∧ 0 ≤ n ≤ 3).
Proof.
  split; [apply blinker_ok|]. split; [lia|]. split; [lia|].
  apply (countNeighbors_addressing blinker 5 5 3 4);
    [apply blinker_ok|lia|lia].
Defined.

(** A live cell in the far corner is a neighbour of the origin on a torus,
    and of nothing near the origin on a bounded board. *)
Example far_corner_wraps :
  let board := <[24%nat := 1]> (replicate 25 0) in
  countNeighbors board 5 5 true 0 0 = Some 1
  ∧ countNeighbors board 5 5 false 0 0 = Some 0.
Proof. split; vm_compute; reflexivity. Qed.

(** ** Numbers that hold integers *)

Lemma Nmul_Int (a b : Z) : Nmul (Int a) (Int b) = Int (a * b).
Proof. reflexivity. Qed.

Lemma Nlt_Int (a b : Z) : Nlt (Int a) (Int b) = (a <? b).
Proof.
  unfold Nlt, Int, Qltb, Qle_bool. cbn. rewrite !Z.mul_1_r.
  symmetry. apply Z.ltb_antisym.
Qed.

Lemma Math_min_Int (a b : Z) : Math_min (Int a) (Int b) = Int (Z.min a b).
Proof.
  unfold Math_min, Int, Qle_bool. cbn. rewrite !Z.mul_1_r.
  destruct (Z.leb_spec a b); [rewrite Z.min_l|rewrite Z.min_r]; done || lia.
Qed.

Lemma Math_max_Int (a b : Z) : Math_max (Int a) (Int b) = Int (Z.max a b).
Proof.
  unfold Math_max, Int, Qle_bool. cbn. rewrite !Z.mul_1_r.
  destruct (Z.leb_spec a b); [rewrite Z.max_r|rewrite Z.max_l]; done || lia.
Qed.

Lemma int_value_Int (a : Z) : int_value (Int a) = Some a.
Proof.
  unfold int_value, Int. rewrite Qfloor_Z.
  by rewrite (proj2 (Qeq_bool_iff _ _) (Qeq_refl _)).
Qed.

Lemma new_Uint8Array_Int (n : Z) : new_Uint8Array (Int n) = U8.make n.
Proof.
  unfold new_Uint8Array, ToIndex, Int. cbn. rewrite Z.quot_1_r.
  unfold U8.make. destruct (n <? 0) eqn:Hn; cbn; [done|]. by rewrite Hn.
Qed.

Lemma make_Some (n : Z) :
  0 ≤ n → U8.make n = Some (replicate (Z.to_nat n) 0).
Proof. intros Hn. unfold U8.make. by rewrite (proj2 (Z.ltb_ge n 0)). Qed.

Lemma createEmptyBoard_Int (width height : Z) :
  0 ≤ width * height →
  createEmptyBoard (Int width) (Int height)
  = Some (replicate (Z.to_nat (width * height)) 0).
Proof.
  intros Hn. unfold createEmptyBoard.
  by rewrite Nmul_Int, new_Uint8Array_Int, make_Some.
Qed.

Lemma board_ok_empty (width height : Z) :
  0 ≤ width * height →
  board_ok (replicate (Z.to_nat (width * height)) 0) width height.
Proof.
  intros Hn. split.
  - unfold U8.len. rewrite length_replicate. lia.
  - apply Forall_replicate. by left.
Qed.

(** [clampSize] yields [NaN] or an integer between 10 and 150. *)
Lemma clampSize_Fin (q : Q) :
  clampSize (Fin q)
  = Int (Z.max MIN_SIZE (Z.min MAX_SIZE (Qfloor (q + (1 # 2))))).
Proof.
  unfold clampSize, Math_round. by rewrite Math_min_Int, Math_max_Int.
Qed.

Lemma clampSize_cases (v : number) :
  clampSize v = NaN
  ∨ ∃ k, MIN_SIZE ≤ k ≤ MAX_SIZE ∧ clampSize v = Int k.
Proof.
  destruct v as [| |q|].
  - by left.
  - right. exists MIN_SIZE. split; [done|]. reflexivity.
  - right. eexists. split; [|apply clampSize_Fin]. unfold MIN_SIZE, MAX_SIZE. lia.
  - right. exists MAX_SIZE. split; [done|]. reflexivity.
Qed.

(** Two arrays of one length that agree at every index are equal. *)
Lemma array_eq (a b : list Z) :
  length a = length b →
  (∀ i, 0 ≤ i < U8.len a → U8.get a i = U8.get b i) → a = b.
Proof.
  intros Hlen Hget. apply list_eq. intros i.
  destruct (decide (i < length a)%nat) as [Hlt|Hge].
  - specialize (Hget (Z.of_nat i)). unfold U8.get, U8.len in Hget.
    rewrite (proj2 (Z.ltb_ge (Z.of_nat i) 0)), Nat2Z.id in Hget by lia.
    apply Hget. lia.
  - rewrite !lookup_ge_None_2 by lia. done.
Qed.

(** ** Random fill *)

Lemma randomBoard_Int rand (width height : Z) (density : number) :
  0 ≤ width * height →
  randomBoard rand (Int width) (Int height) density
  = Some (write_all id
            (fun i => if Nlt (Fin (rand (Z.to_nat i))) density then 1 else 0)
            (replicate (Z.to_nat (width * height)) 0)
            (seqZ 0 (width * height))).
Proof.
  intros Hn. unfold randomBoard.
  rewrite Nmul_Int, new_Uint8Array_Int, make_Some by done. cbn.
  unfold U8.len. rewrite length_replicate, Z2Nat.id by done. done.
Qed.

Lemma get_write_range (val : Z → Z) (init : list Z) (n i : Z) :
  0 ≤ i < n →
  U8.get (write_all id val init (seqZ 0 n)) i
  = (fun _ => U8.ToUint8 (val i)) <$> U8.get init i.
Proof.
  intros Hi.
  apply (get_write_all_agree id val init (seqZ 0 n) i).
  - apply elem_of_seqZ. lia.
  - intros k' _ Hk'. unfold id in Hk'. by subst.
Qed.

(** C8.  [randomBoard] fills a board of [width * height] cells, cell [i]
    being 1 exactly when the [i]-th random sample is below [density]; with
    samples in [0, 1), density 0 gives the all-dead board and density 1 the
    all-live board. *)
Theorem randomBoard_density (rand : nat → Q) (width height : Z)
    (density : number) :
  0 ≤ width → 0 ≤ height →
  (∀ i, (0 <= rand i)%Q ∧ (rand i < 1)%Q) →
  ∃ next,
    randomBoard rand (Int width) (Int height) density = Some next
    ∧ board_ok next width height
    ∧ (∀ i, (i < length next)%nat →
         next !! i = Some (if Nlt (Fin (rand i)) density then 1 else 0))
    ∧ (density = Int 0 → next = replicate (Z.to_nat (width * height)) 0)
    ∧ (density = Int 1 → next = replicate (Z.to_nat (width * height)) 1).
Proof.
  intros Hw Hh Hrand. assert (0 ≤ width * height) as Hn by lia.
  rewrite randomBoard_Int by done. eexists. split; [reflexivity|].
  set (val := fun i : Z => if Nlt (Fin (rand (Z.to_nat i))) density then 1 else 0).
  set (next := write_all id val _ _).
  assert (Hlen : length next = Z.to_nat (width * height)).
  { unfold next. by rewrite length_write_all, length_replicate. }
  assert (Hget : ∀ i, 0 ≤ i < width * height →
                   U8.get next i = Some (val i)).
  { intros i Hi. unfold next. rewrite get_write_range by done.
    rewrite get_replicate by lia. cbn. f_equal.
    apply ToUint8_cell. unfold val. apply is_cell_bit. }
  assert (Hconst : ∀ b : bool, (∀ i, Nlt (Fin (rand i)) density = b) →
            next = replicate (Z.to_nat (width * height)) (if b then 1 else 0)).
  { intros b Hb. apply array_eq; [by rewrite length_replicate|].
    intros i Hi. unfold U8.len in Hi. rewrite Hget by lia.
    rewrite get_replicate by lia. unfold val. by rewrite Hb. }
  split; [|split; [|split]].
  - split; [unfold U8.len; lia|].
    unfold next. apply Forall_write_all.
    + apply Forall_replicate. by left.
    + intros k _. rewrite ToUint8_cell; apply is_cell_bit.
  - intros i Hi. specialize (Hget (Z.of_nat i)).
    unfold U8.get, val in Hget.
    rewrite (proj2 (Z.ltb_ge (Z.of_nat i) 0)), Nat2Z.id in Hget by lia.
    apply Hget. lia.
  - intros ->. apply (Hconst false). intros i.
    unfold Nlt, Int, Qltb. change (inject_Z 0) with 0%Q.
    by rewrite (proj2 (Qle_bool_iff _ _) (proj1 (Hrand i))).
  - intros ->. apply (Hconst true). intros i.
    unfold Nlt, Int, Qltb.
    change (inject_Z 1) with 1%Q.
    destruct (Qle_bool 1 (rand i)) eqn:Hle; [|done].
    apply Qle_bool_iff in Hle.
    destruct (Qlt_not_le _ _ (proj2 (Hrand i)) Hle).
Qed.

Lemma randomBoard_density_witness :
  0 ≤ 2 ∧ 0 ≤ 3
  ∧ (∀ i : nat, (0 <= (fun _ => 1 # 2) i)%Q ∧ ((fun _ => 1 # 2) i < 1)%Q)
  ∧ ∃ next,
      randomBoard (fun _ => 1 # 2) (Int 2) (Int 3) (Fin (3 # 4)) = Some next
      ∧ board_ok next 2 3
      ∧ (∀ i, (i < length next)%nat →
           next !! i
           = Some (if Nlt (Fin ((fun _ => 1 # 2) i)) (Fin (3 # 4))
                   then 1 else 0))
      ∧ (Fin (3 # 4) = Int 0 → next = replicate (Z.to_nat (2 * 3)) 0)
      ∧ (Fin (3 # 4) = Int 1 → next = replicate (Z.to_nat (2 * 3)) 1).
Proof.
  split; [lia|]. split; [lia|].
  assert (Hrand : ∀ i : nat,
            (0 <= (fun _ => 1 # 2) i)%Q ∧ ((fun _ => 1 # 2) i < 1)%Q).
  { intros i. split; [discriminate|reflexivity]. }
  split; [exact Hrand|].
  apply (randomBoard_density (fun _ => 1 # 2) 2 3 (Fin (3 # 4)));
    [lia|lia|exact Hrand].
Defined.

Example randomBoard_extremes :
  randomBoard (fun i => Z.of_nat i # 7) (Int 2) (Int 3) (Int 0)
  = Some [0; 0; 0; 0; 0; 0]
  ∧ randomBoard (fun i => Z.of_nat i # 7) (Int 2) (Int 3) (Int 1)
    = Some [1; 1; 1; 1; 1; 1]
  ∧ randomBoard (fun i => Z.of_nat i # 7) (Int 2) (Int 3) (Fin (3 # 7))
    = Some [1; 1; 1; 0; 0; 0].
Proof. repeat split; vm_compute; reflexivity. Qed.

(** ** Restoring the cells *)

Lemma for_while_bounded {S : Type} (guard : Z → bool) (body : S → Z → S)
    (bound : Z) :
  (∀ i, guard i = (i <? bound)) →
  ∀ (fuel : nat) (i : Z) (s : S),
    bound - i ≤ Z.of_nat fuel →
    for_while guard body fuel i s = foldl body s (seqZ i (bound - i)).
Proof.
  intros Hguard fuel. induction fuel as [|fuel IH]; intros i s Hfuel.
  - by rewrite seqZ_nil by lia.
  - cbn [for_while]. rewrite Hguard.
    destruct (Z.ltb_spec i bound) as [Hlt|Hge].
    + rewrite (seqZ_cons i) by lia. cbn [foldl].
      rewrite IH by lia. do 2 f_equal; lia.
    + by rewrite seqZ_nil by lia.
Qed.

Lemma deserializeCells_Int (raw : string) (width height : Z) :
  0 ≤ width * height →
  deserializeCells raw (Int width) (Int height)
  = Some (write_all id
            (fun i => if bool_decide (normalize raw !! Z.to_nat i
                                      = Some "1"%char) then 1 else 0)
            (replicate (Z.to_nat (width * height)) 0)
            (seqZ 0 (Z.min (width * height)
                       (Z.of_nat (length (normalize raw)))))).
Proof.
  intros Hn. unfold deserializeCells.
  rewrite Nmul_Int, new_Uint8Array_Int, make_Some by done. cbn [mbind option_bind].
  f_equal.
  rewrite (for_while_bounded _ _
             (Z.min (width * height) (Z.of_nat (length (normalize raw))))).
  - by rewrite Z.sub_0_r.
  - intros i. rewrite Nlt_Int.
    destruct (Z.ltb_spec i (width * height)),
      (Z.ltb_spec i (Z.of_nat (length (normalize raw)))),
      (Z.ltb_spec i (Z.min (width * height)
                       (Z.of_nat (length (normalize raw))))); cbn; lia.
  - lia.
Qed.

(** C10.  [deserializeCells] returns an array of exactly [width * height]
    cells, each 0 or 1: cell [i] is 1 exactly when the [i]-th character
    that survives the stripping of non-0/1 characters is ['1'], and 0 also
    where the stripped string has ended.  Surviving characters beyond the
    first [width * height] do not matter. *)
Theorem deserializeCells_total (raw : string) (width height : Z) :
  0 ≤ width → 0 ≤ height →
  ∃ arr,
    deserializeCells raw (Int width) (Int height) = Some arr
    ∧ U8.len arr = width * height
    ∧ Forall is_cell arr
    ∧ (∀ i, 0 ≤ i < width * height →
         U8.get arr i
         = Some (if bool_decide (normalize raw !! Z.to_nat i = Some "1"%char)
                 then 1 else 0))
    ∧ (∀ raw',
         take (Z.to_nat (width * height)) (normalize raw')
         = take (Z.to_nat (width * height)) (normalize raw) →
         deserializeCells raw' (Int width) (Int height) = Some arr).
Proof.
  intros Hw Hh. assert (0 ≤ width * height) as Hn by lia.
  assert (Hget : ∀ r i, 0 ≤ i < width * height →
    U8.get (write_all id
              (fun i => if bool_decide (normalize r !! Z.to_nat i
                                        = Some "1"%char) then 1 else 0)
              (replicate (Z.to_nat (width * height)) 0)
              (seqZ 0 (Z.min (width * height)
                         (Z.of_nat (length (normalize r)))))) i
    = Some (if bool_decide (normalize r !! Z.to_nat i = Some "1"%char)
            then 1 else 0)).
  { intros r i Hi.
    destruct (Z.lt_ge_cases i (Z.of_nat (length (normalize r)))) as [Hlt|Hge].
    - rewrite get_write_range by lia. rewrite get_replicate by lia.
      cbn. f_equal. apply ToUint8_cell, is_cell_bit.
    - rewrite get_write_all_other.
      + rewrite get_replicate by lia.
        rewrite (lookup_ge_None_2 (normalize r)) by lia.
        by rewrite bool_decide_eq_false_2.
      + intros k Hk%elem_of_seqZ. unfold id. lia. }
  rewrite deserializeCells_Int by done. eexists. split; [reflexivity|].
  split; [|split; [|split]].
  - unfold U8.len. rewrite length_write_all, length_replicate. lia.
  - apply Forall_write_all.
    + apply Forall_replicate. by left.
    + intros k _. rewrite ToUint8_cell; apply is_cell_bit.
  - intros i Hi. by apply Hget.
  - intros raw' Htake. rewrite deserializeCells_Int by done. f_equal.
    apply array_eq.
    + by rewrite !length_write_all.
    + intros i Hi. unfold U8.len in Hi.
      rewrite length_write_all, length_replicate in Hi.
      rewrite !Hget by lia. do 2 f_equal.
      assert (normalize raw' !! Z.to_nat i = normalize raw !! Z.to_nat i)
        as ->; [|done].
      rewrite <- (lookup_take_lt (normalize raw') (Z.to_nat (width * height)))
        by lia.
      rewrite <- (lookup_take_lt (normalize raw) (Z.to_nat (width * height)))
        by lia.
      by rewrite Htake.
Qed.

Lemma deserializeCells_total_witness :
  0 ≤ 2 ∧ 0 ≤ 2
  ∧ ∃ arr,
      deserializeCells "1x01 1101" (Int 2) (Int 2) = Some arr
      ∧ U8.len arr = 2 * 2
      ∧ Forall is_cell arr
      ∧ (∀ i, 0 ≤ i < 2 * 2 →
           U8.get arr i
           = Some (if bool_decide (normalize "1x01 1101" !! Z.to_nat i
                                   = Some "1"%char)
                   then 1 else 0))
      ∧ (∀ raw',
           take (Z.to_nat (2 * 2)) (normalize raw')
           = take (Z.to_nat (2 * 2)) (normalize "1x01 1101") →
           deserializeCells raw' (Int 2) (Int 2) = Some arr).
Proof.
  split; [lia|]. split; [lia|].
  apply (deserializeCells_total "1x01 1101" 2 2); lia.
Defined.

Example deserializeCells_truncates_and_pads :
  deserializeCells "1x01 1101" (Int 2) (Int 2) = Some [1; 0; 1; 1]
  ∧ deserializeCells "a1b" (Int 2) (Int 2) = Some [1; 0; 0; 0]
  ∧ deserializeCells "0101" NaN (Int 2) = Some []
  ∧ deserializeCells "0101" (Int (-1)) (Int 2) = None.
Proof. repeat split; vm_compute; reflexivity. Qed.

(** ** Resizing *)

Lemma resizeCells_grid (prev : list Z) (oldWidth oldHeight width height : Z) :
  0 ≤ width * height →
  resizeCells prev oldWidth oldHeight width height
  = Some (grid_loop (fun x y => default 0 (U8.get prev (y * oldWidth + x)))
            width (Z.min oldWidth width) (Z.min oldHeight height)
            (replicate (Z.to_nat (width * height)) 0)).
Proof.
  intros Hn. unfold resizeCells. by rewrite createEmptyBoard_Int.
Qed.

Lemma resizeCells_spec (prev : list Z) (oldWidth oldHeight width height : Z) :
  board_ok prev oldWidth oldHeight → 0 ≤ width → 0 ≤ height →
  ∃ next,
    resizeCells prev oldWidth oldHeight width height = Some next
    ∧ board_ok next width height
    ∧ ∀ x y, 0 ≤ x < width → 0 ≤ y < height →
        cell next width x y
        = if (x <? Z.min oldWidth width) && (y <? Z.min oldHeight height)
          then cell prev oldWidth x y else 0.
Proof.
  intros [Hlen Hcells] Hw Hh. assert (0 ≤ width * height) as Hn by lia.
  rewrite resizeCells_grid by done. eexists. split; [reflexivity|].
  assert (Hcopy : ∀ x y,
            is_cell (default 0 (U8.get prev (y * oldWidth + x)))).
  { intros x y. destruct (U8.get prev _) as [v|] eqn:Hv; [|by left].
    apply get_elem_of in Hv. rewrite Forall_forall in Hcells. by apply Hcells. }
  split; [split|].
  - unfold U8.len. rewrite length_grid_loop, length_replicate. lia.
  - apply Forall_grid_loop.
    + apply Forall_replicate. by left.
    + intros x y. by rewrite ToUint8_cell.
  - intros x y Hx Hy. unfold cell at 1.
    rewrite get_grid_loop by lia.
    rewrite (proj2 (Z.leb_le 0 y)) by lia. rewrite andb_true_r.
    pose proof (row_major_range width height x y Hx Hy).
    rewrite get_replicate by lia.
    destruct ((x <? Z.min oldWidth width) && (y <? Z.min oldHeight height));
      [|done].
    cbn. by rewrite ToUint8_cell.
Qed.

Lemma state_board_size (s : State) :
  state_ok s → 0 ≤ cfg_width (config s) * cfg_height (config s).
Proof. intros [[Hlen _] _]. rewrite <- Hlen. unfold U8.len. lia. Qed.

(** What [applySize] returns: the state itself when the clamped draft sizes
    are the current ones, the resized state otherwise. *)
Lemma applySize_cases (s : State) :
  state_ok s →
  ∃ width height,
    clampSize (Fin (fst (draftSize s))) = Int width
    ∧ clampSize (Fin (snd (draftSize s))) = Int height
    ∧ MIN_SIZE ≤ width ≤ MAX_SIZE ∧ MIN_SIZE ≤ height ≤ MAX_SIZE
    ∧ ((width = cfg_width (config s) ∧ height = cfg_height (config s)
        ∧ applySize s = Some s)
       ∨ (¬ (width = cfg_width (config s) ∧ height = cfg_height (config s))
          ∧ ∃ next,
              resizeCells (cells s) (cfg_width (config s))
                (cfg_height (config s)) width height = Some next
              ∧ applySize s
                = Some (setConfig (with_size width height)
                          (setGeneration (fun _ => 0)
                             (setCells (fun _ => next) s))))).
Proof.
  intros Hok. pose proof Hok as (Hboard & _ & _).
  set (width := Z.max MIN_SIZE (Z.min MAX_SIZE (Qfloor (fst (draftSize s) + (1 # 2))))).
  set (height := Z.max MIN_SIZE (Z.min MAX_SIZE (Qfloor (snd (draftSize s) + (1 # 2))))).
  assert (MIN_SIZE ≤ width ≤ MAX_SIZE) as Hw
    by (unfold width, MIN_SIZE, MAX_SIZE; lia).
  assert (MIN_SIZE ≤ height ≤ MAX_SIZE) as Hh
    by (unfold height, MIN_SIZE, MAX_SIZE; lia).
  exists width, height. rewrite !clampSize_Fin. fold width height.
  do 4 (split; [done|]).
  unfold applySize. rewrite !clampSize_Fin, !int_value_Int.
  fold width height. cbn [mbind option_bind].
  destruct ((width =? cfg_width (config s)) && (height =? cfg_height (config s)))
    eqn:Hsame.
  - apply andb_prop in Hsame as [Hew%Z.eqb_eq Heh%Z.eqb_eq]. by left.
  - right. split.
    + intros [Hew Heh]. rewrite Hew, Heh, !Z.eqb_refl in Hsame. done.
    + unfold MIN_SIZE, MAX_SIZE in *.
      destruct (resizeCells_spec (cells s) (cfg_width (config s))
                  (cfg_height (config s)) width height)
        as (next & Hnext & _); [done|lia|lia|].
      exists next. by rewrite Hnext.
Qed.

(** C4.  [applySize] clamps the draft sizes to 10..150 and makes them the
    board's dimensions; in the resized board every cell inside the overlap
    of the old and the new rectangle has its old value and every other cell
    is 0. *)
Theorem applySize_keeps_overlap (s : State) :
  state_ok s →
  ∃ s' width height,
    applySize s = Some s'
    ∧ clampSize (Fin (fst (draftSize s))) = Int width
    ∧ clampSize (Fin (snd (draftSize s))) = Int height
    ∧ MIN_SIZE ≤ width ≤ MAX_SIZE ∧ MIN_SIZE ≤ height ≤ MAX_SIZE
    ∧ cfg_width (config s') = width ∧ cfg_height (config s') = height
    ∧ board_ok (cells s') width height
    ∧ ∀ x y, 0 ≤ x < width → 0 ≤ y < height →
        cell (cells s') width x y
        = if (x <? Z.min (cfg_width (config s)) width)
             && (y <? Z.min (cfg_height (config s)) height)
          then cell (cells s) (cfg_width (config s)) x y
          else 0.
Proof.
  intros Hok. pose proof Hok as (Hboard & _ & _).
  destruct (applySize_cases s Hok)
    as (width & height & Hcw & Hch & Hw & Hh & Hcases).
  destruct Hcases as [(Hew & Heh & Hsame)|(_ & next & Hnext & Hresized)].
  - exists s, width, height. rewrite <- Hew, <- Heh in *.
    repeat (split; [done|]).
    intros x y Hx Hy. rewrite !Z.min_id.
    by rewrite (proj2 (Z.ltb_lt x width)), (proj2 (Z.ltb_lt y height)) by lia.
  - unfold MIN_SIZE, MAX_SIZE in *.
    destruct (resizeCells_spec (cells s) (cfg_width (config s))
                (cfg_height (config s)) width height)
      as (next' & Hnext' & Hokn & Hcells); [done|lia|lia|].
    rewrite Hnext in Hnext'. injection Hnext' as <-.
    eexists _, width, height. split; [exact Hresized|].
    cbn. repeat (split; [done|]). done.
Qed.

(** ** Placing a pattern *)

Section place.
Variables (cx cy width height : Z).

Abbreviation lands_on := (lands_on cx cy).

Lemma length_placeOffsets offs prev :
  length (placeOffsets offs cx cy width height prev) = length prev.
Proof.
  revert prev. induction offs as [|[dx dy] offs IH]; intros prev; [done|].
  cbn. unfold placeOffsets in IH. rewrite IH.
  destruct (_ && _); [apply length_set|done].
Qed.

Lemma Forall_placeOffsets offs prev :
  Forall is_cell prev →
  Forall is_cell (placeOffsets offs cx cy width height prev).
Proof.
  revert prev. induction offs as [|[dx dy] offs IH]; intros prev Hprev; [done|].
  cbn. apply IH. destruct (_ && _); [|done].
  apply Forall_set; [done|]. by right.
Qed.

Lemma get_placeOffsets offs prev x y :
  0 ≤ x < width → 0 ≤ y < height →
  0 ≤ y * width + x < U8.len prev →
  (Exists (lands_on x y) offs →
   U8.get (placeOffsets offs cx cy width height prev) (y * width + x) = Some 1)
  ∧ (¬ Exists (lands_on x y) offs →
     U8.get (placeOffsets offs cx cy width height prev) (y * width + x)
     = U8.get prev (y * width + x)).
Proof.
  intros Hx Hy. revert prev.
  induction offs as [|[dx dy] offs IH]; intros prev Hidx.
  - split; [by intros ?%Exists_nil|done].
  - change (placeOffsets ((dx, dy) :: offs) cx cy width height prev)
      with (placeOffsets offs cx cy width height
              (placeOffsets [(dx, dy)] cx cy width height prev)).
    set (prev' := placeOffsets [(dx, dy)] cx cy width height prev).
    assert (Hlen' : U8.len prev' = U8.len prev).
    { unfold prev', U8.len. by rewrite length_placeOffsets. }
    destruct (IH prev') as [IHyes IHno]; [by rewrite Hlen'|].
    destruct (decide (lands_on x y (dx, dy))) as [[Hlx Hly]|Hmiss].
    + cbn in Hlx, Hly.
      assert (Hhere : U8.get prev' (y * width + x) = Some 1).
      { unfold prev', placeOffsets. cbn [foldl]. rewrite <- Hlx, <- Hly.
        rewrite (proj2 (Z.geb_le x 0)), (proj2 (Z.ltb_lt x width)),
          (proj2 (Z.geb_le y 0)), (proj2 (Z.ltb_lt y height)) by lia.
        cbn [andb]. rewrite get_set_eq.
        destruct (get_in_range prev (y * width + x) Hidx) as [v ->]. done. }
      split; [|intros Hnot; destruct Hnot; by left].
      intros _.
      destruct (decide (Exists (lands_on x y) offs)) as [Hrest|Hrest].
      * by apply IHyes.
      * by rewrite IHno.
    + assert (Hhere : U8.get prev' (y * width + x)
                      = U8.get prev (y * width + x)).
      { unfold prev', placeOffsets. cbn [foldl].
        destruct (_ && _) eqn:Hin; [|done].
        apply get_set_ne. intros Heq.
        apply andb_prop in Hin as [Hin Hy2%Z.ltb_lt].
        apply andb_prop in Hin as [Hin Hy1%Z.geb_le].
        apply andb_prop in Hin as [Hx1%Z.geb_le Hx2%Z.ltb_lt].
        apply row_major_inj in Heq as [Hex Hey]; [|lia|lia].
        apply Hmiss. split; cbn; lia. }
      split.
      * intros [Hnow|Hrest]%Exists_cons; [done|]. by apply IHyes.
      * intros Hnot. rewrite IHno; [done|].
        intros Hrest. apply Hnot. by right.
Qed.

End place.

Lemma sample_state_ok : state_ok sample_state.
Proof.
  split; [split|split].
  - reflexivity.
  - change (Forall is_cell sample_board). unfold sample_board.
    apply Forall_insert; [|by right].
    apply Forall_replicate. by left.
  - by right.
  - cbn. lia.
Qed.

Lemma applySize_keeps_overlap_witness :
  state_ok sample_state
  ∧ ∃ s' width height,
      applySize sample_state = Some s'
      ∧ clampSize (Fin (fst (draftSize sample_state))) = Int width
      ∧ clampSize (Fin (snd (draftSize sample_state))) = Int height
      ∧ MIN_SIZE ≤ width ≤ MAX_SIZE ∧ MIN_SIZE ≤ height ≤ MAX_SIZE
      ∧ cfg_width (config s') = width ∧ cfg_height (config s') = height
      ∧ board_ok (cells s') width height
      ∧ ∀ x y, 0 ≤ x < width → 0 ≤ y < height →
          cell (cells s') width x y
          = if (x <? Z.min (cfg_width (config sample_state)) width)
               && (y <? Z.min (cfg_height (config sample_state)) height)
            then cell (cells sample_state) (cfg_width (config sample_state)) x y
            else 0.
Proof.
  split; [apply sample_state_ok|].
  apply (applySize_keeps_overlap sample_state), sample_state_ok.
Defined.

(** Shrinking to 5x5 and growing to 20x20 both keep [(1, 1)] as the only
    live cell. *)
Example resize_sample_board :
  resizeCells sample_board 10 10 5 5 = Some (<[6%nat := 1]> (replicate 25 0))
  ∧ resizeCells sample_board 10 10 20 20
    = Some (<[21%nat := 1]> (replicate 400 0)).
Proof. split; vm_compute; reflexivity. Qed.

(** ** The catalog *)

Example glider_in_catalog :
  List.find (fun p => String.eqb (pat_id p) "glider") PATTERNS = Some glider.
Proof. vm_compute. reflexivity. Qed.

Example place_three_in_a_row :
  placeOffsets [(0, 0); (1, 0); (2, 0)] 5 5 20 20 (replicate 400 0)
  = <[105%nat := 1]> (<[106%nat := 1]> (<[107%nat := 1]> (replicate 400 0))).
Proof. vm_compute. reflexivity. Qed.

(** What [applyPattern] returns. *)
Lemma applyPattern_cases (patternId : string) (s : State) :
  let width := cfg_width (config s) in
  let height := cfg_height (config s) in
  match List.find (fun p => String.eqb (pat_id p) patternId) PATTERNS with
  | None => applyPattern patternId s = s
  | Some pattern =>
      (minWidth pattern ≤ width ∧ minHeight pattern ≤ height
       ∧ applyPattern patternId s
         = setToast (Some (PlacedAtCenter pattern))
             (setGeneration (fun _ => 0)
                (setCells (placeOffsets (offsets pattern) (width / 2)
                             (height / 2) width height) s)))
      ∨ ((width < minWidth pattern ∨ height < minHeight pattern)
         ∧ applyPattern patternId s
           = setToast (Some (BoardTooSmall pattern)) s)
  end.
Proof.
  intros width height. unfold applyPattern.
  destruct (List.find _ PATTERNS) as [pattern|]; [|done].
  fold width height.
  destruct (Z.ltb_spec width (minWidth pattern)); cbn [orb].
  - right. split; [lia|done].
  - destruct (Z.ltb_spec height (minHeight pattern)).
    + right. split; [lia|done].
    + left. split; [lia|split; [lia|done]].
Qed.

Lemma board_ok_placeOffsets offs cx cy width height prev :
  board_ok prev width height →
  board_ok (placeOffsets offs cx cy width height prev) width height.
Proof.
  intros [Hlen Hcells]. split.
  - unfold U8.len in *. by rewrite length_placeOffsets.
  - by apply Forall_placeOffsets.
Qed.

(** C5.  When the board is at least as large as the pattern's minimum
    size, [applyPattern] sets to 1 exactly the in-bounds cells
    [(floor(width/2) + dx, floor(height/2) + dy)] of the pattern's offsets
    and leaves every other cell as it was (offsets that land outside the
    board are dropped); when the board is smaller, the placement is
    skipped and the board is unchanged. *)
Theorem applyPattern_places (patternId : string) (pattern : Pattern)
    (s : State) :
  state_ok s →
  List.find (fun p => String.eqb (pat_id p) patternId) PATTERNS
  = Some pattern →
  let width := cfg_width (config s) in
  let height := cfg_height (config s) in
  let s' := applyPattern patternId s in
  config s' = config s
  ∧ (minWidth pattern ≤ width ∧ minHeight pattern ≤ height →
     board_ok (cells s') width height
     ∧ ∀ x y, 0 ≤ x < width → 0 ≤ y < height →
         (Exists (lands_on (width / 2) (height / 2) x y) (offsets pattern) →
          cell (cells s') width x y = 1)
         ∧ (¬ Exists (lands_on (width / 2) (height / 2) x y)
                (offsets pattern) →
            cell (cells s') width x y = cell (cells s) width x y))
  ∧ (width < minWidth pattern ∨ height < minHeight pattern →
     cells s' = cells s ∧ generation s' = generation s).
Proof.
  intros Hok Hfind width height s'.
  pose proof Hok as (Hboard & _ & _). pose proof Hboard as [Hlen _].
  pose proof (applyPattern_cases patternId s) as Hcases.
  cbv zeta in Hcases. rewrite Hfind in Hcases. fold width height s' in Hcases.
  destruct Hcases as [(Hw & Hh & ->)|(Hsmall & ->)];
    (split; [done|]); (split; [|intros ?; try lia; done]).
  - intros _. cbn [cells setToast setGeneration setCells].
    split; [by apply board_ok_placeOffsets|].
    intros x y Hx Hy. unfold cell.
    destruct (get_placeOffsets (width / 2) (height / 2) width height
                (offsets pattern) (cells s) x y) as [Hyes Hno]; [done|done| |].
    + rewrite Hlen. by apply row_major_range.
    + split; intros Hex; [by rewrite Hyes|by rewrite Hno].
  - intros [? ?]. lia.
Qed.

Lemma applyPattern_places_witness :
  state_ok sample_state
  ∧ List.find (fun p => String.eqb (pat_id p) "glider") PATTERNS = Some glider
  ∧ (let width := cfg_width (config sample_state) in
     let height := cfg_height (config sample_state) in
     let s' := applyPattern "glider" sample_state in
     config s' = config sample_state
     ∧ (minWidth glider ≤ width ∧ minHeight glider ≤ height →
        board_ok (cells s') width height
        ∧ ∀ x y, 0 ≤ x < width → 0 ≤ y < height →
            (Exists (lands_on (width / 2) (height / 2) x y) (offsets glider) →
             cell (cells s') width x y = 1)
            ∧ (¬ Exists (lands_on (width / 2) (height / 2) x y)
                   (offsets glider) →
               cell (cells s') width x y = cell (cells sample_state) width x y))
     ∧ (width < minWidth glider ∨ height < minHeight glider →
        cells s' = cells sample_state
        ∧ generation s' = generation sample_state)).
Proof.
  split; [apply sample_state_ok|]. split; [apply glider_in_catalog|].
  apply (applyPattern_places "glider" glider sample_state);
    [apply sample_state_ok|apply glider_in_catalog].
Defined.

(** ** The component keeps its invariant *)

Lemma randomBoard_ok rand (width height : Z) (density : number) :
  0 ≤ width * height →
  ∃ next, randomBoard rand (Int width) (Int height) density = Some next
          ∧ board_ok next width height.
Proof.
  intros Hn. rewrite randomBoard_Int by done. eexists. split; [reflexivity|].
  split.
  - unfold U8.len. rewrite length_write_all, length_replicate. lia.
  - apply Forall_write_all.
    + apply Forall_replicate. by left.
    + intros k _. rewrite ToUint8_cell; apply is_cell_bit.
Qed.

Lemma deserializeCells_ok (raw : string) (width height : Z) :
  0 ≤ width * height →
  ∃ arr, deserializeCells raw (Int width) (Int height) = Some arr
         ∧ board_ok arr width height.
Proof.
  intros Hn. rewrite deserializeCells_Int by done.
  eexists. split; [reflexivity|]. split.
  - unfold U8.len. rewrite length_write_all, length_replicate. lia.
  - apply Forall_write_all.
    + apply Forall_replicate. by left.
    + intros k _. rewrite ToUint8_cell; apply is_cell_bit.
Qed.

Lemma board_ok_paintCell prev width height x y forceValue :
  board_ok prev width height →
  (∀ v, forceValue = Some v → is_cell v) →
  board_ok (paintCell prev width x y forceValue) width height.
Proof.
  intros [Hlen Hcells] Hforce. unfold paintCell.
  destruct (bool_decide _); [done|]. split.
  - unfold U8.len in *. by rewrite length_set.
  - apply Forall_set; [done|].
    destruct forceValue as [v|].
    + assert (is_cell v) as Hv by by apply Hforce.
      by rewrite ToUint8_cell.
    + destruct (truthy _); [by left|by right].
Qed.

Lemma toggleCellAt_ok x y forceValue s :
  state_ok s → (∀ v, forceValue = Some v → is_cell v) →
  state_ok (toggleCellAt x y forceValue s).
Proof.
  intros (Hboard & Hpaint & Hgen) Hforce. unfold toggleCellAt.
  destruct (_ || _); [done|].
  split; [|done]. cbn. by apply board_ok_paintCell.
Qed.

Lemma toggleCellAt_frame x y forceValue s :
  generation (toggleCellAt x y forceValue s) = generation s
  ∧ lastFrame (toggleCellAt x y forceValue s) = lastFrame s
  ∧ config (toggleCellAt x y forceValue s) = config s
  ∧ paintValue (toggleCellAt x y forceValue s) = paintValue s.
Proof. unfold toggleCellAt. by destruct (_ || _). Qed.

(** Every handler returns, and returns a state that satisfies the
    invariant. *)
Lemma handle_ok (e : event) (s : State) :
  state_ok s → ∃ s', handle e s = Some s' ∧ state_ok s'.
Proof.
  intros Hok. pose proof Hok as (Hboard & Hpaint & Hgen).
  pose proof (state_board_size s Hok) as Hsize.
  destruct e; cbn [handle]; try (eexists; split; [reflexivity|done]).
  - (* Frame *)
    eexists. split; [reflexivity|].
    destruct (running s); [|done]. unfold tick.
    destruct (frame_due now s); [|done].
    split; [|split]; cbn; [by apply board_ok_computeNext|done|lia].
  - (* Step *)
    eexists. split; [reflexivity|].
    split; [|split]; cbn; [by apply board_ok_computeNext|done|lia].
  - (* Random *)
    unfold randomizeBoard.
    destruct (randomBoard_ok rand (cfg_width (config s))
                (cfg_height (config s)) (Fin (density s)) Hsize)
      as (next & -> & Hnext).
    eexists. split; [reflexivity|]. by split; [|split]; cbn.
  - (* Clear *)
    unfold clearBoard. rewrite createEmptyBoard_Int by done.
    eexists. split; [reflexivity|].
    split; [|split]; cbn; [by apply board_ok_empty|done|done].
  - (* ResizeGrid *)
    destruct (applySize_cases s Hok)
      as (width & height & _ & _ & Hw & Hh & Hcases).
    destruct Hcases as [(_ & _ & ->)|(_ & next & Hnext & ->)].
    + by eexists.
    + eexists. split; [reflexivity|].
      unfold MIN_SIZE, MAX_SIZE in *.
      destruct (resizeCells_spec (cells s) (cfg_width (config s))
                  (cfg_height (config s)) width height)
        as (next' & Hnext' & Hokn & _); [done|lia|lia|].
      rewrite Hnext in Hnext'. injection Hnext' as <-.
      by split; [|split]; cbn.
  - (* PatternButton *)
    eexists. split; [reflexivity|].
    pose proof (applyPattern_cases patternId s) as Hcases. cbv zeta in Hcases.
    destruct (List.find _ PATTERNS) as [pattern|]; [|by rewrite Hcases].
    destruct Hcases as [(_ & _ & ->)|(_ & ->)]; [|done].
    split; [|split]; cbn; [by apply board_ok_placeOffsets|done|done].
  - (* PointerDown *)
    eexists. split; [reflexivity|]. unfold handlePointerDown.
    set (initialValue := if truthy _ then 0 else 1).
    assert (is_cell initialValue) as Hinit.
    { unfold initialValue. destruct (truthy _); [by left|by right]. }
    destruct (toggleCellAt_ok x y (Some initialValue)
                (setPaintValue initialValue s)) as (Hb & Hp & Hg).
    + by split; [|split]; cbn.
    + by intros v [= <-].
    + by split; [|split]; cbn.
  - (* PointerMove *)
    eexists. split; [reflexivity|]. unfold handlePointerMove.
    destruct (negb (isPainting s)); [done|].
    apply toggleCellAt_ok; [done|]. by intros v [= <-].
Qed.

(** Events other than an advancing frame leave [lastFrameRef] alone. *)
Lemma handle_lastFrame (e : event) (s s' : State) :
  handle e s = Some s' → advances e s = false → lastFrame s' = lastFrame s.
Proof.
  destruct e; cbn [handle advances]; intros Hs' Hquiet;
    try (injection Hs' as <-; done).
  - (* Frame *)
    injection Hs' as <-. unfold tick.
    destruct (running s); [|done]. cbn [andb] in Hquiet. by rewrite Hquiet.
  - (* Random *)
    unfold randomizeBoard in Hs'.
    destruct (randomBoard _ _ _ _) as [next|]; [|by cbn [mbind option_bind] in Hs'].
    cbn [mbind option_bind] in Hs'. by injection Hs' as <-.
  - (* Clear *)
    unfold clearBoard in Hs'.
    destruct (createEmptyBoard _ _) as [next|]; [|by cbn [mbind option_bind] in Hs'].
    cbn [mbind option_bind] in Hs'. by injection Hs' as <-.
  - (* ResizeGrid *)
    unfold applySize in Hs'.
    destruct (int_value (clampSize (Fin (fst (draftSize s))))) as [width|];
      cbn [mbind option_bind] in Hs'; [|done].
    destruct (int_value (clampSize (Fin (snd (draftSize s))))) as [height|];
      cbn [mbind option_bind] in Hs'; [|done].
    destruct (_ && _); [by injection Hs' as <-|].
    destruct (resizeCells _ _ _ _ _) as [next|]; [|by cbn [mbind option_bind] in Hs'].
    cbn [mbind option_bind] in Hs'. by injection Hs' as <-.
  - (* PatternButton *)
    injection Hs' as <-. unfold applyPattern.
    destruct (List.find _ PATTERNS); [|done]. by destruct (_ || _).
  - (* PointerDown *)
    injection Hs' as <-. unfold handlePointerDown. cbn.
    by destruct (toggleCellAt_frame x y
                   (Some (if truthy (U8.get (cells s)
                                      (y * cfg_width (config s) + x))
                          then 0 else 1))
                   (setPaintValue
                      (if truthy (U8.get (cells s)
                                    (y * cfg_width (config s) + x))
                       then 0 else 1) s)) as (_ & -> & _).
  - (* PointerMove *)
    injection Hs' as <-. unfold handlePointerMove.
    destruct (negb _); [done|].
    by destruct (toggleCellAt_frame x y (Some (paintValue s)) s)
      as (_ & -> & _).
Qed.

Lemma run_quiet_lastFrame (es : list event) (s s' : State) :
  run es s = Some s' → quiet es s → lastFrame s' = lastFrame s.
Proof.
  revert s. induction es as [|e es IH]; intros s Hrun Hquiet.
  - cbn in Hrun. by injection Hrun as <-.
  - cbn in Hrun. destruct Hquiet as [Hno Hrest].
    destruct (handle e s) as [s1|] eqn:Hs1; [|done]. cbn in Hrun.
    rewrite (IH s1 Hrun (Hrest s1 eq_refl)).
    by apply (handle_lastFrame e).
Qed.

(** ** The generation counter *)

(** C7.  The generation counter never becomes negative.  A manual step and
    an automatic advance (a frame of the running loop at which one is due)
    add exactly one to it and replace the board by its next generation;
    clearing, randomizing and placing a pattern that fits set it to zero,
    and so does a resize, which happens whenever the clamped draft sizes
    differ from the board's and then makes them the board's sizes; nothing
    else changes it. *)
Theorem generation_counter (e : event) (s : State) :
  state_ok s →
  ∃ s',
    handle e s = Some s'
    ∧ 0 ≤ generation s'
    ∧ match e with
      | Step =>
          generation s' = generation s + 1
          ∧ cells s' = computeNext (cells s) (cfg_width (config s))
                         (cfg_height (config s)) (cfg_wrap (config s))
      | Frame now =>
          if advances (Frame now) s
          then generation s' = generation s + 1
               ∧ cells s' = computeNext (cells s) (cfg_width (config s))
                              (cfg_height (config s)) (cfg_wrap (config s))
          else s' = s
      | Clear | Random _ => generation s' = 0
      | PatternButton patternId =>
          match List.find (fun p => String.eqb (pat_id p) patternId) PATTERNS with
          | Some pattern =>
              if (cfg_width (config s) <? minWidth pattern)
                 || (cfg_height (config s) <? minHeight pattern)
              then generation s' = generation s ∧ cells s' = cells s
              else generation s' = 0
          | None => s' = s
          end
      | ResizeGrid =>
          ∃ width height,
            clampSize (Fin (fst (draftSize s))) = Int width
            ∧ clampSize (Fin (snd (draftSize s))) = Int height
            ∧ if (width =? cfg_width (config s))
                 && (height =? cfg_height (config s))
              then s' = s
              else generation s' = 0
                   ∧ cfg_width (config s') = width
                   ∧ cfg_height (config s') = height
      | _ => generation s' = generation s
      end.
Proof.
  intros Hok. destruct (handle_ok e s Hok) as (s' & Hs' & (_ & _ & Hgen)).
  exists s'. split; [done|]. split; [done|].
  pose proof (state_board_size s Hok) as Hsize.
  destruct e; cbn [handle] in Hs'; try (injection Hs' as <-; done).
  - (* Frame *)
    injection Hs' as <-. cbn [advances]. unfold tick.
    destruct (running s); [|done]. cbn [andb].
    by destruct (frame_due now s).
  - (* Random *)
    unfold randomizeBoard in Hs'.
    destruct (randomBoard _ _ _ _) as [next|];
      cbn [mbind option_bind] in Hs'; [|done].
    by injection Hs' as <-.
  - (* Clear *)
    unfold clearBoard in Hs'.
    destruct (createEmptyBoard _ _) as [next|];
      cbn [mbind option_bind] in Hs'; [|done].
    by injection Hs' as <-.
  - (* ResizeGrid *)
    destruct (applySize_cases s Hok)
      as (width & height & Hcw & Hch & _ & _ & Hcases).
    exists width, height. split; [done|]. split; [done|].
    destruct Hcases as [(Hew & Heh & Heq)|(Hne & next & _ & Heq)];
      rewrite Heq in Hs'; injection Hs' as <-.
    + by rewrite Hew, Heh, !Z.eqb_refl.
    + destruct (Z.eqb_spec width (cfg_width (config s)));
        destruct (Z.eqb_spec height (cfg_height (config s)));
        cbn; tauto.
  - (* PatternButton *)
    injection Hs' as <-. unfold applyPattern.
    destruct (List.find _ PATTERNS) as [pattern|]; [|done].
    by destruct (_ || _).
  - (* PointerDown *)
    injection Hs' as <-. unfold handlePointerDown. cbn.
    by destruct (toggleCellAt_frame x y
                   (Some (if truthy (U8.get (cells s)
                                      (y * cfg_width (config s) + x))
                          then 0 else 1))
                   (setPaintValue
                      (if truthy (U8.get (cells s)
                                    (y * cfg_width (config s) + x))
                       then 0 else 1) s)) as (-> & _).
  - (* PointerMove *)
    injection Hs' as <-. unfold handlePointerMove.
    destruct (negb _); [done|].
    by destruct (toggleCellAt_frame x y (Some (paintValue s)) s) as (-> & _).
Qed.

Lemma generation_counter_witness :
  state_ok sample_state
  ∧ ∃ s',
      handle ResizeGrid sample_state = Some s'
      ∧ generation sample_state = 3
      ∧ generation s' = 0
      ∧ cfg_width (config s') = 20 ∧ cfg_height (config s') = 10.
Proof.
  split; [apply sample_state_ok|].
  destruct (generation_counter ResizeGrid sample_state sample_state_ok)
    as (s' & Hs' & _ & width & height & Hw & Hh & Hresize).
  exists s'. split; [exact Hs'|]. split; [reflexivity|].
  assert (width = 20) as -> by (vm_compute in Hw; by injection Hw).
  assert (height = 10) as -> by (vm_compute in Hh; by injection Hh).
  exact Hresize.
Defined.

(** ** The pace of the simulation loop *)

(** *** Rounding to a double stays within half a unit in the last place *)

Lemma rne_error (q : Q) :
  (inject_Z (rne q) - q <= 1 # 2)%Q ∧ (q - inject_Z (rne q) <= 1 # 2)%Q.
Proof.
  unfold rne. pose proof (Qfloor_le q) as Hlo. pose proof (Qlt_floor q) as Hhi.
  rewrite inject_Z_plus in Hhi. change (inject_Z 1) with 1%Q in Hhi.
  destruct (Qcompare_spec (q - inject_Z (Qfloor q)) (1 # 2)) as [Heq|Hlt|Hgt].
  - destruct (Z.even (Qfloor q)).
    + split; lra.
    + rewrite inject_Z_plus. change (inject_Z 1) with 1%Q. split; lra.
  - split; lra.
  - rewrite inject_Z_plus. change (inject_Z 1) with 1%Q. split; lra.
Qed.

Lemma rne_nonneg (q : Q) : (0 <= q)%Q → 0 ≤ rne q.
Proof.
  intros Hq. apply Qfloor_resp_le in Hq. change (Qfloor 0) with 0 in Hq.
  unfold rne. destruct (_ ?= _)%Q; [destruct (Z.even _)| |]; lia.
Qed.

Lemma pow2_pos (e : Z) : (0 < 2 ^ e)%Q.
Proof. by apply Qpower_0_lt. Qed.

Lemma pow2_split (a b : Z) : (2 ^ (a + b) == 2 ^ a * 2 ^ b)%Q.
Proof. by apply Qpower_plus. Qed.

Lemma pow2_log2 (n : Z) :
  0 < n →
  (2 ^ Z.log2 n <= inject_Z n)%Q ∧ (inject_Z n < 2 * 2 ^ Z.log2 n)%Q.
Proof.
  intros Hn. destruct (Z.log2_spec n Hn) as [Hlo Hhi].
  pose proof (Z.log2_nonneg n) as Hnn.
  rewrite <- (Zpower_Qpower 2) by done. split.
  - by rewrite <- Zle_Qle.
  - change 2%Q with (inject_Z 2) at 1. rewrite <- inject_Z_mult, <- Zlt_Qlt.
    rewrite Z.pow_succ_r in Hhi by done. done.
Qed.

Lemma binade_lower (q : Q) : (0 < q)%Q → (2 ^ (binade q + 52) <= q)%Q.
Proof.
  intros Hq. unfold binade.
  set (k := Z.log2 (Qnum q) - Z.log2 (Z.pos (Qden q))).
  destruct (Qle_bool (2 ^ k) q) eqn:Hle.
  - apply Qle_bool_iff in Hle. by replace (k - 52 + 52) with k by lia.
  - replace (k - 53 + 52)
      with (Z.log2 (Qnum q) + - (Z.log2 (Z.pos (Qden q)) + 1))
      by (unfold k; lia).
    rewrite pow2_split, Qpower_opp, pow2_split.
    assert (0 < Qnum q) as Hn.
    { destruct q as [n d]. unfold Qlt in Hq. cbn in *. lia. }
    destruct (pow2_log2 (Qnum q) Hn) as [Hnlo _].
    destruct (pow2_log2 (Z.pos (Qden q)) eq_refl) as [_ Hdhi].
    pose proof (pow2_pos (Z.log2 (Z.pos (Qden q)))) as Hpd.
    change (2 ^ 1)%Q with 2%Q.
    set (A := (2 ^ Z.log2 (Qnum q))%Q) in *.
    set (B := (2 ^ Z.log2 (Z.pos (Qden q)))%Q) in *.
    assert (q == inject_Z (Qnum q) / inject_Z (Z.pos (Qden q)))%Q as Hqe.
    { destruct q as [n d]. cbn [Qnum Qden]. apply Qmake_Qdiv. }
    rewrite Hqe.
    set (N := inject_Z (Qnum q)) in *.
    set (D := inject_Z (Z.pos (Qden q))) in *.
    assert (0 < D)%Q as HD by (unfold D; by rewrite <- (Zlt_Qlt 0)).
    assert (0 < A)%Q as HA by apply pow2_pos.
    apply Qle_shift_div_l; [done|].
    apply Qle_trans with (A * / (B * 2) * (B * 2))%Q.
    + apply Qmult_le_compat_nonneg.
      * split; [|apply Qle_refl]. apply Qmult_le_0_compat; [lra|].
        apply Qinv_le_0_compat. lra.
      * split; lra.
    + assert (A * / (B * 2) * (B * 2) == A)%Q as -> by (field; lra). done.
Qed.

Lemma binade_upper (q : Q) : (0 < q)%Q → (q < 2 ^ (binade q + 53))%Q.
Proof.
  intros Hq. unfold binade.
  set (k := Z.log2 (Qnum q) - Z.log2 (Z.pos (Qden q))).
  destruct (Qle_bool (2 ^ k) q) eqn:Hle.
  - replace (k - 52 + 53)
      with (Z.log2 (Qnum q) + 1 + - Z.log2 (Z.pos (Qden q)))
      by (unfold k; lia).
    rewrite pow2_split, Qpower_opp, pow2_split.
    assert (0 < Qnum q) as Hn.
    { destruct q as [n d]. unfold Qlt in Hq. cbn in *. lia. }
    destruct (pow2_log2 (Qnum q) Hn) as [_ Hnhi].
    destruct (pow2_log2 (Z.pos (Qden q)) eq_refl) as [Hdlo _].
    pose proof (pow2_pos (Z.log2 (Z.pos (Qden q)))) as Hpd.
    change (2 ^ 1)%Q with 2%Q.
    set (A := (2 ^ Z.log2 (Qnum q))%Q) in *.
    set (B := (2 ^ Z.log2 (Z.pos (Qden q)))%Q) in *.
    assert (q == inject_Z (Qnum q) / inject_Z (Z.pos (Qden q)))%Q as Hqe.
    { destruct q as [n d]. cbn [Qnum Qden]. apply Qmake_Qdiv. }
    rewrite Hqe.
    set (N := inject_Z (Qnum q)) in *.
    set (D := inject_Z (Z.pos (Qden q))) in *.
    assert (0 < D)%Q as HD by (unfold D; by rewrite <- (Zlt_Qlt 0)).
    apply Qlt_shift_div_r; [done|].
    assert (0 < A)%Q as HA by apply pow2_pos.
    apply Qlt_le_trans with (A * 2 * / B * B)%Q.
    + assert (A * 2 * / B * B == A * 2)%Q as -> by (field; lra). lra.
    + apply Qmult_le_l; [|done].
      apply Qmult_lt_0_compat; [lra|]. by apply Qinv_lt_0_compat.
  - replace (k - 53 + 53) with k by lia.
    apply Qnot_le_lt. intros Hle'%Qle_bool_iff. congruence.
Qed.

(** The rounded value is a multiple of [2^e] by an integer of at most 53
    bits, with [e] no smaller than the exponent of the smallest double. *)
Lemma nearest_pos_bits (q : Q) :
  (0 < q)%Q →
  ∃ m e, nearest_pos q = (inject_Z m * 2 ^ e)%Q
         ∧ 0 ≤ m ≤ 2 ^ 53 ∧ -1074 ≤ e.
Proof.
  intros Hq. unfold nearest_pos.
  set (e := Z.max (binade q) (-1074)). pose proof (pow2_pos e) as HP.
  exists (rne (q / 2 ^ e)), e. split; [done|]. split; [|lia]. split.
  - apply rne_nonneg. apply Qle_shift_div_l; lra.
  - assert (q / 2 ^ e < inject_Z (2 ^ 53))%Q as Hlt.
    { apply Qlt_shift_div_r; [done|].
      apply Qlt_le_trans with (2 ^ (binade q + 53))%Q;
        [by apply binade_upper|].
      rewrite (Zpower_Qpower 2 53), <- pow2_split by done.
      apply Qpower_le_compat_l; [lia|discriminate]. }
    pose proof (Qfloor_le (q / 2 ^ e)) as Hfl.
    assert (Qfloor (q / 2 ^ e) < 2 ^ 53) as Hfloor.
    { rewrite Zlt_Qlt. by apply Qle_lt_trans with (q / 2 ^ e)%Q. }
    unfold rne. destruct (_ ?= _)%Q; [destruct (Z.even _)| |]; lia.
Qed.

Lemma nearest_pos_error (q : Q) :
  (0 < q)%Q →
  (nearest_pos q - q <= q * (EPSILON * (1 # 2)) + 2 ^ (-1075))%Q
  ∧ (q - nearest_pos q <= q * (EPSILON * (1 # 2)) + 2 ^ (-1075))%Q.
Proof.
  intros Hq. unfold nearest_pos.
  set (e := Z.max (binade q) (-1074)).
  pose proof (pow2_pos e) as HP. pose proof (pow2_pos (-1075)) as Htiny.
  assert (2 ^ (-1074) == 2 * 2 ^ (-1075))%Q as Hsub
    by (by rewrite <- (pow2_split 1)).
  set (tiny := (2 ^ (-1075))%Q) in *. clearbody tiny.
  destruct (rne_error (q / 2 ^ e)) as [Hup Hdown].
  set (m := inject_Z (rne (q / 2 ^ e))) in *.
  assert (2 ^ e * (1 # 2) <= q * (EPSILON * (1 # 2)) + tiny)%Q as Hulp.
  { destruct (Z.max_spec (binade q) (-1074)) as [[_ He]|[_ He]];
      fold e in He; rewrite He.
    - rewrite Hsub. unfold EPSILON. lra.
    - pose proof (binade_lower q Hq) as Hlo.
      rewrite pow2_split in Hlo.
      assert (2 ^ 52 == 4503599627370496)%Q as H52 by reflexivity.
      rewrite H52 in Hlo. unfold EPSILON. lra. }
  set (P := (2 ^ e)%Q) in *.
  assert (q == q / P * P)%Q as Hqe by (field; lra).
  set (s := (q / P)%Q) in *.
  assert (m * P - q == (m - s) * P)%Q as -> by (rewrite Hqe at 1; ring).
  assert (q - m * P == (s - m) * P)%Q as -> by (rewrite Hqe at 1; ring).
  split.
  - apply Qle_trans with ((1 # 2) * P)%Q; [|lra].
    apply Qmult_le_compat_r; lra.
  - apply Qle_trans with ((1 # 2) * P)%Q; [|lra].
    apply Qmult_le_compat_r; lra.
Qed.

Lemma nearest_pos_nonneg (q : Q) : (0 <= q)%Q → (0 <= nearest_pos q)%Q.
Proof.
  intros Hq. unfold nearest_pos.
  set (e := Z.max (binade q) (-1074)). pose proof (pow2_pos e) as HP.
  apply Qmult_le_0_compat; [|lra].
  change 0%Q with (inject_Z 0). rewrite <- Zle_Qle. apply rne_nonneg.
  apply Qle_shift_div_l; lra.
Qed.

Lemma nearest_nonpos (q : Q) : (q <= 0)%Q → (nearest q <= 0)%Q.
Proof.
  intros Hq. unfold nearest. destruct (Qnum q) eqn:Hn; [lra| |].
  - destruct q as [n d]. cbn in Hn. subst n. by destruct Hq.
  - assert (0 <= nearest_pos (- q))%Q by (apply nearest_pos_nonneg; lra). lra.
Qed.

Lemma nearest_error (q : Q) :
  (0 < q)%Q →
  (nearest q <= q * (1 + EPSILON * (1 # 2)) + 2 ^ (-1075))%Q
  ∧ (q * (1 - EPSILON * (1 # 2)) - 2 ^ (-1075) <= nearest q)%Q.
Proof.
  intros Hq. destruct (nearest_pos_error q Hq) as [Hup Hdown].
  assert (nearest q = nearest_pos q) as ->.
  { unfold nearest. destruct q as [[|n|n] d]; done. }
  set (tiny := (2 ^ (-1075))%Q) in *. clearbody tiny. split; lra.
Qed.

Lemma pow2_le (a b : Z) : a ≤ b → (2 ^ a <= 2 ^ b)%Q.
Proof. intros Hab. apply Qpower_le_compat_l; [done|discriminate]. Qed.

(** A quotient between 1 and 1000 is rounded to a finite double. *)
Lemma round64_finite (r : Q) :
  (1 <= r)%Q → (r <= 1000)%Q → round64 r = Fin (nearest r).
Proof.
  intros Hlo Hhi. unfold round64.
  destruct (nearest_error r) as [Hup Hdown]; [lra|].
  pose proof (pow2_pos (-1075)) as Htiny.
  pose proof (pow2_le (-1075) 0 ltac:(lia)) as Htiny1.
  pose proof (pow2_le 11 1024 ltac:(lia)) as Hbig.
  assert (2 ^ 11 == 2048)%Q as H11 by reflexivity. rewrite H11 in Hbig.
  change (2 ^ 0)%Q with 1%Q in Htiny1.
  set (tiny := (2 ^ (-1075))%Q) in *. clearbody tiny.
  set (big := (2 ^ 1024)%Q) in *. clearbody big.
  unfold EPSILON in *.
  destruct (Qle_bool big (nearest r)) eqn:H1.
  { apply Qle_bool_iff in H1. lra. }
  destruct (Qle_bool (nearest r) (- big)) eqn:H2; [|done].
  apply Qle_bool_iff in H2. lra.
Qed.

(** When an advance is due, the time since the last one falls short of
    [1000 / speed] by less than one part in 2^52. *)
Lemma frame_due_interval (now : Q) (s : State) :
  frame_due now s = true →
  (1 <= cfg_speed (config s))%Q → (cfg_speed (config s) <= 30)%Q →
  (1000 / cfg_speed (config s) * (1 - EPSILON) <= now - lastFrame s)%Q.
Proof.
  unfold frame_due, stepInterval, Nsub, Ndiv, Int.
  intros Hdue Hlo Hhi.
  set (speed := cfg_speed (config s)) in *.
  set (x := (now - lastFrame s)%Q) in *.
  destruct (Qeq_bool speed 0) eqn:Hzero.
  { apply Qeq_bool_iff in Hzero. lra. }
  change (inject_Z 1000) with 1000%Q in Hdue.
  set (r := (1000 / speed)%Q) in *.
  assert (1 <= r)%Q as Hr1 by (apply Qle_shift_div_l; lra).
  assert (r <= 1000)%Q as Hr2 by (apply Qle_shift_div_r; lra).
  rewrite (round64_finite r Hr1 Hr2) in Hdue.
  destruct (nearest_error r) as [_ Hdown]; [lra|].
  pose proof (pow2_pos (-1075)) as Htiny.
  pose proof (pow2_le (-1075) (-106) ltac:(lia)) as Htiny1.
  assert (2 ^ (-106) == 1 # 81129638414606681695789005144064)%Q as H106
    by reflexivity.
  rewrite H106 in Htiny1.
  pose proof (pow2_le 11 1024 ltac:(lia)) as Hbig.
  assert (2 ^ 11 == 2048)%Q as H11 by reflexivity. rewrite H11 in Hbig.
  assert (nearest r <= nearest x)%Q as Hle.
  { unfold round64 in Hdue.
    destruct (Qle_bool (2 ^ 1024) (nearest x)) eqn:H1.
    - apply Qle_bool_iff in H1.
      destruct (nearest_error r) as [Hup _]; [lra|].
      set (tiny := (2 ^ (-1075))%Q) in *. clearbody tiny.
      set (big := (2 ^ 1024)%Q) in *. clearbody big.
      unfold EPSILON in *. lra.
    - destruct (Qle_bool (nearest x) (- 2 ^ 1024)); [done|].
      by apply Qle_bool_iff in Hdue. }
  destruct (Qlt_le_dec 0 x) as [Hpos|Hneg].
  - destruct (nearest_error x Hpos) as [Hup _].
    set (tiny := (2 ^ (-1075))%Q) in *. clearbody tiny.
    unfold EPSILON in *. lra.
  - pose proof (nearest_nonpos x Hneg) as Hnx.
    set (tiny := (2 ^ (-1075))%Q) in *. clearbody tiny.
    unfold EPSILON in *. lra.
Qed.

(** The model of rounding at work: the quotient the loop computes at
    speed 3 is the double just below 1000/3, the double nearest to 1/10 is
    the familiar one, half the smallest double is rounded to zero, and a
    result of 2^1024 is an infinity. *)
Example stepInterval_at_speed_3 :
  ∃ q, stepInterval 3 = Fin q
       ∧ (q == third_of_second)%Q ∧ (q < 1000 / 3)%Q.
Proof.
  eexists. split; [vm_compute; reflexivity|].
  split; vm_compute; reflexivity.
Qed.

Example nearest_tenth :
  (nearest (1 # 10) == 3602879701896397 # 36028797018963968)%Q.
Proof. vm_compute. reflexivity. Qed.

Example nearest_underflow :
  (nearest (2 ^ (-1075)) == 0)%Q
  ∧ (nearest (3 * 2 ^ (-1076)) == 2 ^ (-1074))%Q.
Proof. split; vm_compute; reflexivity. Qed.

Example round64_overflow :
  round64 (2 ^ 1024) = PosInf ∧ round64 (2 ^ 1024 - 2 ^ 970) = PosInf
  ∧ ∃ q, round64 (2 ^ 1024 - 2 ^ 970 - 1) = Fin q
         ∧ (q == 2 ^ 1024 - 2 ^ 971)%Q.
Proof.
  split; [vm_compute; reflexivity|]. split; [vm_compute; reflexivity|].
  eexists. split; vm_compute; reflexivity.
Qed.

(** The claim of C9 that two consecutive automatic advances lie at least
    [1000 / speed] milliseconds apart fails by a rounding: at speed 3 the
    interval the loop compares with is the double nearest to 1000/3, which
    is smaller than 1000/3, and frames at that timestamp and at twice it
    both advance the board. *)
Lemma frame_gap_counterexample :
  advances (Frame third_of_second) speed3_state = true
  ∧ handle (Frame third_of_second) speed3_state
    = Some (tick third_of_second speed3_state)
  ∧ advances (Frame (2 * third_of_second)) (tick third_of_second speed3_state)
    = true
  ∧ ¬ (1000 / cfg_speed (config (tick third_of_second speed3_state))
       <= 2 * third_of_second - third_of_second)%Q.
Proof.
  split; [vm_compute; reflexivity|]. split; [reflexivity|].
  split; [vm_compute; reflexivity|].
  intros Hle. vm_compute in Hle. by apply Hle.
Qed.

(** C9, amended.  A frame callback advances the board by at most one
    generation: it either leaves the state alone or performs exactly one
    advance and records its timestamp.  Between an automatic advance at
    [t1] and the next automatic advance at [t2], whatever other events are
    handled in between, the difference [t2 - t1] as the loop computes it, a
    double, is at least the double [1000 / speed], for the speed in force
    at the second advance.  For a speed between 1 and 30, the range of the
    speed slider and of a restored speed, the exact difference is at least
    [1000 / speed] less one part in 2^52. *)
Theorem frame_spacing (s s1 s2 : State) (t1 t2 : Q) (es : list event) :
  advances (Frame t1) s = true →
  handle (Frame t1) s = Some s1 →
  run es s1 = Some s2 →
  quiet es s1 →
  advances (Frame t2) s2 = true →
  Nge (Nsub (Fin t2) (Fin t1)) (stepInterval (cfg_speed (config s2))) = true
  ∧ ((1 <= cfg_speed (config s2))%Q → (cfg_speed (config s2) <= 30)%Q →
     (1000 / cfg_speed (config s2) * (1 - EPSILON) <= t2 - t1)%Q)
  ∧ (∀ (now : Q) (s0 : State),
       handle (Frame now) s0 = Some s0
       ∨ (advances (Frame now) s0 = true
          ∧ handle (Frame now) s0
            = Some (setLastFrame now (stepOnce s0)))).
Proof.
  intros Hadv1 Hs1 Hrun Hquiet Hadv2.
  cbn [advances] in Hadv1, Hadv2.
  apply andb_prop in Hadv1 as [Hrun1 Hdue1].
  apply andb_prop in Hadv2 as [_ Hdue2].
  assert (lastFrame s2 = t1) as Hlast.
  { rewrite (run_quiet_lastFrame es s1 s2 Hrun Hquiet).
    cbn [handle] in Hs1. rewrite Hrun1 in Hs1. unfold tick in Hs1.
    rewrite Hdue1 in Hs1. by injection Hs1 as <-. }
  split; [|split].
  - unfold frame_due in Hdue2. by rewrite Hlast in Hdue2.
  - intros Hlo Hhi. rewrite <- Hlast. by apply frame_due_interval.
  - intros now s0. cbn [handle advances]. unfold tick, stepOnce.
    destruct (running s0); [|by left]. cbn [andb].
    destruct (frame_due now s0); [by right|by left].
Qed.

Lemma frame_spacing_witness :
  advances (Frame 125) sample_state = true
  ∧ handle (Frame 125) sample_state = Some (tick 125 sample_state)
  ∧ run [Frame 130; Step] (tick 125 sample_state)
    = Some (stepOnce (tick 125 sample_state))
  ∧ quiet [Frame 130; Step] (tick 125 sample_state)
  ∧ advances (Frame 250) (stepOnce (tick 125 sample_state)) = true
  ∧ Nge (Nsub (Fin 250) (Fin 125))
      (stepInterval (cfg_speed (config (stepOnce (tick 125 sample_state)))))
    = true
  ∧ (1000 / cfg_speed (config (stepOnce (tick 125 sample_state)))
     * (1 - EPSILON) <= 250 - 125)%Q.
Proof.
  assert (H1 : advances (Frame 125) sample_state = true)
    by (vm_compute; reflexivity).
  assert (H2 : handle (Frame 125) sample_state = Some (tick 125 sample_state))
    by reflexivity.
  assert (H3 : run [Frame 130; Step] (tick 125 sample_state)
               = Some (stepOnce (tick 125 sample_state)))
    by (vm_compute; reflexivity).
  assert (H4 : quiet [Frame 130; Step] (tick 125 sample_state)).
  { split; [vm_compute; reflexivity|]. intros s' _.
    split; [reflexivity|]. intros s'' _. exact I. }
  assert (H5 : advances (Frame 250) (stepOnce (tick 125 sample_state)) = true)
    by (vm_compute; reflexivity).
  do 5 (split; [assumption|]).
  destruct (frame_spacing sample_state (tick 125 sample_state)
              (stepOnce (tick 125 sample_state)) 125 250 [Frame 130; Step]
              H1 H2 H3 H4 H5) as (Hcomputed & Hexact & _).
  split; [exact Hcomputed|].
  apply Hexact; vm_compute; discriminate.
Defined.

(** ** Restoring the persisted state *)

(** The record a parsed value is turned into. *)
Lemma loadSavedState_Parsed (host : json → option number) (parsed : json)
    (sv : SavedState) :
  loadSavedState host (Parsed parsed) = Some sv →
  ∃ w h theme speed wrap cells a b,
    get_prop parsed "width" = Some w
    ∧ get_prop parsed "height" = Some h
    ∧ get_prop parsed "theme" = Some theme
    ∧ get_prop parsed "speed" = Some speed
    ∧ get_prop parsed "wrap" = Some wrap
    ∧ get_prop parsed "cells" = Some cells
    ∧ ToNumber host (nullish_or w (JNum (Int DEFAULT_WIDTH))) = Some a
    ∧ ToNumber host (nullish_or h (JNum (Int DEFAULT_HEIGHT))) = Some b
    ∧ sv = {| saved_width := clampSize a;
              saved_height := clampSize b;
              saved_speed :=
                match speed with
                | Some (JNum n) => Math_min (Int 30) (Math_max (Int 1) n)
                | _ => Int 8
                end;
              saved_wrap :=
                match wrap with
                | Some v => Boolean v
                | None => true
                end;
              saved_theme :=
                match theme with
                | Some (JStr t) => if isThemeId t then t else "neon"%string
                | _ => "neon"%string
                end;
              saved_cells :=
                match cells with
                | Some (JStr c) => Some c
                | _ => None
                end |}.
Proof.
  intros Hload. unfold loadSavedState in Hload.
  destruct (get_prop parsed "width") as [w|];
    cbn [mbind option_bind] in Hload; [|done].
  destruct (ToNumber host (nullish_or w _)) as [a|] eqn:Ha;
    cbn [fmap option_fmap option_map mbind option_bind] in Hload; [|done].
  destruct (get_prop parsed "height") as [h|];
    cbn [mbind option_bind] in Hload; [|done].
  destruct (ToNumber host (nullish_or h _)) as [b|] eqn:Hb;
    cbn [fmap option_fmap option_map mbind option_bind] in Hload; [|done].
  destruct (get_prop parsed "theme") as [theme|];
    cbn [mbind option_bind] in Hload; [|done].
  destruct (get_prop parsed "speed") as [speed|];
    cbn [mbind option_bind] in Hload; [|done].
  destruct (get_prop parsed "wrap") as [wrap|];
    cbn [mbind option_bind] in Hload; [|done].
  destruct (get_prop parsed "cells") as [cells|];
    cbn [mbind option_bind] in Hload; [|done].
  injection Hload as <-.
  by exists w, h, theme, speed, wrap, cells, a, b.
Qed.

Lemma App_cells_sized (sv : SavedState) (width height : Z) :
  saved_width sv = Int width → saved_height sv = Int height →
  0 ≤ width * height →
  ∃ board, App_cells (Some sv) = Some board ∧ board_ok board width height.
Proof.
  intros Hw Hh Hn. unfold App_cells. rewrite Hw, Hh.
  assert (∃ board, createEmptyBoard (Int width) (Int height) = Some board
                   ∧ board_ok board width height) as Hempty.
  { rewrite createEmptyBoard_Int by done. eexists. split; [done|].
    by apply board_ok_empty. }
  destruct (saved_cells sv) as [c|]; [|done].
  destruct (negb (String.eqb c "")); [|done].
  by apply deserializeCells_ok.
Qed.

(** A component mounted with integer sizes starts in a state that
    satisfies the invariant. *)
Lemma App_mount_ok (host : json → option number) (stored : storage_read)
    (s0 : State) :
  App_mount host stored = Mounted s0 → state_ok s0.
Proof.
  unfold App_mount. intros Hmount.
  destruct (App_cells _) as [board|] eqn:Hcells; [|done].
  destruct (theme_effect _); [|done].
  destruct (int_value (init_width _)) as [width|] eqn:Hwidth; [|done].
  destruct (int_value (init_height _)) as [height|] eqn:Hheight; [|done].
  destruct (finite_value _) as [speed|]; [|done].
  injection Hmount as <-.
  split; [|split; [by right|done]].
  cbn [cells config cfg_width cfg_height].
  destruct (loadSavedState host stored) as [sv|] eqn:Hload.
  - destruct stored as [| | |parsed]; try done.
    apply loadSavedState_Parsed in Hload
      as (w & h & theme & speed' & wrap & cells & a & b & _ & _ & _ & _ & _
          & _ & _ & _ & Hsv).
    assert (saved_width sv = clampSize a) as Hsw by by rewrite Hsv.
    assert (saved_height sv = clampSize b) as Hsh by by rewrite Hsv.
    clear Hsv.
    cbn [App_config from_option init_width init_height] in Hwidth, Hheight.
    destruct (clampSize_cases a) as [Ha|(width' & Hrange & Ha)];
      rewrite Ha in Hsw; rewrite Hsw in Hwidth; [done|].
    destruct (clampSize_cases b) as [Hb|(height' & Hrange' & Hb)];
      rewrite Hb in Hsh; rewrite Hsh in Hheight; [done|].
    rewrite int_value_Int in Hwidth, Hheight.
    injection Hwidth as ->. injection Hheight as ->.
    unfold MIN_SIZE, MAX_SIZE in *.
    destruct (App_cells_sized sv width height) as (board' & Hb' & Hok);
      [done|done|nia|].
    rewrite Hb' in Hcells. by injection Hcells as <-.
  - cbn [App_config from_option init_width init_height] in Hwidth, Hheight.
    rewrite int_value_Int in Hwidth, Hheight.
    injection Hwidth as <-. injection Hheight as <-.
    cbn [App_cells] in Hcells.
    rewrite createEmptyBoard_Int in Hcells
      by (unfold DEFAULT_WIDTH, DEFAULT_HEIGHT; lia).
    injection Hcells as <-.
    apply (board_ok_empty DEFAULT_WIDTH DEFAULT_HEIGHT).
    unfold DEFAULT_WIDTH, DEFAULT_HEIGHT. lia.
Qed.

(** C3.  Every event handler keeps the board invariant, [width * height]
    cells that are each 0 or 1 for the current dimensions: handled in a
    state that satisfies it, every event returns a state that satisfies it.
    In particular the next generation has the dimensions of the board it is
    computed from, in both boundary modes, and a resize produces a board of
    [width * height] cells for the new dimensions. *)
Theorem board_invariant (e : event) (s : State) :
  state_ok s →
  (∃ s', handle e s = Some s' ∧ state_ok s')
  ∧ (∀ wrap,
       board_ok (computeNext (cells s) (cfg_width (config s))
                   (cfg_height (config s)) wrap)
         (cfg_width (config s)) (cfg_height (config s)))
  ∧ (∀ width height, 0 ≤ width → 0 ≤ height →
       ∃ next,
         resizeCells (cells s) (cfg_width (config s)) (cfg_height (config s))
           width height = Some next
         ∧ U8.len next = width * height
         ∧ board_ok next width height).
Proof.
  intros Hok. pose proof Hok as (Hboard & _ & _).
  split; [by apply handle_ok|]. split.
  - intros wrap. by apply board_ok_computeNext.
  - intros width height Hw Hh.
    destruct (resizeCells_spec (cells s) (cfg_width (config s))
                (cfg_height (config s)) width height)
      as (next & Hnext & Hokn & _); [done|done|done|].
    exists next. split; [done|]. split; [apply Hokn|done].
Qed.

Lemma board_invariant_witness :
  state_ok sample_state
  ∧ (∃ s', handle ResizeGrid sample_state = Some s' ∧ state_ok s')
  ∧ (∀ wrap,
       board_ok (computeNext (cells sample_state)
                   (cfg_width (config sample_state))
                   (cfg_height (config sample_state)) wrap)
         (cfg_width (config sample_state)) (cfg_height (config sample_state)))
  ∧ (∀ width height, 0 ≤ width → 0 ≤ height →
       ∃ next,
         resizeCells (cells sample_state) (cfg_width (config sample_state))
           (cfg_height (config sample_state)) width height = Some next
         ∧ U8.len next = width * height
         ∧ board_ok next width height).
Proof.
  split; [apply sample_state_ok|].
  apply (board_invariant ResizeGrid sample_state), sample_state_ok.
Defined.

Example mount_restores_sample :
  ∃ s0, App_mount strict_host (Parsed sample_record) = Mounted s0
        ∧ cfg_width (config s0) = 20 ∧ cfg_height (config s0) = 10
        ∧ cells s0 = replicate 200 0.
Proof. eexists. split; [vm_compute; reflexivity|]. by vm_compute. Qed.

(** A stored width that the host converts to [NaN] mounts the component
    with that width and a board without cells, and a stored theme that
    [THEMES] only inherits makes the theme effect throw. *)
Example mount_with_NaN_width :
  App_mount (fun _ => Some NaN) (Parsed (JObj [("width", JStr "wide")]%string))
  = MountedOutside
      {| init_width := NaN; init_height := Int DEFAULT_HEIGHT;
         init_speed := Int 8; init_wrap := true; init_theme := "neon" |} [].
Proof. vm_compute. reflexivity. Qed.

Example mount_with_inherited_theme :
  App_mount strict_host (Parsed (JObj [("theme", JStr "toString")]%string))
  = MountThrows.
Proof. vm_compute. reflexivity. Qed.



Lemma isThemeId_own (t : string) : t ∈ THEMES → isThemeId t = true.
Proof. intros Ht. unfold isThemeId. by rewrite bool_decide_eq_true_2. Qed.





(** A theme name that [THEMES] inherits passes [isThemeId], and a width
    that is not a number is restored as the host converts it. *)
Example inherited_theme_is_kept :
  saved_theme <$> loadSavedState strict_host
                    (Parsed (JObj [("theme", JStr "toString")]%string))
  = Some "toString"%string.
Proof. vm_compute. reflexivity. Qed.

Example width_not_a_number :
  saved_width <$> loadSavedState (fun _ => Some NaN)
                    (Parsed (JObj [("width", JStr "wide")]%string))
  = Some NaN.
Proof. vm_compute. reflexivity. Qed.

(** * Further properties of the code *)

(** ** The rule engine on any input *)

(** X1.  Whatever the array, the dimensions and the mode it is called with,
    also when they do not fit together, [computeNext] returns an array of
    the length of its input whose entries are all 0 or 1. *)
Theorem computeNext_any_input (board : list Z) (width height : Z)
    (wrap : bool) :
  length (computeNext board width height wrap) = length board
  ∧ Forall is_cell (computeNext board width height wrap).
Proof. split; [apply length_computeNext|apply Forall_computeNext]. Qed.

Lemma all_zero_replicate (l : list Z) :
  Forall (fun v => v = 0) l → l = replicate (length l) 0.
Proof.
  intros Hl. symmetry. apply replicate_as_Forall. split; [done|].
  eapply Forall_impl; [exact Hl|]. by intros v ->.
Qed.

Lemma get_all_zero (n : nat) (i : Z) :
  U8.get (replicate n 0) i = Some 0 ∨ U8.get (replicate n 0) i = None.
Proof.
  destruct (U8.get (replicate n 0) i) as [v|] eqn:Hv; [|by right].
  left. apply get_elem_of, elem_of_replicate in Hv as [-> _]. done.
Qed.

Lemma neighborStep_all_zero (n : nat) width height wrap x y dy acc dx :
  acc = Some 0 ∨ acc = None →
  neighborStep (replicate n 0) width height wrap x y dy acc dx = Some 0
  ∨ neighborStep (replicate n 0) width height wrap x y dy acc dx = None.
Proof.
  intros Hacc. unfold neighborStep.
  assert (∀ i, js_add acc (U8.get (replicate n 0) i) = Some 0
               ∨ js_add acc (U8.get (replicate n 0) i) = None) as Hadd.
  { intros i. destruct Hacc as [-> | ->], (get_all_zero n i) as [-> | ->];
      cbn; auto. }
  destruct (_ && _); [done|]. cbv zeta.
  destruct wrap; [apply Hadd|]. destruct (_ || _); [done|apply Hadd].
Qed.

Lemma countNeighbors_all_zero (n : nat) width height wrap x y :
  countNeighbors (replicate n 0) width height wrap x y = Some 0
  ∨ countNeighbors (replicate n 0) width height wrap x y = None.
Proof.
  unfold countNeighbors. change (seqZ (-1) 3) with [-1; 0; 1].
  cbn [foldl]. repeat apply neighborStep_all_zero. by left.
Qed.

Lemma nextCell_all_zero (n : nat) width height wrap x y :
  nextCell (replicate n 0) width height wrap x y = 0.
Proof.
  unfold nextCell.
  destruct (get_all_zero n (y * width + x)) as [-> | ->];
    destruct (countNeighbors_all_zero n width height wrap x y) as [-> | ->];
    reflexivity.
Qed.

(** X2.  The all-dead board is a fixed point of [computeNext] in both
    modes, for every length and all dimensions. *)
Theorem computeNext_all_dead (n : nat) (width height : Z) (wrap : bool) :
  computeNext (replicate n 0) width height wrap = replicate n 0.
Proof.
  rewrite (all_zero_replicate (computeNext (replicate n 0) width height wrap)).
  - by rewrite length_computeNext, length_replicate.
  - rewrite computeNext_grid. apply Forall_grid_loop.
    + apply Forall_replicate. done.
    + intros x y. by rewrite nextCell_all_zero.
Qed.

Lemma contribution_interior (board : list Z) (width height x y dx dy : Z) :
  1 ≤ x < width - 1 → 1 ≤ y < height - 1 → -1 ≤ dx ≤ 1 → -1 ≤ dy ≤ 1 →
  contribution board width height true x y dx dy
  = contribution board width height false x y dx dy.
Proof.
  intros Hx Hy Hdx Hdy. unfold contribution, in_bounds. cbn [fst snd].
  rewrite !Z.mod_small by lia.
  rewrite (proj2 (Z.leb_le 0 (x + dx))), (proj2 (Z.ltb_lt (x + dx) width)),
    (proj2 (Z.leb_le 0 (y + dy))), (proj2 (Z.ltb_lt (y + dy) height)) by lia.
  done.
Qed.

(** X3.  The boundary mode matters only on the border: a cell that is not
    in the first or last row or column has the same next state with and
    without wrapping. *)
Theorem computeNext_interior (board : list Z) (width height x y : Z) :
  U8.len board = width * height →
  1 ≤ x < width - 1 → 1 ≤ y < height - 1 →
  U8.get (computeNext board width height true) (y * width + x)
  = U8.get (computeNext board width height false) (y * width + x).
Proof.
  intros Hlen Hx Hy. rewrite !get_computeNext by lia. f_equal.
  unfold nextCell.
  rewrite !(countNeighbors_sum board width height Hlen) by lia.
  by rewrite !contribution_interior by lia.
Qed.

Lemma computeNext_interior_witness :
  U8.len blinker = 5 * 5 ∧ 1 ≤ 2 < 5 - 1 ∧ 1 ≤ 3 < 5 - 1
  ∧ U8.get (computeNext blinker 5 5 true) (3 * 5 + 2)
    = U8.get (computeNext blinker 5 5 false) (3 * 5 + 2).
Proof.
  split; [reflexivity|]. split; [lia|]. split; [lia|].
  apply (computeNext_interior blinker 5 5 2 3); [reflexivity|lia|lia].
Defined.

(** X4.  On a board of 0/1 cells the neighbour count of a cell is a number
    between 0 and 8, and without wrapping a cell of the first column has at
    most 5 live neighbours. *)
Theorem countNeighbors_range (board : list Z) (width height : Z)
    (wrap : bool) (x y : Z) :
  board_ok board width height → 0 ≤ x < width → 0 ≤ y < height →
  ∃ n, countNeighbors board width height wrap x y = Some n
       ∧ 0 ≤ n ≤ 8
       ∧ (wrap = false → x = 0 → n ≤ 5).
Proof.
  intros [Hlen Hcells] Hx Hy.
  rewrite (countNeighbors_sum board width height Hlen) by done.
  eexists. split; [reflexivity|].
  pose proof (contribution_range board width height wrap x y) as Hr.
  pose proof (Hr (-1) (-1) Hcells). pose proof (Hr 0 (-1) Hcells).
  pose proof (Hr 1 (-1) Hcells). pose proof (Hr (-1) 0 Hcells).
  pose proof (Hr 1 0 Hcells). pose proof (Hr (-1) 1 Hcells).
  pose proof (Hr 0 1 Hcells). pose proof (Hr 1 1 Hcells).
  split; [lia|]. intros -> ->.
  assert (∀ dy, contribution board width height false 0 y (-1) dy = 0)
    as Hleft by done.
  rewrite !Hleft. lia.
Qed.

Lemma countNeighbors_range_witness :
  board_ok blinker 5 5 ∧ 0 ≤ 0 < 5 ∧ 0 ≤ 2 < 5
  ∧ ∃ n, countNeighbors blinker 5 5 false 0 2 = Some n
         ∧ 0 ≤ n ≤ 8
         ∧ (false = false → 0 = 0 → n ≤ 5).
Proof.
  split; [apply blinker_ok|]. split; [lia|]. split; [lia|].
  apply (countNeighbors_range blinker 5 5 false 0 2);
    [apply blinker_ok|lia|lia].
Defined.

(** ** Clamping a size *)

Lemma Math_round_Int (k : Z) : Math_round (Int k) = Int k.
Proof.
  unfold Math_round, Int at 1. f_equal.
  unfold Qfloor, Qplus, inject_Z. cbn.
  symmetry. apply (Z.div_unique _ _ _ 1); lia.
Qed.

Lemma clampSize_Int (k : Z) :
  clampSize (Int k) = Int (Z.max MIN_SIZE (Z.min MAX_SIZE k)).
Proof.
  unfold clampSize. by rewrite Math_round_Int, Math_min_Int, Math_max_Int.
Qed.

(** X5.  [clampSize] gives [NaN] for [NaN] only; every other number,
    infinities included, becomes an integer between 10 and 150.  An integer
    already in that range is returned as it is, so clamping twice is
    clamping once. *)
Theorem clampSize_idempotent (v : number) :
  (clampSize v = NaN ↔ v = NaN)
  ∧ (v ≠ NaN → ∃ k, MIN_SIZE ≤ k ≤ MAX_SIZE ∧ clampSize v = Int k)
  ∧ (∀ k, MIN_SIZE ≤ k ≤ MAX_SIZE → clampSize (Int k) = Int k)
  ∧ clampSize (clampSize v) = clampSize v.
Proof.
  assert (Hfix : ∀ k, MIN_SIZE ≤ k ≤ MAX_SIZE → clampSize (Int k) = Int k).
  { intros k Hk. rewrite clampSize_Int. f_equal.
    unfold MIN_SIZE, MAX_SIZE in *. lia. }
  assert (Hrange : v ≠ NaN →
            ∃ k, MIN_SIZE ≤ k ≤ MAX_SIZE ∧ clampSize v = Int k).
  { intros Hv. destruct (clampSize_cases v) as [Hnan|Hk]; [|done].
    destruct v as [| |q|];
      [done|discriminate Hnan|by rewrite clampSize_Fin in Hnan
      |discriminate Hnan]. }
  split; [|split; [done|split; [done|]]].
  - split; [|by intros ->]. intros Hnan.
    assert (v = NaN ∨ v ≠ NaN) as [|Hv] by (destruct v; auto); [done|].
    destruct (Hrange Hv) as (k & _ & Hk). rewrite Hk in Hnan. discriminate Hnan.
  - destruct v as [| |q|]; try reflexivity.
    destruct Hrange as (k & Hk & ->); [done|]. by apply Hfix.
Qed.

Example clampSize_samples :
  clampSize (Fin (21 # 2)) = Int 11 ∧ clampSize (Fin (-7 # 2)) = Int 10
  ∧ clampSize PosInf = Int 150 ∧ clampSize (Int 1000) = Int 150.
Proof. repeat split; vm_compute; reflexivity. Qed.

(** ** Writing the cells out and reading them back *)

Lemma length_chars (s : string) :
  length (list_ascii_of_string s) = String.length s.
Proof. induction s as [|c s IH]; [done|]. cbn. by rewrite IH. Qed.

Lemma serializeCells_bits (board : list Z) :
  Forall is_cell board →
  list_ascii_of_string (serializeCells board)
  = (fun v => if v =? 1 then "1"%char else "0"%char) <$> board.
Proof.
  induction 1 as [|v board Hv _ IH]; [done|].
  cbn [serializeCells foldr]. fold (serializeCells board).
  rewrite fmap_cons, <- IH. by destruct Hv as [-> | ->].
Qed.

Lemma normalize_bits (board : list Z) :
  Forall is_cell board →
  normalize (serializeCells board)
  = (fun v => if v =? 1 then "1"%char else "0"%char) <$> board.
Proof.
  intros Hcells. unfold normalize. rewrite serializeCells_bits by done.
  induction Hcells as [|v board Hv _ IH]; [done|].
  rewrite fmap_cons. cbn [List.filter]. rewrite IH.
  by destruct Hv as [-> | ->].
Qed.

Lemma deserialize_serialize (board : list Z) (width height : Z) :
  board_ok board width height →
  deserializeCells (serializeCells board) (Int width) (Int height)
  = Some board.
Proof.
  intros [Hlen Hcells]. unfold U8.len in Hlen.
  rewrite deserializeCells_Int by lia. f_equal.
  rewrite normalize_bits by done. rewrite length_fmap.
  apply array_eq.
  - rewrite length_write_all, length_replicate. lia.
  - intros i Hi. unfold U8.len in Hi.
    rewrite length_write_all, length_replicate in Hi.
    rewrite get_write_range by lia. rewrite get_replicate by lia.
    cbn [fmap option_fmap option_map].
    unfold U8.get. rewrite (proj2 (Z.ltb_ge i 0)) by lia.
    destruct (lookup_lt_is_Some_2 board (Z.to_nat i)) as [v Hv]; [lia|].
    rewrite Hv. f_equal. rewrite list_lookup_fmap, Hv. cbn.
    rewrite Forall_forall in Hcells.
    destruct (Hcells v) as [-> | ->]; [by eapply list_elem_of_lookup_2|done|done].
Qed.

(** X6.  Writing a board of 0/1 cells out and reading it back at the
    board's dimensions returns the board: [serializeCells] produces one
    character per cell, and [deserializeCells] turns them back into the
    same cells. *)
Theorem serialize_round_trip (board : list Z) (width height : Z) :
  board_ok board width height →
  String.length (serializeCells board) = length board
  ∧ deserializeCells (serializeCells board) (Int width) (Int height)
    = Some board.
Proof.
  intros Hok. split; [|by apply deserialize_serialize].
  destruct Hok as [_ Hcells].
  rewrite <- length_chars, serializeCells_bits by done. apply length_fmap.
Qed.

Lemma serialize_round_trip_witness :
  board_ok blinker 5 5
  ∧ String.length (serializeCells blinker) = length blinker
  ∧ deserializeCells (serializeCells blinker) (Int 5) (Int 5) = Some blinker.
Proof.
  split; [apply blinker_ok|].
  apply (serialize_round_trip blinker 5 5), blinker_ok.
Defined.

(** X7.  A stored string without any 0 or 1 in it, the empty string among
    them, is read back as the board [createEmptyBoard] makes, whatever the
    sizes: the all-dead board, a zero-length array for a size that is
    [NaN], a [RangeError] for a negative product. *)
Theorem deserializeCells_no_bits (raw : string) (width height : number) :
  normalize raw = [] →
  deserializeCells raw width height = createEmptyBoard width height
  ∧ deserializeCells raw NaN height = Some []
  ∧ deserializeCells raw (Int (-1)) (Int 1) = None.
Proof.
  intros Hraw. unfold deserializeCells, createEmptyBoard. rewrite Hraw.
  cbn [length for_while].
  split; [by destruct (new_Uint8Array _)|]. split; reflexivity.
Qed.

Lemma deserializeCells_no_bits_witness :
  normalize "x-y z" = []
  ∧ deserializeCells "x-y z" (Int 3) (Int 2) = createEmptyBoard (Int 3) (Int 2)
  ∧ deserializeCells "x-y z" NaN (Int 2) = Some []
  ∧ deserializeCells "x-y z" (Int (-1)) (Int 1) = None.
Proof.
  split; [reflexivity|].
  apply (deserializeCells_no_bits "x-y z" (Int 3) (Int 2)). reflexivity.
Defined.

(** ** Saving and restoring the state *)

Lemma speed_in_range (q : Q) :
  (1 <= q)%Q → (q <= 30)%Q →
  ∃ q', Math_min (Int 30) (Math_max (Int 1) (Fin q)) = Fin q' ∧ (q' == q)%Q.
Proof.
  intros H1 H30. unfold Math_max, Int. change (inject_Z 1) with 1%Q.
  rewrite (proj2 (Qle_bool_iff 1 q) H1). unfold Math_min.
  change (inject_Z 30) with 30%Q.
  destruct (Qle_bool 30 q) eqn:Hle.
  - apply Qle_bool_iff in Hle. exists 30%Q. split; [done|].
    by apply Qle_antisym.
  - by exists q.
Qed.

Lemma serializeCells_nonempty (board : list Z) :
  Forall is_cell board → board ≠ [] → String.eqb (serializeCells board) "" = false.
Proof.
  intros Hcells Hne. destruct Hcells as [|v board Hv _]; [done|].
  cbn [serializeCells foldr]. by destruct Hv as [-> | ->].
Qed.

(** X8.  What [saveState] writes, mounting the component reads back: for a
    state whose sizes lie in 10..150, whose speed lies in 1..30 and whose
    theme is one of the four known ones, the payload restores the same
    board, sizes, speed, wrap mode and theme, with the generation counter
    at 0 and the simulation stopped. *)
Theorem saved_state_is_restored (host : json → option number) (s : State) :
  state_ok s →
  MIN_SIZE ≤ cfg_width (config s) ≤ MAX_SIZE →
  MIN_SIZE ≤ cfg_height (config s) ≤ MAX_SIZE →
  (1 <= cfg_speed (config s))%Q → (cfg_speed (config s) <= 30)%Q →
  cfg_theme (config s) ∈ THEMES →
  ∃ s0,
    App_mount host (Parsed (saveState_payload s (cells s))) = Mounted s0
    ∧ cells s0 = cells s
    ∧ cfg_width (config s0) = cfg_width (config s)
    ∧ cfg_height (config s0) = cfg_height (config s)
    ∧ (cfg_speed (config s0) == cfg_speed (config s))%Q
    ∧ cfg_wrap (config s0) = cfg_wrap (config s)
    ∧ cfg_theme (config s0) = cfg_theme (config s)
    ∧ generation s0 = 0 ∧ running s0 = false.
Proof.
  intros (Hboard & _ & _) Hw Hh Hs1 Hs30 Htheme.
  pose proof Hboard as [Hlen Hcells].
  destruct (speed_in_range _ Hs1 Hs30) as (q' & Hq' & Heq).
  assert (Hload :
    loadSavedState host (Parsed (saveState_payload s (cells s)))
    = Some {| saved_width := Int (cfg_width (config s));
              saved_height := Int (cfg_height (config s));
              saved_speed := Fin q';
              saved_wrap := cfg_wrap (config s);
              saved_theme := cfg_theme (config s);
              saved_cells := Some (serializeCells (cells s)) |}).
  { unfold loadSavedState, saveState_payload.
    cbn [get_prop List.find String.eqb Ascii.eqb Bool.eqb fst snd fmap
         option_fmap option_map mbind option_bind nullish_or ToNumber].
    rewrite !clampSize_Int, Hq', (isThemeId_own _ Htheme).
    unfold MIN_SIZE, MAX_SIZE in *.
    rewrite (Z.min_r 150), (Z.max_r 10) by lia.
    rewrite (Z.min_r 150), (Z.max_r 10) by lia.
    destruct (cfg_wrap (config s)); reflexivity. }
  unfold App_mount. rewrite Hload.
  assert (cells s ≠ []) as Hne.
  { intros Hnil. rewrite Hnil in Hlen. unfold U8.len, MIN_SIZE in *.
    cbn in Hlen. nia. }
  unfold App_cells. cbn [saved_cells saved_width saved_height].
  rewrite serializeCells_nonempty by done. cbn [negb].
  rewrite deserialize_serialize by done.
  cbn [App_config from_option init_width init_height init_speed init_wrap
       init_theme saved_width saved_height saved_speed saved_wrap saved_theme
       finite_value].
  unfold theme_effect. rewrite bool_decide_eq_true_2 by done.
  rewrite !int_value_Int.
  eexists. split; [reflexivity|].
  cbn [cells config cfg_width cfg_height cfg_speed cfg_wrap cfg_theme
       generation running]. done.
Qed.

Lemma saved_state_is_restored_witness :
  state_ok sample_state
  ∧ MIN_SIZE ≤ cfg_width (config sample_state) ≤ MAX_SIZE
  ∧ MIN_SIZE ≤ cfg_height (config sample_state) ≤ MAX_SIZE
  ∧ (1 <= cfg_speed (config sample_state))%Q
  ∧ (cfg_speed (config sample_state) <= 30)%Q
  ∧ cfg_theme (config sample_state) ∈ THEMES
  ∧ ∃ s0,
      App_mount strict_host
        (Parsed (saveState_payload sample_state (cells sample_state)))
      = Mounted s0
      ∧ cells s0 = cells sample_state
      ∧ cfg_width (config s0) = cfg_width (config sample_state)
      ∧ cfg_height (config s0) = cfg_height (config sample_state)
      ∧ (cfg_speed (config s0) == cfg_speed (config sample_state))%Q
      ∧ cfg_wrap (config s0) = cfg_wrap (config sample_state)
      ∧ cfg_theme (config s0) = cfg_theme (config sample_state)
      ∧ generation s0 = 0 ∧ running s0 = false.
Proof.
  assert (H1 : MIN_SIZE ≤ cfg_width (config sample_state) ≤ MAX_SIZE)
    by (vm_compute; split; discriminate).
  assert (H2 : MIN_SIZE ≤ cfg_height (config sample_state) ≤ MAX_SIZE)
    by (vm_compute; split; discriminate).
  assert (H3 : (1 <= cfg_speed (config sample_state))%Q) by discriminate.
  assert (H4 : (cfg_speed (config sample_state) <= 30)%Q) by discriminate.
  assert (H5 : cfg_theme (config sample_state) ∈ THEMES)
    by (apply list_elem_of_In; right; right; left; reflexivity).
  split; [apply sample_state_ok|]. do 5 (split; [assumption|]).
  exact (saved_state_is_restored strict_host sample_state sample_state_ok
           H1 H2 H3 H4 H5).
Defined.

(** X9.  A stored value that parses to something without any of the six
    fields (a number, a string, a boolean, an array, the empty object)
    still gives a record: 42x28, wrap on, theme "neon", no cells, and
    speed 8.  The component then starts at speed 8, whereas without a
    stored value it starts at speed 10. *)
Theorem fieldless_record_defaults (host : json → option number)
    (parsed : json) :
  (∀ key, get_prop parsed key = Some None) →
  loadSavedState host (Parsed parsed)
  = Some {| saved_width := Int DEFAULT_WIDTH;
            saved_height := Int DEFAULT_HEIGHT;
            saved_speed := Int 8; saved_wrap := true;
            saved_theme := "neon"; saved_cells := None |}
  ∧ init_speed (App_config (loadSavedState host (Parsed parsed))) = Int 8
  ∧ init_speed (App_config (loadSavedState host NoItem)) = Int 10
  ∧ App_cells (loadSavedState host (Parsed parsed))
    = App_cells (loadSavedState host NoItem).
Proof.
  intros Hnone.
  assert (Hload : loadSavedState host (Parsed parsed)
    = Some {| saved_width := Int DEFAULT_WIDTH;
              saved_height := Int DEFAULT_HEIGHT;
              saved_speed := Int 8; saved_wrap := true;
              saved_theme := "neon"; saved_cells := None |}).
  { unfold loadSavedState. rewrite !Hnone. reflexivity. }
  rewrite Hload. done.
Qed.

Lemma fieldless_record_defaults_witness :
  (∀ key, get_prop (JArr [JNum (Int 1)]) key = Some None)
  ∧ loadSavedState strict_host (Parsed (JArr [JNum (Int 1)]))
    = Some {| saved_width := Int DEFAULT_WIDTH;
              saved_height := Int DEFAULT_HEIGHT;
              saved_speed := Int 8; saved_wrap := true;
              saved_theme := "neon"; saved_cells := None |}
  ∧ init_speed (App_config (loadSavedState strict_host
                              (Parsed (JArr [JNum (Int 1)])))) = Int 8
  ∧ init_speed (App_config (loadSavedState strict_host NoItem)) = Int 10
  ∧ App_cells (loadSavedState strict_host (Parsed (JArr [JNum (Int 1)])))
    = App_cells (loadSavedState strict_host NoItem).
Proof.
  split; [intros key; reflexivity|].
  apply (fieldless_record_defaults strict_host (JArr [JNum (Int 1)])).
  intros key. reflexivity.
Defined.

(** X10.  [isThemeId] tests [value in THEMES], which also finds the
    properties every object inherits: a stored theme such as "toString" or
    "constructor" is restored as it is, although it is none of the four
    themes. *)
Theorem inherited_theme_restored (host : json → option number)
    (parsed : json) (sv : SavedState) (t : string) :
  loadSavedState host (Parsed parsed) = Some sv →
  get_prop parsed "theme" = Some (Some (JStr t)) →
  t ∈ Object_prototype →
  saved_theme sv = t ∧ (t ∉ THEMES)
  ∧ init_theme (App_config (Some sv)) = t.
Proof.
  intros Hload Ht Hproto.
  apply loadSavedState_Parsed in Hload
    as (w & h & theme & speed & wrap & cells & a & b
        & _ & _ & Htheme & _ & _ & _ & _ & _ & ->).
  rewrite Htheme in Ht. injection Ht as ->.
  cbn [saved_theme App_config from_option init_theme].
  assert (isThemeId t = true) as ->.
  { unfold isThemeId. rewrite (bool_decide_eq_true_2 (t ∈ Object_prototype))
      by done. apply orb_true_r. }
  split; [done|]. split; [|done].
  intros Hown. revert Hproto Hown. unfold Object_prototype, THEMES.
  rewrite !elem_of_cons, !elem_of_nil. intros Hp Ho.
  repeat (destruct Hp as [->|Hp];
          [repeat (destruct Ho as [Ho|Ho]; [discriminate Ho|]); done|]).
  done.
Qed.

Lemma inherited_theme_restored_witness :
  loadSavedState strict_host (Parsed (JObj [("theme", JStr "toString")]%string))
  = Some {| saved_width := Int DEFAULT_WIDTH;
            saved_height := Int DEFAULT_HEIGHT;
            saved_speed := Int 8; saved_wrap := true;
            saved_theme := "toString"; saved_cells := None |}
  ∧ get_prop (JObj [("theme", JStr "toString")]%string) "theme"
    = Some (Some (JStr "toString"))
  ∧ "toString"%string ∈ Object_prototype
  ∧ "toString"%string ∉ THEMES.
Proof.
  assert (H1 : loadSavedState strict_host
                 (Parsed (JObj [("theme", JStr "toString")]%string))
               = Some {| saved_width := Int DEFAULT_WIDTH;
                         saved_height := Int DEFAULT_HEIGHT;
                         saved_speed := Int 8; saved_wrap := true;
                         saved_theme := "toString"; saved_cells := None |})
    by reflexivity.
  assert (H2 : get_prop (JObj [("theme", JStr "toString")]%string) "theme"
               = Some (Some (JStr "toString"))) by reflexivity.
  assert (H3 : "toString"%string ∈ Object_prototype)
    by (apply list_elem_of_In; do 5 right; left; reflexivity).
  split; [exact H1|]. split; [exact H2|]. split; [exact H3|].
  exact (proj1 (proj2 (inherited_theme_restored strict_host _ _ _ H1 H2 H3))).
Defined.

(** ** Deriving the offsets of a template *)

Lemma elem_of_indexed {A : Type} (l : list A) (z : Z) (a : A) :
  (z, a) ∈ indexed l ↔ ∃ i : nat, z = Z.of_nat i ∧ l !! i = Some a.
Proof.
  unfold indexed. rewrite elem_of_lookup_imap. split.
  - intros (i & b & [= -> ->] & Hb). by exists i.
  - intros (i & -> & Ha). by exists i, a.
Qed.

Lemma chars_fold (cx cy y : Z) (chars : list (Z * ascii))
    (acc : list (Z * Z)) :
  foldl (fun offsets '(x, char) =>
           if is_live_glyph char then offsets ++ [(x - cx, y - cy)]
           else offsets)
    acc chars
  = acc ++ (chars ≫= fun xc =>
              if is_live_glyph (snd xc) then [(fst xc - cx, y - cy)] else []).
Proof.
  revert acc. induction chars as [|[x char] chars IH]; intros acc.
  - cbn. by rewrite app_nil_r.
  - cbn [foldl]. rewrite IH, bind_cons. cbn [fst snd].
    destruct (is_live_glyph char); [|done]. by rewrite <- app_assoc.
Qed.

Lemma rows_fold (cx cy : Z) (items : list (Z * string))
    (acc : list (Z * Z)) :
  foldl (fun offsets '(y, row) =>
           foldl (fun offsets '(x, char) =>
                    if is_live_glyph char then offsets ++ [(x - cx, y - cy)]
                    else offsets)
             offsets (indexed (list_ascii_of_string row)))
    acc items
  = acc ++ (items ≫= row_offsets cx cy).
Proof.
  revert acc. induction items as [|[y row] items IH]; intros acc.
  - cbn. by rewrite app_nil_r.
  - cbn [foldl]. rewrite IH, chars_fold, bind_cons, app_assoc. done.
Qed.

Lemma rowsToOffsets_rows (rows : list string) :
  rowsToOffsets rows
  = indexed rows ≫=
      row_offsets
        (match rows with
         | row :: _ => Z.of_nat (String.length row)
         | [] => 0
         end / 2)
        (Z.of_nat (length rows) / 2).
Proof. unfold rowsToOffsets. cbv zeta. by rewrite rows_fold. Qed.

(** X11.  [rowsToOffsets] yields exactly the offsets of the live glyphs
    (['O'], ['X'] or ['1']) of the template, each measured from the centre
    [(floor(width/2), floor(height/2))], where the width is the length of
    the first row and the height the number of rows; a template of no rows
    has no offsets. *)
Theorem rowsToOffsets_live_glyphs (rows : list string) (dx dy : Z) :
  (dx, dy) ∈ rowsToOffsets rows
  ↔ ∃ (x y : nat) (row : string) (char : ascii),
      rows !! y = Some row
      ∧ list_ascii_of_string row !! x = Some char
      ∧ is_live_glyph char = true
      ∧ dx = Z.of_nat x
             - match rows with
               | row :: _ => Z.of_nat (String.length row)
               | [] => 0
               end / 2
      ∧ dy = Z.of_nat y - Z.of_nat (length rows) / 2.
Proof.
  rewrite rowsToOffsets_rows, list_elem_of_bind. split.
  - intros ([z row] & Hin & Hrow).
    apply elem_of_indexed in Hrow as (y & -> & Hrow).
    unfold row_offsets in Hin. cbn [fst snd] in Hin.
    apply list_elem_of_bind in Hin as ([z char] & Hin & Hchar).
    apply elem_of_indexed in Hchar as (x & -> & Hchar).
    cbn [fst snd] in Hin.
    destruct (is_live_glyph char) eqn:Hlive; [|by apply elem_of_nil in Hin].
    apply list_elem_of_singleton in Hin. injection Hin as -> ->.
    by exists x, y, row, char.
  - intros (x & y & row & char & Hrow & Hchar & Hlive & -> & ->).
    exists (Z.of_nat y, row). split; [|apply elem_of_indexed; by exists y].
    unfold row_offsets. cbn [fst snd]. apply list_elem_of_bind.
    exists (Z.of_nat x, char). split; [|apply elem_of_indexed; by exists x].
    cbn [fst snd]. rewrite Hlive. apply list_elem_of_singleton. done.
Qed.

Example rowsToOffsets_samples :
  rowsToOffsets [".O."; "..O"; "OOO"]
  = [(0, -1); (1, 0); (-1, 1); (0, 1); (1, 1)]
  ∧ rowsToOffsets [] = []
  ∧ rowsToOffsets ["X1"; "o."] = [(-1, -1); (0, -1)].
Proof. repeat split; vm_compute; reflexivity. Qed.

(** ** The catalog fits its minimum sizes *)

Lemma catalog_within_min_size : forallb within_min_size PATTERNS = true.
Proof. vm_compute. reflexivity. Qed.

Lemma catalog_offset_bounds (patternId : string) (pattern : Pattern)
    (d : Z * Z) :
  List.find (fun p => String.eqb (pat_id p) patternId) PATTERNS
  = Some pattern →
  d ∈ offsets pattern →
  - (minWidth pattern / 2) ≤ fst d < minWidth pattern / 2
  ∧ - (minHeight pattern / 2) ≤ snd d < minHeight pattern / 2.
Proof.
  intros [Hin _]%find_some Hd%list_elem_of_In.
  pose proof catalog_within_min_size as Hall.
  rewrite forallb_forall in Hall. specialize (Hall pattern Hin).
  unfold within_min_size in Hall. rewrite forallb_forall in Hall.
  specialize (Hall d Hd).
  apply andb_prop in Hall as [Hall H4%Z.ltb_lt].
  apply andb_prop in Hall as [Hall H3%Z.leb_le].
  apply andb_prop in Hall as [H1%Z.leb_le H2%Z.ltb_lt]. lia.
Qed.

(** X12.  The minimum sizes of the catalog are large enough: when
    [applyPattern] places a pattern (the board is at least
    [minWidth] x [minHeight]), every one of its offsets lands inside the
    board and the cell it lands on is live afterwards, so no part of a
    catalog pattern is ever dropped. *)
Theorem catalog_pattern_is_complete (patternId : string) (pattern : Pattern)
    (s : State) (d : Z * Z) :
  state_ok s →
  List.find (fun p => String.eqb (pat_id p) patternId) PATTERNS
  = Some pattern →
  minWidth pattern ≤ cfg_width (config s) →
  minHeight pattern ≤ cfg_height (config s) →
  d ∈ offsets pattern →
  let width := cfg_width (config s) in
  let height := cfg_height (config s) in
  0 ≤ width / 2 + fst d < width
  ∧ 0 ≤ height / 2 + snd d < height
  ∧ cell (cells (applyPattern patternId s)) width
      (width / 2 + fst d) (height / 2 + snd d) = 1.
Proof.
  intros Hok Hfind Hw Hh Hd. cbv zeta.
  pose proof Hok as ([Hlen _] & _ & _).
  destruct (catalog_offset_bounds patternId pattern d Hfind Hd) as [Hdx Hdy].
  pose proof (applyPattern_cases patternId s) as Hcases.
  cbv zeta in Hcases. rewrite Hfind in Hcases.
  remember (cfg_width (config s)) as width eqn:Ewidth.
  remember (cfg_height (config s)) as height eqn:Eheight.
  assert (0 ≤ width / 2 + fst d < width) as Hx.
  { pose proof (Z.div_le_mono (minWidth pattern) width 2 ltac:(lia) Hw).
    pose proof (Z.mul_div_le width 2 ltac:(lia)). lia. }
  assert (0 ≤ height / 2 + snd d < height) as Hy.
  { pose proof (Z.div_le_mono (minHeight pattern) height 2 ltac:(lia) Hh).
    pose proof (Z.mul_div_le height 2 ltac:(lia)). lia. }
  split; [done|]. split; [done|].
  destruct Hcases as [(_ & _ & ->)|([?|?] & _)]; [|lia|lia].
  cbn [cells setToast setGeneration setCells]. unfold cell.
  destruct (get_placeOffsets (width / 2) (height / 2) width height
              (offsets pattern) (cells s)
              (width / 2 + fst d) (height / 2 + snd d)) as [Hyes _];
    [done|done| |].
  - rewrite Hlen. by apply row_major_range.
  - rewrite Hyes; [done|]. apply Exists_exists. exists d. by split.
Qed.

Lemma catalog_pattern_is_complete_witness :
  state_ok sample_state
  ∧ List.find (fun p => String.eqb (pat_id p) "glider") PATTERNS = Some glider
  ∧ minWidth glider ≤ cfg_width (config sample_state)
  ∧ minHeight glider ≤ cfg_height (config sample_state)
  ∧ (1, 0) ∈ offsets glider
  ∧ 0 ≤ 10 / 2 + 1 < 10
  ∧ 0 ≤ 10 / 2 + 0 < 10
  ∧ cell (cells (applyPattern "glider" sample_state)) 10
      (10 / 2 + 1) (10 / 2 + 0) = 1.
Proof.
  assert (H1 : minWidth glider ≤ cfg_width (config sample_state))
    by (vm_compute; discriminate).
  assert (H2 : minHeight glider ≤ cfg_height (config sample_state))
    by (vm_compute; discriminate).
  assert (H3 : (1, 0) ∈ offsets glider)
    by (apply list_elem_of_In; right; left; reflexivity).
  split; [apply sample_state_ok|]. split; [apply glider_in_catalog|].
  do 3 (split; [assumption|]).
  exact (catalog_pattern_is_complete "glider" glider sample_state (1, 0)
           sample_state_ok glider_in_catalog H1 H2 H3).
Defined.

(** ** Placing twice *)

Lemma get_placeOffsets_index offs cx cy width height prev i :
  U8.get (placeOffsets offs cx cy width height prev) i = Some 1
  ∨ U8.get (placeOffsets offs cx cy width height prev) i = U8.get prev i.
Proof.
  revert prev. induction offs as [|[dx dy] offs IH]; intros prev; [by right|].
  change (placeOffsets ((dx, dy) :: offs) cx cy width height prev)
    with (placeOffsets offs cx cy width height
            (placeOffsets [(dx, dy)] cx cy width height prev)).
  destruct (IH (placeOffsets [(dx, dy)] cx cy width height prev))
    as [Hone|Hsame]; [by left|].
  rewrite Hsame. unfold placeOffsets. cbn [foldl].
  destruct (_ && _); [|by right].
  destruct (decide ((cy + dy) * width + (cx + dx) = i)) as [<-|Hne].
  - rewrite get_set_eq.
    destruct (U8.get prev _); [by left|by right].
  - right. by apply get_set_ne.
Qed.

Lemma placeOffsets_keeps_live offs cx cy width height prev i :
  U8.get prev i = Some 1 →
  U8.get (placeOffsets offs cx cy width height prev) i = Some 1.
Proof.
  intros Hlive.
  destruct (get_placeOffsets_index offs cx cy width height prev i)
    as [Hone|Hsame]; [done|]. by rewrite Hsame.
Qed.

Lemma placeOffsets_fixed offs cx cy width height prev :
  (∀ d, d ∈ offs →
     (cx + fst d >=? 0) && (cx + fst d <? width)
     && (cy + snd d >=? 0) && (cy + snd d <? height) = true →
     U8.get prev ((cy + snd d) * width + (cx + fst d)) = Some 1
     ∨ U8.get prev ((cy + snd d) * width + (cx + fst d)) = None) →
  placeOffsets offs cx cy width height prev = prev.
Proof.
  induction offs as [|[dx dy] offs IH]; intros Hall; [done|].
  change (placeOffsets ((dx, dy) :: offs) cx cy width height prev)
    with (placeOffsets offs cx cy width height
            (placeOffsets [(dx, dy)] cx cy width height prev)).
  assert (placeOffsets [(dx, dy)] cx cy width height prev = prev) as ->.
  { unfold placeOffsets. cbn [foldl].
    destruct (_ && _) eqn:Hin; [|done].
    specialize (Hall (dx, dy) ltac:(left) Hin). cbn [fst snd] in Hall.
    unfold U8.set, U8.get in *.
    destruct (_ <? 0); [done|]. destruct Hall as [Hone|Hnone].
    - by apply list_insert_id.
    - apply list_insert_ge. by apply lookup_ge_None. }
  apply IH. intros d Hd. apply Hall. by right.
Qed.

Lemma get_placeOffsets_target offs cx cy width height prev d :
  d ∈ offs →
  (cx + fst d >=? 0) && (cx + fst d <? width)
  && (cy + snd d >=? 0) && (cy + snd d <? height) = true →
  U8.get (placeOffsets offs cx cy width height prev)
    ((cy + snd d) * width + (cx + fst d)) = Some 1
  ∨ U8.get (placeOffsets offs cx cy width height prev)
      ((cy + snd d) * width + (cx + fst d)) = None.
Proof.
  intros Hd Hin. revert prev.
  induction offs as [|d0 offs IH]; intros prev.
  - by apply elem_of_nil in Hd.
  - change (placeOffsets (d0 :: offs) cx cy width height prev)
      with (placeOffsets offs cx cy width height
              (placeOffsets [d0] cx cy width height prev)).
    apply elem_of_cons in Hd as [<-|Hd]; [|by apply IH].
    destruct (U8.get (placeOffsets [d] cx cy width height prev)
                ((cy + snd d) * width + (cx + fst d))) as [v|] eqn:Hv.
    + left. apply placeOffsets_keeps_live. rewrite Hv. f_equal.
      revert Hv. unfold placeOffsets. cbn [foldl]. destruct d as [dx dy].
      cbn [fst snd] in *. rewrite Hin. rewrite get_set_eq.
      destruct (U8.get prev _); [|done]. by intros [= <-].
    + right.
      destruct (get_placeOffsets_index offs cx cy width height
                  (placeOffsets [d] cx cy width height prev)
                  ((cy + snd d) * width + (cx + fst d)))
        as [Hone|Hsame]; [|by rewrite Hsame].
      apply get_Some_range in Hone. unfold U8.len in Hone.
      rewrite length_placeOffsets in Hone.
      destruct (get_in_range (placeOffsets [d] cx cy width height prev)
                  ((cy + snd d) * width + (cx + fst d))) as [v' Hv'];
        [exact Hone|congruence].
Qed.

(** X13.  Placing never clears a cell, and placing the same offsets a
    second time changes nothing: the second placement finds every target
    already live. *)
Theorem placeOffsets_idempotent (offs : list (Z * Z))
    (cx cy width height : Z) (prev : list Z) :
  (∀ i, U8.get prev i = Some 1 →
        U8.get (placeOffsets offs cx cy width height prev) i = Some 1)
  ∧ placeOffsets offs cx cy width height
      (placeOffsets offs cx cy width height prev)
    = placeOffsets offs cx cy width height prev.
Proof.
  split; [intros i; apply placeOffsets_keeps_live|].
  apply placeOffsets_fixed. intros d Hd Hin.
  by apply get_placeOffsets_target.
Qed.

(** ** Painting *)

Lemma cell_paintCell (prev : list Z) (width height x y v x' y' : Z) :
  board_ok prev width height → is_cell v →
  0 ≤ x < width → 0 ≤ y < height → 0 ≤ x' < width → 0 ≤ y' < height →
  cell (paintCell prev width x y (Some v)) width x' y'
  = if bool_decide ((x', y') = (x, y)) then v else cell prev width x' y'.
Proof.
  intros [Hlen Hcells] Hv Hx Hy Hx' Hy'.
  pose proof (get_cell prev width height Hlen x y Hx Hy) as Hget.
  destruct (decide ((x', y') = (x, y))) as [Hsame|Hother].
  - rewrite bool_decide_eq_true_2 by done. injection Hsame as -> ->.
    unfold paintCell. case_bool_decide as Hold.
    + unfold cell at 1. by rewrite Hold.
    + unfold cell at 1. rewrite get_set_eq, Hget. cbn.
      by apply ToUint8_cell.
  - rewrite bool_decide_eq_false_2 by done.
    unfold paintCell. case_bool_decide as Hold; [done|].
    unfold cell. rewrite get_set_ne; [done|].
    intros Heq. apply row_major_inj in Heq as [-> ->]; [done|lia|lia].
Qed.



Lemma paintCell_toggle (prev : list Z) (width x y : Z) :
  paintCell prev width x y None
  = U8.set prev (y * width + x)
      (if truthy (U8.get prev (y * width + x)) then 0 else 1).
Proof.
  unfold paintCell. case_bool_decide as Hsame; [|done].
  destruct (truthy (U8.get prev (y * width + x))) eqn:Ht;
    rewrite Hsame in Ht; discriminate Ht.
Qed.


Lemma outside_board_iff (x y width height : Z) :
  (x <? 0) || (y <? 0) || (x >=? width) || (y >=? height) = true
  ↔ ¬ (0 ≤ x < width ∧ 0 ≤ y < height).
Proof.
  rewrite !orb_true_iff, !Z.ltb_lt, !Z.geb_leb, !Z.leb_le. lia.
Qed.

Lemma toggleCellAt_outside (x y : Z) (forceValue : option Z) (s : State) :
  ¬ (0 ≤ x < cfg_width (config s) ∧ 0 ≤ y < cfg_height (config s)) →
  toggleCellAt x y forceValue s = s.
Proof.
  intros Hout%outside_board_iff. unfold toggleCellAt. by rewrite Hout.
Qed.

Lemma toggleCellAt_inside (x y : Z) (forceValue : option Z) (s : State) :
  0 ≤ x < cfg_width (config s) ∧ 0 ≤ y < cfg_height (config s) →
  toggleCellAt x y forceValue s
  = setCells (fun prev => paintCell prev (cfg_width (config s)) x y forceValue)
      s.
Proof.
  intros Hin. unfold toggleCellAt.
  destruct ((x <? 0) || (y <? 0) || (x >=? cfg_width (config s))
            || (y >=? cfg_height (config s))) eqn:Hc; [|done].
  apply outside_board_iff in Hc. done.
Qed.



Lemma cell_toggleCellAt (x y v x' y' : Z) (s : State) :
  state_ok s → is_cell v →
  0 ≤ x' < cfg_width (config s) → 0 ≤ y' < cfg_height (config s) →
  cell (cells (toggleCellAt x y (Some v) s)) (cfg_width (config s)) x' y'
  = if bool_decide ((x', y') = (x, y)) then v
    else cell (cells s) (cfg_width (config s)) x' y'.
Proof.
  intros (Hboard & _ & _) Hv Hx' Hy'.
  destruct (decide (0 ≤ x < cfg_width (config s)
                    ∧ 0 ≤ y < cfg_height (config s))) as [[Hx Hy]|Hout].
  - rewrite toggleCellAt_inside by done. cbn [cells setCells].
    by apply (cell_paintCell _ _ (cfg_height (config s))).
  - rewrite toggleCellAt_outside by done.
    rewrite bool_decide_eq_false_2; [done|]. intros [= -> ->]. by apply Hout.
Qed.

Lemma run_moves (path : list (Z * Z)) (t : State) :
  state_ok t → isPainting t = true →
  ∃ t',
    run ((fun p => PointerMove (fst p) (snd p)) <$> path) t = Some t'
    ∧ config t' = config t ∧ paintValue t' = paintValue t
    ∧ isPainting t' = true ∧ generation t' = generation t
    ∧ ∀ x' y', 0 ≤ x' < cfg_width (config t) →
        0 ≤ y' < cfg_height (config t) →
        cell (cells t') (cfg_width (config t)) x' y'
        = if bool_decide ((x', y') ∈ path) then paintValue t
          else cell (cells t) (cfg_width (config t)) x' y'.
Proof.
  revert t. induction path as [|[px py] path IH]; intros t Hok Hpaint.
  - exists t. cbn. repeat (split; [done|]). intros x' y' _ _.
    rewrite bool_decide_eq_false_2; [done|]. apply not_elem_of_nil.
  - pose proof Hok as (_ & Hv & _).
    set (t1 := toggleCellAt px py (Some (paintValue t)) t).
    assert (handle (PointerMove px py) t = Some t1) as Hstep.
    { cbn [handle]. unfold handlePointerMove. by rewrite Hpaint. }
    destruct (toggleCellAt_frame px py (Some (paintValue t)) t)
      as (Hg1 & _ & Hc1 & Hp1).
    fold t1 in Hg1, Hc1, Hp1.
    assert (state_ok t1) as Hok1.
    { apply toggleCellAt_ok; [done|]. by intros v [= <-]. }
    assert (isPainting t1 = true) as Hpaint1.
    { unfold t1, toggleCellAt. by destruct (_ || _). }
    destruct (IH t1 Hok1 Hpaint1)
      as (t' & Hrun & Hc & Hp & Hpt & Hg & Hcells).
    exists t'. rewrite fmap_cons. cbn [run fst snd]. rewrite Hstep.
    cbn [mbind option_bind]. split; [exact Hrun|].
    split; [congruence|]. split; [congruence|]. split; [done|].
    split; [congruence|].
    intros x' y' Hx' Hy'. rewrite Hc1 in Hcells.
    rewrite Hcells, Hp1 by done.
    unfold t1. rewrite cell_toggleCellAt by done.
    destruct (decide ((x', y') ∈ path)) as [Hin|Hnotin].
    + rewrite !bool_decide_eq_true_2; [done| |done]. by right.
    + rewrite (bool_decide_eq_false_2 ((x', y') ∈ path)) by done.
      destruct (decide ((x', y') = (px, py))) as [Heq|Hne].
      * rewrite !bool_decide_eq_true_2; [done| |done]. rewrite Heq. left.
      * rewrite !bool_decide_eq_false_2; [done| |done].
        intros [?|?]%elem_of_cons; done.
Qed.

(** X15.  A paint gesture paints with one value: when the pointer goes down
    on a cell of the board, that cell is inverted, and every cell of the
    board the pointer then moves over gets the same new value, whether it
    was live or dead; positions outside the board are skipped, no other
    cell changes, and the generation counter and the configuration stay as
    they were. *)
Theorem drag_paints_one_value (x y : Z) (path : list (Z * Z)) (s : State) :
  state_ok s →
  0 ≤ x < cfg_width (config s) → 0 ≤ y < cfg_height (config s) →
  ∃ s',
    run (drag x y path) s = Some s'
    ∧ paintValue s' = 1 - cell (cells s) (cfg_width (config s)) x y
    ∧ isPainting s' = true
    ∧ config s' = config s ∧ generation s' = generation s
    ∧ ∀ x' y', 0 ≤ x' < cfg_width (config s) →
        0 ≤ y' < cfg_height (config s) →
        cell (cells s') (cfg_width (config s)) x' y'
        = if bool_decide ((x', y') ∈ (x, y) :: path)
          then 1 - cell (cells s) (cfg_width (config s)) x y
          else cell (cells s) (cfg_width (config s)) x' y'.
Proof.
  intros Hok Hx Hy. pose proof Hok as ([Hlen Hcells] & Hpv & Hgen).
  set (v := 1 - cell (cells s) (cfg_width (config s)) x y).
  assert (is_cell v) as Hv.
  { pose proof (cell_range (cells s) (cfg_width (config s)) x y Hcells).
    unfold v, is_cell. lia. }
  assert ((if truthy (U8.get (cells s) (y * cfg_width (config s) + x))
           then 0 else 1) = v) as Hinit.
  { rewrite (get_cell (cells s) _ _ Hlen) by done. unfold v. cbn [truthy].
    pose proof (cell_range (cells s) (cfg_width (config s)) x y Hcells).
    destruct (Z.eqb_spec (cell (cells s) (cfg_width (config s)) x y) 0)
      as [->|Hne]; cbn; lia. }
  set (s0 := setPaintValue v s).
  assert (state_ok s0) as Hok0 by by split; [|split].
  set (s1 := setIsPainting true (toggleCellAt x y (Some v) s0)).
  assert (handle (PointerDown x y) s = Some s1) as Hdown.
  { cbn [handle]. unfold handlePointerDown. by rewrite Hinit. }
  destruct (toggleCellAt_frame x y (Some v) s0) as (Hg1 & _ & Hc1 & Hp1).
  assert (state_ok s1) as Hok1.
  { destruct (toggleCellAt_ok x y (Some v) s0 Hok0) as (Hb & Hp & Hg);
      [by intros ? [= <-]|]. by split; [|split]. }
  destruct (run_moves path s1 Hok1 eq_refl)
    as (s' & Hrun & Hc & Hp & Hpt & Hg & Hpaths).
  exists s'. unfold drag. cbn [run]. rewrite Hdown. cbn [mbind option_bind].
  split; [exact Hrun|].
  assert (config s1 = config s) as Hcs by (cbn; by rewrite Hc1).
  assert (paintValue s1 = v) as Hps by (cbn; by rewrite Hp1).
  split; [congruence|]. split; [done|]. split; [congruence|].
  split; [rewrite Hg; cbn; by rewrite Hg1|].
  intros x' y' Hx' Hy'. rewrite Hcs in Hpaths. rewrite Hpaths, Hps by done.
  assert (cell (cells s1) (cfg_width (config s)) x' y'
          = if bool_decide ((x', y') = (x, y)) then v
            else cell (cells s) (cfg_width (config s)) x' y') as ->.
  { cbn [cells s1 setIsPainting].
    by apply (cell_toggleCellAt x y v x' y' s0). }
  destruct (decide ((x', y') ∈ path)) as [Hin|Hnotin].
  - rewrite !bool_decide_eq_true_2; [done| |done]. by right.
  - rewrite (bool_decide_eq_false_2 ((x', y') ∈ path)) by done.
    destruct (decide ((x', y') = (x, y))) as [Heq|Hne].
    + rewrite !bool_decide_eq_true_2; [done| |done]. rewrite Heq. left.
    + rewrite !bool_decide_eq_false_2; [done| |done].
      intros [?|?]%elem_of_cons; done.
Qed.

Lemma drag_paints_one_value_witness :
  state_ok sample_state
  ∧ 0 ≤ 1 < cfg_width (config sample_state)
  ∧ 0 ≤ 1 < cfg_height (config sample_state)
  ∧ ∃ s',
      run (drag 1 1 [(2, 1); (12, 1); (3, 1)]) sample_state = Some s'
      ∧ paintValue s' = 1 - cell (cells sample_state)
                              (cfg_width (config sample_state)) 1 1
      ∧ isPainting s' = true
      ∧ config s' = config sample_state
      ∧ generation s' = generation sample_state
      ∧ ∀ x' y', 0 ≤ x' < cfg_width (config sample_state) →
          0 ≤ y' < cfg_height (config sample_state) →
          cell (cells s') (cfg_width (config sample_state)) x' y'
          = if bool_decide ((x', y') ∈ (1, 1) :: [(2, 1); (12, 1); (3, 1)])
            then 1 - cell (cells sample_state)
                       (cfg_width (config sample_state)) 1 1
            else cell (cells sample_state)
                   (cfg_width (config sample_state)) x' y'.
Proof.
  assert (H1 : 0 ≤ 1 < cfg_width (config sample_state))
    by (vm_compute; split; [discriminate|reflexivity]).
  assert (H2 : 0 ≤ 1 < cfg_height (config sample_state))
    by (vm_compute; split; [discriminate|reflexivity]).
  split; [apply sample_state_ok|]. split; [exact H1|]. split; [exact H2|].
  exact (drag_paints_one_value 1 1 [(2, 1); (12, 1); (3, 1)] sample_state
           sample_state_ok H1 H2).
Defined.

(** ** The live count *)

Lemma liveCount_from (acc : Z) (board : list Z) :
  foldl (fun sum cell => sum + cell) acc board = acc + liveCount board.
Proof.
  unfold liveCount. revert acc.
  induction board as [|v board IH] using rev_ind; intros acc; [cbn; lia|].
  rewrite !foldl_app. cbn [foldl]. rewrite (IH acc). lia.
Qed.

Lemma liveCount_cons (v : Z) (board : list Z) :
  liveCount (v :: board) = v + liveCount board.
Proof. unfold liveCount at 1. cbn [foldl]. by rewrite liveCount_from. Qed.

Lemma liveCount_insert (board : list Z) (i : nat) (old v : Z) :
  board !! i = Some old →
  liveCount (<[i := v]> board) = liveCount board - old + v.
Proof.
  revert i. induction board as [|c board IH]; intros i Hi; [done|].
  destruct i as [|i]; cbn in Hi.
  - injection Hi as ->.
    change (<[0%nat := v]> (old :: board)) with (v :: board).
    rewrite !liveCount_cons. lia.
  - change (<[S i := v]> (c :: board)) with (c :: <[i := v]> board).
    rewrite !liveCount_cons, (IH i Hi). lia.
Qed.

Lemma liveCount_set (board : list Z) (i old v : Z) :
  U8.get board i = Some old →
  liveCount (U8.set board i v) = liveCount board - old + U8.ToUint8 v.
Proof.
  unfold U8.get, U8.set. destruct (i <? 0); [done|].
  apply liveCount_insert.
Qed.

Lemma liveCount_bounds (board : list Z) :
  Forall is_cell board → 0 ≤ liveCount board ≤ Z.of_nat (length board).
Proof.
  induction 1 as [|v board Hv _ IH]; [done|].
  rewrite liveCount_cons. cbn [length]. destruct Hv as [-> | ->]; lia.
Qed.

(** X16.  On a board of 0/1 cells [liveCount] lies between 0 and
    [width * height], it is 0 for the board [createEmptyBoard] makes, and
    inverting one cell of the board changes it by exactly one: up when the
    cell was dead, down when it was live. *)
Theorem liveCount_tracks_toggles (board : list Z) (width height x y : Z) :
  board_ok board width height → 0 ≤ x < width → 0 ≤ y < height →
  0 ≤ liveCount board ≤ width * height
  ∧ (∀ empty, createEmptyBoard (Int width) (Int height) = Some empty →
       liveCount empty = 0)
  ∧ liveCount (paintCell board width x y None)
    = liveCount board + 1 - 2 * cell board width x y.
Proof.
  intros [Hlen Hcells] Hx Hy. split; [|split].
  - rewrite <- Hlen. by apply liveCount_bounds.
  - intros empty. rewrite createEmptyBoard_Int
      by (rewrite <- Hlen; unfold U8.len; lia).
    intros [= <-]. generalize (Z.to_nat (width * height)).
    induction n as [|n IH]; [done|]. cbn [replicate].
    rewrite liveCount_cons. lia.
  - rewrite paintCell_toggle.
    pose proof (get_cell board width height Hlen x y Hx Hy) as Hget.
    pose proof (cell_range board width x y Hcells) as Hc.
    rewrite (liveCount_set _ _ _ _ Hget), Hget. cbn [truthy].
    destruct (Z.eqb_spec (cell board width x y) 0) as [Hz|Hne]; cbn [negb].
    + change (U8.ToUint8 1) with 1. lia.
    + change (U8.ToUint8 0) with 0. lia.
Qed.

Lemma liveCount_tracks_toggles_witness :
  board_ok blinker 5 5 ∧ 0 ≤ 2 < 5 ∧ 0 ≤ 1 < 5
  ∧ 0 ≤ liveCount blinker ≤ 5 * 5
  ∧ (∀ empty, createEmptyBoard (Int 5) (Int 5) = Some empty →
       liveCount empty = 0)
  ∧ liveCount (paintCell blinker 5 2 1 None)
    = liveCount blinker + 1 - 2 * cell blinker 5 2 1.
Proof.
  split; [apply blinker_ok|]. split; [lia|]. split; [lia|].
  apply (liveCount_tracks_toggles blinker 5 5 2 1);
    [apply blinker_ok|lia|lia].
Defined.

(** ** Resizing there and back *)

Lemma board_eq_cells (a b : list Z) (width height : Z) :
  board_ok a width height → board_ok b width height → 0 ≤ width →
  (∀ x y, 0 ≤ x < width → 0 ≤ y < height →
          cell a width x y = cell b width x y) →
  a = b.
Proof.
  intros [Hla _] [Hlb _] Hw Hcells. apply array_eq.
  - unfold U8.len in *. lia.
  - intros i Hi. rewrite Hla in Hi.
    assert (0 < width) as Hpos.
    { destruct (decide (width = 0)) as [Hz|]; [|lia].
      rewrite Hz, Z.mul_0_l in Hi. lia. }
    pose proof (Z.mod_pos_bound i width Hpos) as Hx.
    pose proof (Z.div_mod i width ltac:(lia)) as Hdm.
    assert (0 ≤ i / width < height) as Hy.
    { split; [apply Z.div_pos; lia|].
      apply Z.div_lt_upper_bound; [lia|]. lia. }
    replace i with (i / width * width + i mod width) by lia.
    rewrite (get_cell a width height Hla), (get_cell b width height Hlb)
      by done.
    f_equal. by apply Hcells.
Qed.

(** X17.  Growing a board and shrinking it back to its old size returns
    the board it started from: no cell is lost or moved by resizing to a
    size that is at least as large in both directions. *)
Theorem resize_grow_then_shrink (prev : list Z)
    (width height bigWidth bigHeight : Z) :
  board_ok prev width height →
  0 ≤ width ≤ bigWidth → 0 ≤ height ≤ bigHeight →
  ∃ big,
    resizeCells prev width height bigWidth bigHeight = Some big
    ∧ board_ok big bigWidth bigHeight
    ∧ resizeCells big bigWidth bigHeight width height = Some prev.
Proof.
  intros Hok Hw Hh.
  destruct (resizeCells_spec prev width height bigWidth bigHeight)
    as (big & Hbig & Hokbig & Hcells); [done|lia|lia|].
  exists big. split; [done|]. split; [done|].
  destruct (resizeCells_spec big bigWidth bigHeight width height)
    as (back & Hback & Hokback & Hcells'); [done|lia|lia|].
  rewrite Hback. f_equal.
  apply (board_eq_cells back prev width height); [done|done|lia|].
  intros x y Hx Hy. rewrite Hcells' by done.
  rewrite !Z.min_r by lia.
  rewrite (proj2 (Z.ltb_lt x width)), (proj2 (Z.ltb_lt y height)) by lia.
  cbn [andb]. rewrite Hcells by lia.
  rewrite !Z.min_l by lia.
  by rewrite (proj2 (Z.ltb_lt x width)), (proj2 (Z.ltb_lt y height)) by lia.
Qed.

Lemma resize_grow_then_shrink_witness :
  board_ok blinker 5 5 ∧ 0 ≤ 5 ≤ 7 ∧ 0 ≤ 5 ≤ 6
  ∧ ∃ big,
      resizeCells blinker 5 5 7 6 = Some big
      ∧ board_ok big 7 6
      ∧ resizeCells big 7 6 5 5 = Some blinker.
Proof.
  split; [apply blinker_ok|]. split; [lia|]. split; [lia|].
  apply (resize_grow_then_shrink blinker 5 5 7 6); [apply blinker_ok|lia|lia].
Defined.

(** Shrinking first does lose the cells outside the smaller board. *)
Example resize_shrink_then_grow_loses :
  (resizeCells blinker 5 5 5 2 ≫= fun small => resizeCells small 5 2 5 5)
  = Some [0;0;0;0;0;
          0;0;1;0;0;
          0;0;0;0;0;
          0;0;0;0;0;
          0;0;0;0;0].
Proof. vm_compute. reflexivity. Qed.

(** ** Resizing twice, and what each control changes *)

(** X18.  Pressing "Resize grid" a second time without editing the size
    inputs does nothing: after a resize the clamped draft sizes are the
    board's sizes, so the handler returns the state as it is, the
    generation counter included. *)
Theorem applySize_twice (s : State) :
  state_ok s →
  ∃ s', applySize s = Some s'
        ∧ draftSize s' = draftSize s
        ∧ applySize s' = Some s'.
Proof.
  intros Hok.
  destruct (applySize_cases s Hok)
    as (width & height & Hcw & Hch & _ & _ & Hcases).
  destruct Hcases as [(_ & _ & Hsame)|(_ & next & _ & Hresized)].
  - exists s. by rewrite Hsame.
  - eexists. split; [exact Hresized|]. split; [reflexivity|].
    unfold applySize. cbn [draftSize setConfig setGeneration setCells].
    rewrite Hcw, Hch, !int_value_Int. cbn [mbind option_bind].
    cbn [config setConfig with_size cfg_width cfg_height].
    by rewrite !Z.eqb_refl.
Qed.

Lemma applySize_twice_witness :
  state_ok sample_state
  ∧ ∃ s', applySize sample_state = Some s'
          ∧ draftSize s' = draftSize sample_state
          ∧ applySize s' = Some s'.
Proof.
  split; [apply sample_state_ok|].
  apply (applySize_twice sample_state), sample_state_ok.
Defined.

Lemma handle_config (e : event) (s s' : State) :
  handle e s = Some s' →
  match e with
  | ResizeGrid =>
      cfg_speed (config s') = cfg_speed (config s)
      ∧ cfg_wrap (config s') = cfg_wrap (config s)
      ∧ cfg_theme (config s') = cfg_theme (config s)
  | SpeedInput value => config s' = with_speed value (config s)
  | EdgeBehavior => config s' = with_wrap (negb (cfg_wrap (config s))) (config s)
  | Theme id => config s' = with_theme id (config s)
  | _ => config s' = config s
  end.
Proof.
  destruct e; cbn [handle]; intros Hs'; try (injection Hs' as <-; done).
  - (* Frame *)
    injection Hs' as <-. destruct (running s); [|done].
    unfold tick. by destruct (frame_due now s).
  - (* Random *)
    unfold randomizeBoard in Hs'.
    destruct (randomBoard _ _ _ _) as [next|];
      cbn [mbind option_bind] in Hs'; [|done].
    by injection Hs' as <-.
  - (* Clear *)
    unfold clearBoard in Hs'.
    destruct (createEmptyBoard _ _) as [next|];
      cbn [mbind option_bind] in Hs'; [|done].
    by injection Hs' as <-.
  - (* ResizeGrid *)
    unfold applySize in Hs'.
    destruct (int_value (clampSize (Fin (fst (draftSize s))))) as [width|];
      cbn [mbind option_bind] in Hs'; [|done].
    destruct (int_value (clampSize (Fin (snd (draftSize s))))) as [height|];
      cbn [mbind option_bind] in Hs'; [|done].
    destruct (_ && _); [by injection Hs' as <-|].
    destruct (resizeCells _ _ _ _ _) as [next|];
      cbn [mbind option_bind] in Hs'; [|done].
    by injection Hs' as <-.
  - (* PatternButton *)
    injection Hs' as <-. unfold applyPattern.
    destruct (List.find _ PATTERNS); [|done]. by destruct (_ || _).
  - (* PointerDown *)
    injection Hs' as <-. unfold handlePointerDown. cbn.
    by destruct (toggleCellAt_frame x y
                   (Some (if truthy (U8.get (cells s)
                                      (y * cfg_width (config s) + x))
                          then 0 else 1))
                   (setPaintValue
                      (if truthy (U8.get (cells s)
                                    (y * cfg_width (config s) + x))
                       then 0 else 1) s)) as (_ & _ & -> & _).
  - (* PointerMove *)
    injection Hs' as <-. unfold handlePointerMove.
    destruct (negb _); [done|].
    by destruct (toggleCellAt_frame x y (Some (paintValue s)) s)
      as (_ & _ & -> & _).
Qed.

(** X19.  Each part of the configuration is changed by its own control
    only: the board sizes by "Resize grid", the speed by the speed slider
    (which stores the value it is given), the wrap mode by the edge button
    (which inverts it) and the theme by a theme button; no other event,
    advancing, painting, clearing, randomizing or placing a pattern, touches
    the configuration. *)
Theorem controls_own_their_setting (e : event) (s s' : State) :
  handle e s = Some s' →
  (e ≠ ResizeGrid →
   cfg_width (config s') = cfg_width (config s)
   ∧ cfg_height (config s') = cfg_height (config s))
  ∧ (match e with
     | SpeedInput value => cfg_speed (config s') = value
     | _ => cfg_speed (config s') = cfg_speed (config s)
     end)
  ∧ (match e with
     | EdgeBehavior => cfg_wrap (config s') = negb (cfg_wrap (config s))
     | _ => cfg_wrap (config s') = cfg_wrap (config s)
     end)
  ∧ (match e with
     | Theme id => cfg_theme (config s') = id
     | _ => cfg_theme (config s') = cfg_theme (config s)
     end).
Proof.
  intros Hs'. pose proof (handle_config e s s' Hs') as Hc.
  destruct e; try (rewrite Hc; done); try (destruct Hc as (? & ? & ?); done).
Qed.

Lemma controls_own_their_setting_witness :
  handle EdgeBehavior sample_state = Some (toggleWrap sample_state)
  ∧ (EdgeBehavior ≠ ResizeGrid →
     cfg_width (config (toggleWrap sample_state))
     = cfg_width (config sample_state)
     ∧ cfg_height (config (toggleWrap sample_state))
       = cfg_height (config sample_state))
  ∧ cfg_speed (config (toggleWrap sample_state))
    = cfg_speed (config sample_state)
  ∧ cfg_wrap (config (toggleWrap sample_state))
    = negb (cfg_wrap (config sample_state))
  ∧ cfg_theme (config (toggleWrap sample_state))
    = cfg_theme (config sample_state).
Proof.
  split; [reflexivity|].
  apply (controls_own_their_setting EdgeBehavior sample_state
           (toggleWrap sample_state)).
  reflexivity.
Defined.

(** ** The rate of the simulation loop *)

Lemma tick_cases (now : Q) (s : State) :
  (frame_due now s = false ∧ tick now s = s)
  ∨ (frame_due now s = true
     ∧ generation (tick now s) = generation s + 1
     ∧ lastFrame (tick now s) = now
     ∧ config (tick now s) = config s
     ∧ running (tick now s) = running s).
Proof.
  unfold tick. destruct (frame_due now s); [by right|by left].
Qed.

(** X20.  The loop never runs faster than the speed allows: over any run
    of animation frames, with the speed left alone at a value between 1 and
    30, the timestamp of the last advance is later than where it started by
    at least [1000 / speed] milliseconds, less one part in 2^52 for the
    rounding of the loop's arithmetic, per generation advanced. *)
Theorem frames_respect_speed (ts : list Q) (s s' : State) :
  (1 <= cfg_speed (config s))%Q → (cfg_speed (config s) <= 30)%Q →
  run (Frame <$> ts) s = Some s' →
  config s' = config s
  ∧ generation s ≤ generation s'
  ∧ (inject_Z (generation s' - generation s)
     * (1000 / cfg_speed (config s) * (1 - EPSILON))
     <= lastFrame s' - lastFrame s)%Q.
Proof.
  revert s. induction ts as [|now ts IH]; intros s Hlo Hhi Hrun.
  - cbn in Hrun. injection Hrun as <-. split; [done|]. split; [done|].
    rewrite Z.sub_diag. change (inject_Z 0) with 0%Q. lra.
  - rewrite fmap_cons in Hrun. cbn [run handle] in Hrun.
    cbn [mbind option_bind] in Hrun.
    assert (∃ s1, run (Frame <$> ts) s1 = Some s'
                  ∧ ((s1 = s)
                     ∨ (frame_due now s = true
                        ∧ generation s1 = generation s + 1
                        ∧ lastFrame s1 = now ∧ config s1 = config s)))
      as (s1 & Hrun1 & Hs1).
    { destruct (running s); [|by exists s; auto].
      exists (tick now s). split; [done|].
      destruct (tick_cases now s) as [[_ ->]|(Hdue & Hg & Hl & Hc & _)];
        [by left|by right]. }
    destruct Hs1 as [->|(Hdue & Hg & Hl & Hc)]; [by apply IH|].
    destruct (IH s1) as (Hc' & Hg' & Hrate);
      [by rewrite Hc|by rewrite Hc|done|].
    split; [congruence|]. split; [lia|].
    pose proof (frame_due_interval now s Hdue Hlo Hhi) as Hint.
    rewrite Hc, Hl, Hg in Hrate.
    replace (generation s' - generation s)
      with (generation s' - (generation s + 1) + 1) by lia.
    rewrite inject_Z_plus. change (inject_Z 1) with 1%Q.
    set (I := (1000 / cfg_speed (config s) * (1 - EPSILON))%Q) in *.
    set (n := inject_Z (generation s' - (generation s + 1))) in *.
    lra.
Qed.

Lemma frames_respect_speed_witness :
  (1 <= cfg_speed (config sample_state))%Q
  ∧ (cfg_speed (config sample_state) <= 30)%Q
  ∧ run (Frame <$> [100; 125; 130; 250; 251; 380]%Q) sample_state
    = Some (tick 380 (tick 250 (tick 125 sample_state)))
  ∧ generation (tick 380 (tick 250 (tick 125 sample_state)))
    = generation sample_state + 3
  ∧ (inject_Z (generation (tick 380 (tick 250 (tick 125 sample_state)))
               - generation sample_state)
     * (1000 / cfg_speed (config sample_state) * (1 - EPSILON))
     <= lastFrame (tick 380 (tick 250 (tick 125 sample_state)))
        - lastFrame sample_state)%Q.
Proof.
  assert (H0 : (1 <= cfg_speed (config sample_state))%Q) by discriminate.
  assert (H1 : (cfg_speed (config sample_state) <= 30)%Q) by discriminate.
  assert (H2 : run (Frame <$> [100; 125; 130; 250; 251; 380]%Q) sample_state
               = Some (tick 380 (tick 250 (tick 125 sample_state))))
    by (vm_compute; reflexivity).
  split; [exact H0|]. split; [exact H1|]. split; [exact H2|].
  split; [vm_compute; reflexivity|].
  exact (proj2 (proj2 (frames_respect_speed _ _ _ H0 H1 H2))).
Defined.

(** ** A size that is not a number *)

(** X21.  When the restored width or height is [NaN], the component starts
    with a zero-length board, whatever cells were stored: the array is
    allocated with length 0 and the decoding loop never runs. *)
Theorem NaN_size_gives_no_cells (sv : SavedState) :
  saved_width sv = NaN ∨ saved_height sv = NaN →
  App_cells (Some sv) = Some [].
Proof.
  intros Hnan.
  assert (Nmul (saved_width sv) (saved_height sv) = NaN) as Hmul.
  { destruct Hnan as [-> | ->]; [done|]. by destruct (saved_width sv). }
  unfold App_cells, deserializeCells, createEmptyBoard. rewrite Hmul.
  destruct (saved_cells sv) as [c|]; [|done].
  destruct (negb (String.eqb c "")); [|done].
  cbn [new_Uint8Array ToIndex mbind option_bind U8.make Z.ltb Z.compare
       Z.to_nat replicate].
  by destruct (length (normalize c)).
Qed.

Lemma NaN_size_gives_no_cells_witness :
  (saved_width {| saved_width := NaN; saved_height := Int 12;
                  saved_speed := Int 8; saved_wrap := true;
                  saved_theme := "neon"; saved_cells := Some "0110" |} = NaN
   ∨ saved_height {| saved_width := NaN; saved_height := Int 12;
                     saved_speed := Int 8; saved_wrap := true;
                     saved_theme := "neon"; saved_cells := Some "0110" |}
     = NaN)
  ∧ App_cells (Some {| saved_width := NaN; saved_height := Int 12;
                       saved_speed := Int 8; saved_wrap := true;
                       saved_theme := "neon"; saved_cells := Some "0110" |})
    = Some [].
Proof.
  assert (H : saved_width {| saved_width := NaN; saved_height := Int 12;
                             saved_speed := Int 8; saved_wrap := true;
                             saved_theme := "neon";
                             saved_cells := Some "0110" |} = NaN
              ∨ saved_height {| saved_width := NaN; saved_height := Int 12;
                                saved_speed := Int 8; saved_wrap := true;
                                saved_theme := "neon";
                                saved_cells := Some "0110" |} = NaN)
    by (left; reflexivity).
  split; [exact H|].
  exact (NaN_size_gives_no_cells _ H).
Defined.
